(** * faster-whisper-tools: segment accumulation and SRT serialization

    A shallow embedding of [src/faster_whisper_tools/transcribe_audio.py]:
    the [SRTSegment] class with its timestamp formatting, the accumulation
    loop of [transcribe_audio], the artifact writer, [process_audio_file]
    and [main].

    Python [float] is IEEE 754 binary64.  Time values are therefore modelled
    with the Standard Library's bit-level specification [SpecFloat] at
    precision 53 and maximal exponent 1024; the float operators of the
    interpreter that the script relies on ([//], [%], [int()], [-], [+], [*])
    follow CPython's [floatobject.c]. *)

From Stdlib Require Import ZArith List String Ascii Bool Lia DecimalString
  DecimalPos.
From Stdlib Require Import Floats.SpecFloat.
Import ListNotations.

Open Scope Z_scope.

(* ================================================================== *)
(** * Python exceptions and results *)

Inductive exn : Type :=
| TypeError (msg : string)
| ValueError (msg : string)
| OverflowError (msg : string)
| ZeroDivisionError (msg : string)
| OSError (msg : string).

Inductive result (A : Type) : Type :=
| Ok (a : A)
| Raise (e : exn).

Arguments Ok {A} a.
Arguments Raise {A} e.

Definition bind {A B : Type} (r : result A) (k : A -> result B) : result B :=
  match r with
  | Ok a => k a
  | Raise e => Raise e
  end.

Declare Scope py_scope.
Delimit Scope py_scope with py.
Notation "x <- c1 ;; c2" := (bind c1 (fun x => c2))
  (at level 61, c1 at next level, right associativity) : py_scope.

(* ================================================================== *)
(** * Binary64 arithmetic *)

Module Binary64.

Definition prec : Z := 53.
Definition emax : Z := 1024.

Definition float : Type := spec_float.

Definition valid (x : float) : bool := valid_binary prec emax x.

Definition fadd : float -> float -> float := SFadd prec emax.
Definition fsub : float -> float -> float := SFsub prec emax.
Definition fmul : float -> float -> float := SFmul prec emax.
Definition fdiv : float -> float -> float := SFdiv prec emax.
Definition fltb : float -> float -> bool := SFltb.
Definition fleb : float -> float -> bool := SFleb.
Definition feqb : float -> float -> bool := SFeqb.

(** An integer converted to the nearest binary64 (exact below 2^53). *)
Definition of_Z (z : Z) : float := binary_normalize prec emax z 0 false.

(** The value of a decimal literal [m / 10^k]: the interpreter parses a
    literal to the nearest binary64, which for [m] and [10^k] below 2^53
    is the correctly rounded quotient of two exact operands. *)
Definition of_decimal (m : Z) (k : Z) : float :=
  fdiv (of_Z m) (of_Z (10 ^ k)).

Definition zero : float := S754_zero false.
Definition one : float := of_Z 1.
Definition half : float := of_decimal 5 1.

Definition is_zero (x : float) : bool :=
  match x with S754_zero _ => true | _ => false end.

(** Zero or a finite non-zero number: neither NaN nor an infinity. *)
Definition is_finite (x : float) : bool :=
  match x with
  | S754_zero _ | S754_finite _ _ _ => true
  | _ => false
  end.

Definition sign_bit (x : float) : bool :=
  match x with
  | S754_zero s | S754_infinity s | S754_finite s _ _ => s
  | S754_nan => false
  end.

(** C's [copysign(0.0, y)]. *)
Definition copysign_zero (y : float) : float := S754_zero (sign_bit y).

(** C's [fmod]: the exact remainder of [x / y], with the sign of [x]. *)
Definition fmod (x y : float) : float :=
  match x, y with
  | S754_nan, _ | _, S754_nan => S754_nan
  | S754_infinity _, _ => S754_nan
  | _, S754_zero _ => S754_nan
  | S754_zero _, _ => x
  | S754_finite _ _ _, S754_infinity _ => x
  | S754_finite sx mx ex, S754_finite _ my ey =>
      let ez := Z.min ex ey in
      let r := Z.rem (Zpos (fst (shl_align mx ex ez)))
                     (Zpos (fst (shl_align my ey ez))) in
      binary_normalize prec emax (cond_Zopp sx r) ez sx
  end.

(** C's [floor]. *)
Definition ffloor (x : float) : float :=
  match x with
  | S754_finite s m e =>
      if 0 <=? e then x
      else binary_normalize prec emax
             (Z.shiftr (cond_Zopp s (Zpos m)) (- e)) 0 s
  | _ => x
  end.

(** [PyLong_FromDouble]: truncation toward zero; NaN and the infinities
    have no integer value. *)
Definition int_of_float (x : float) : result Z :=
  match x with
  | S754_nan => Raise (ValueError "cannot convert float NaN to integer")
  | S754_infinity _ =>
      Raise (OverflowError "cannot convert float infinity to integer")
  | S754_zero _ => Ok 0
  | S754_finite s m e => Ok (cond_Zopp s (Z.shiftl (Zpos m) e))
  end.

(** [_float_div_mod] of [floatobject.c], for a non-zero divisor:
    the pair (floor quotient, remainder with the divisor's sign). *)
Definition float_div_mod (vx wx : float) : float * float :=
  let m0 := fmod vx wx in
  let d0 := fdiv (fsub vx m0) wx in
  let '(md, dv) :=
    if negb (is_zero m0) then
      if xorb (fltb wx zero) (fltb m0 zero)
      then (fadd m0 wx, fsub d0 one)
      else (m0, d0)
    else (copysign_zero wx, d0) in
  let floordiv :=
    if negb (is_zero dv) then
      let fl := ffloor dv in
      if fltb half (fsub dv fl) then fadd fl one else fl
    else copysign_zero (fdiv vx wx) in
  (floordiv, md).

(** [float_floor_div]: the operator [//] on floats. *)
Definition float_floor_div (vx wx : float) : result float :=
  if feqb wx zero
  then Raise (ZeroDivisionError "float floor division by zero")
  else Ok (fst (float_div_mod vx wx)).

(** [float_rem]: the operator [%] on floats. *)
Definition float_rem (vx wx : float) : result float :=
  if feqb wx zero
  then Raise (ZeroDivisionError "float modulo by zero")
  else
    let m0 := fmod vx wx in
    Ok (if negb (is_zero m0) then
          if xorb (fltb wx zero) (fltb m0 zero) then fadd m0 wx else m0
        else copysign_zero wx).

End Binary64.

Import Binary64.

(* ================================================================== *)
(** * String formatting *)

Open Scope string_scope.

(** [str(n)] for an [int]. *)
Definition str_of_int (n : Z) : string :=
  NilZero.string_of_int (Z.to_int n).

Fixpoint zeros (n : nat) : string :=
  match n with
  | O => ""
  | S k => String "0" (zeros k)
  end.

(** [s.zfill(w)] on a string of digits. *)
Definition zfill (w : nat) (s : string) : string :=
  zeros (w - String.length s)%nat ++ s.

(** The format specification [{:0wd}]: sign-aware zero padding to a minimal
    width of [w] characters. *)
Definition format_0wd (w : nat) (n : Z) : string :=
  if (n <? 0)%Z
  then "-" ++ zfill (w - 1)%nat (str_of_int (- n)%Z)
  else zfill w (str_of_int n).

(** [sep.join(parts)]. *)
Fixpoint join (sep : string) (parts : list string) : string :=
  match parts with
  | [] => ""
  | [s] => s
  | s :: rest => s ++ sep ++ join sep rest
  end.

Definition newline : ascii := "010"%char.
Definition nl : string := String newline "".

(** [s.split("\n")]: the lines of a text; a text ending in a newline has a
    last, empty line. *)
Fixpoint split_lines (s : string) : list string :=
  match s with
  | "" => [""]
  | String c rest =>
      if Ascii.eqb c newline then "" :: split_lines rest
      else match split_lines rest with
           | [] => [String c ""]
           | l :: ls => String c l :: ls
           end
  end.

(* ================================================================== *)
(** * The [SRTSegment] class *)

Record SRTSegment : Type := mkSRTSegment {
  index : Z;
  start_time : float;
  end_time : float;
  text : string
}.

(** [SRTSegment._format_timestamp]. *)
Definition _format_timestamp (time : float) : result string :=
  (q1 <- float_floor_div time (of_Z 3600) ;;
   hours <- int_of_float q1 ;;
   r1 <- float_rem time (of_Z 3600) ;;
   q2 <- float_floor_div r1 (of_Z 60) ;;
   minutes <- int_of_float q2 ;;
   r2 <- float_rem time (of_Z 60) ;;
   seconds <- int_of_float r2 ;;
   r3 <- float_rem time (of_Z 1) ;;
   millis <- int_of_float (fmul r3 (of_Z 1000)) ;;
   Ok (format_0wd 2 hours ++ ":" ++ format_0wd 2 minutes ++ ":" ++
       format_0wd 2 seconds ++ "," ++ format_0wd 3 millis))%py.

(** [SRTSegment.to_srt_string]. *)
Definition to_srt_string (self : SRTSegment) : result string :=
  (start_timestamp <- _format_timestamp (start_time self) ;;
   end_timestamp <- _format_timestamp (end_time self) ;;
   Ok (str_of_int (index self) ++ nl ++
       start_timestamp ++ " --> " ++ end_timestamp ++ nl ++
       text self ++ nl))%py.

(* ================================================================== *)
(** * The accumulation loop of [transcribe_audio] *)

(** A segment as the engine yields it; the script reads only [segment.end]
    and [segment.text]. *)
Record Segment : Type := mkSegment {
  seg_end : float;
  seg_text : string
}.

(** The [tqdm] bar of the [with] block: its [total], its running counter
    [n] (an [int] 0 before the first update), and, as a trace, the
    arguments of the [update] calls in the order they were made.  Only the
    counter is followed: what the bar draws on the terminal, at a refresh
    or when the [with] block closes it, is not part of the model. *)
Record ProgressBar : Type := mkProgressBar {
  total : float;
  n : float;
  updates : list float
}.

Definition tqdm (total : float) : ProgressBar :=
  mkProgressBar total zero [].

(** [pbar.update(delta)]: [self.n += delta]. *)
Definition update (pbar : ProgressBar) (delta : float) : ProgressBar :=
  mkProgressBar (total pbar) (fadd (n pbar) delta) (updates pbar ++ [delta]).

(** The local variables of [transcribe_audio] that the loop mutates. *)
Record LoopState : Type := mkLoopState {
  full_txt : list string;
  srt_segments : list SRTSegment;
  running_start : float;
  pbar : ProgressBar
}.

(** [enumerate(xs, start)]. *)
Fixpoint enumerate {A : Type} (start : Z) (xs : list A) : list (Z * A) :=
  match xs with
  | [] => []
  | x :: rest => (start, x) :: enumerate (start + 1) rest
  end.

(** One iteration of the [for] loop (source lines 55 to 59). *)
Definition loop_body (st : LoopState) (idx : Z) (segment : Segment)
  : LoopState :=
  mkLoopState
    (full_txt st ++ [seg_text segment])
    (srt_segments st ++
       [mkSRTSegment idx (running_start st) (seg_end segment)
                     (seg_text segment)])
    (seg_end segment)
    (update (pbar st) (fsub (seg_end segment) (running_start st))).

Definition loop_init (duration : float) : LoopState :=
  mkLoopState [] [] zero (tqdm duration).

(** The [for] loop, entered in state [st] with the next index [k]. *)
Definition loop_from (st : LoopState) (k : Z) (segments : list Segment)
  : LoopState :=
  fold_left (fun st p => loop_body st (fst p) (snd p))
            (enumerate k segments) st.

(** The whole [with] block over the segments the engine produced. *)
Definition transcribe_loop (segments : list Segment) (duration : float)
  : LoopState :=
  loop_from (loop_init duration) 1 segments.

(* ================================================================== *)
(** * The world around the script *)

(** External collaborators: the recognition engine
    ([WhisperModel(model_size, ...).transcribe(path, beam_size=5)], giving
    the segments and [info.duration]), the path functions of [os.path],
    and the operating system's answer to the two requests of
    [save_to_file]: the exception, if any, that
    [os.makedirs(path, exist_ok=True)] and
    [open(path, "w", encoding="utf-8")] raise for a path. *)
Record Platform : Type := mkPlatform {
  engine : string -> string -> list Segment * float;
  os_path_join : string -> string -> string;
  os_path_dirname : string -> string;
  os_makedirs : string -> option exn;
  os_open : string -> option exn
}.

(** What the script can change or observe: the audio files handed to the
    engine, the directories made and the files written, the messages
    passed to [logging.info] (whether a handler prints them depends on the
    level of the root logger, which is not recorded), and the clock
    (already formatted by [strftime("%Y%m%d_%H%M%S")]). *)
Record World : Type := mkWorld {
  transcribed : list (string * string);
  dirs : list string;
  files : list (string * string);
  log : list string;
  now_str : string
}.

Definition Py (A : Type) : Type := World -> result A * World.

(** The body of [transcribe_audio(audio_file_path, model_size)]. *)
Definition transcribe_audio (P : Platform)
    (audio_file_path model_size : string)
  : Py (string * list SRTSegment) :=
  fun w =>
    let '(segments, duration) := engine P audio_file_path model_size in
    let w1 := mkWorld (transcribed w ++ [(audio_file_path, model_size)])
                      (dirs w) (files w) (log w) (now_str w) in
    let st := transcribe_loop segments duration in
    (Ok (join " " (full_txt st), srt_segments st), w1).

(** [save_to_file(text, output_file)]: an exception of [os.makedirs]
    leaves before anything is written, one of [open] after the directory
    has been made. *)
Definition save_to_file (P : Platform) (text output_file : string)
  : Py unit :=
  fun w =>
    match os_makedirs P (os_path_dirname P output_file) with
    | Some e => (Raise e, w)
    | None =>
        let w1 := mkWorld (transcribed w)
                          (dirs w ++ [os_path_dirname P output_file])
                          (files w) (log w) (now_str w) in
        match os_open P output_file with
        | Some e => (Raise e, w1)
        | None =>
            (Ok tt,
             mkWorld (transcribed w1) (dirs w1)
                     (files w1 ++ [(output_file, text)])
                     (log w1) (now_str w1))
        end
    end.

(** [save_transcription_and_summarize(transcription, output_dir)]: the
    call of [logging.info] comes after the file has been saved. *)
Definition save_transcription_and_summarize (P : Platform)
    (transcription output_dir : string) : Py string :=
  fun w =>
    let output_text_file :=
      os_path_join P output_dir (now_str w ++ "_output.txt") in
    match save_to_file P transcription output_text_file w with
    | (Ok _, w1) =>
        (Ok output_text_file,
         mkWorld (transcribed w1) (dirs w1) (files w1)
                 (log w1 ++ ["Transcription saved to " ++ output_text_file])
                 (now_str w1))
    | (Raise e, w1) => (Raise e, w1)
    end.

(** A function object: its name, its positional parameters and its body
    applied to the bound arguments. *)
Record pyfunction (R : Type) : Type := mkFunction {
  fn_name : string;
  fn_params : list string;
  fn_body : list string -> Py R
}.

Arguments fn_name {R} _.
Arguments fn_params {R} _.
Arguments fn_body {R} _.

(** A call with positional arguments only, to a function without defaults:
    the arguments are bound to the parameters before the body runs, and a
    wrong number of them raises [TypeError] without running it. *)
Definition call_positional {R : Type} (f : pyfunction R)
    (args : list string) : Py R :=
  fun w =>
    if Nat.eqb (List.length args) (List.length (fn_params f))
    then fn_body f args w
    else
      (Raise (TypeError
         (fn_name f ++ "() takes " ++
          str_of_int (Z.of_nat (List.length (fn_params f))) ++
          " positional arguments but " ++
          str_of_int (Z.of_nat (List.length args)) ++ " were given")),
       w).

(** [def transcribe_audio(audio_file_path, model_size)] as a function
    object (source line 45). *)
Definition transcribe_audio_def (P : Platform)
  : pyfunction (string * list SRTSegment) :=
  mkFunction _ "transcribe_audio" ["audio_file_path"; "model_size"]
    (fun args =>
       match args with
       | [audio_file_path; model_size] =>
           transcribe_audio P audio_file_path model_size
       | _ => fun w => (Raise (TypeError "unbound parameter"), w)
       end).

(** [process_audio_file(audio_file_path, model_size, output_dir)]
    (source lines 78 to 81). *)
Definition process_audio_file (P : Platform)
    (audio_file_path model_size output_dir : string) : Py string :=
  fun w =>
    match call_positional (transcribe_audio_def P)
            [audio_file_path; model_size; output_dir] w with
    | (Ok (transcription, _), w1) =>
        save_transcription_and_summarize P transcription output_dir w1
    | (Raise e, w1) => (Raise e, w1)
    end.

(* ================================================================== *)
(** * Closed forms used to describe the loop's result *)

(** The records the loop appends when it starts at index [k] with the
    running start [s]. *)
Fixpoint records_from (k : Z) (s : float) (segments : list Segment)
  : list SRTSegment :=
  match segments with
  | [] => []
  | x :: rest =>
      mkSRTSegment k s (seg_end x) (seg_text x)
        :: records_from (k + 1) (seg_end x) rest
  end.

(** The progress deltas the loop emits when the running start is [s]. *)
Fixpoint deltas_from (s : float) (segments : list Segment) : list float :=
  match segments with
  | [] => []
  | x :: rest => fsub (seg_end x) s :: deltas_from (seg_end x) rest
  end.

(** Segment ends in strictly increasing order ([<] of binary64), starting
    above the bound [s]. *)
Fixpoint increasing_from (s : float) (segments : list Segment) : bool :=
  match segments with
  | [] => true
  | x :: rest => fltb s (seg_end x) && increasing_from (seg_end x) rest
  end.

Definition strictly_increasing (segments : list Segment) : bool :=
  match segments with
  | [] => true
  | x :: rest => increasing_from (seg_end x) rest
  end.

(** The integers [k], [k+1], ..., [k+len-1]. *)
Fixpoint Zseq (k : Z) (len : nat) : list Z :=
  match len with
  | O => []
  | S l => k :: Zseq (k + 1) l
  end.

(* ================================================================== *)
(** * Vocabulary of the statements *)

(** The running start when the loop reaches the segment at position [i]:
    [0.0] for the first one, the previous segment's end afterwards. *)
Definition running_start_at (segments : list Segment) (i : nat) : float :=
  nth i (zero :: map seg_end segments) zero.

(** Every segment end is a well-formed binary64. *)
Definition all_valid (segments : list Segment) : bool :=
  forallb (fun x => valid (seg_end x)) segments.

(** Segment ends that start at or above [0.0] and then strictly increase. *)
Definition nonneg_increasing (segments : list Segment) : bool :=
  match segments with
  | [] => true
  | x :: rest => fleb zero (seg_end x) && increasing_from (seg_end x) rest
  end.

(** A platform whose engine yields the given segments and duration for any
    audio file; paths are joined with a slash, and the operating system
    refuses nothing. *)
Definition fixed_engine (segments : list Segment) (duration : float)
  : Platform :=
  mkPlatform (fun _ _ => (segments, duration))
             (fun d f => d ++ "/" ++ f)
             (fun p => p)
             (fun _ => None)
             (fun _ => None).

Definition empty_world : World := mkWorld [] [] [] [] "20240101_000000".

(** Two segments whose ends go backwards: 5.0 then 3.0. *)
Definition backwards_segments : list Segment :=
  [mkSegment (of_Z 5) "a"; mkSegment (of_Z 3) "b"].

(** Two segments ending at 0.2 and 0.9. *)
Definition tenths_segments : list Segment :=
  [mkSegment (of_decimal 2 1) "a"; mkSegment (of_decimal 9 1) "b"].

(** Two consecutive cues. *)
Definition cue_one : SRTSegment :=
  mkSRTSegment 1 zero (of_decimal 25 1) "Hi".
Definition cue_two : SRTSegment :=
  mkSRTSegment 2 (of_decimal 25 1) (of_Z 4) "there".

(** No character of the string is a newline. *)
Fixpoint no_newline (s : string) : bool :=
  match s with
  | "" => true
  | String c rest => negb (Ascii.eqb c newline) && no_newline rest
  end.

(* ================================================================== *)
(** * Vocabulary of the rounding analysis *)
Open Scope Z_scope.

Definition inexact (mrs : shr_record) : bool := shr_r mrs || shr_s mrs.

Definition fexp64 (e : Z) : Z := Z.max (e - 53) (-1074).

(** The last step of rounding: the class of the result, from the rounded
    mantissa and its exponent. *)
Definition finish (sx : bool) (m e : Z) : float :=
  match m with
  | Z0 => S754_zero sx
  | Zpos p => if e <=? 971 then S754_finite sx p e else S754_infinity sx
  | Zneg _ => S754_nan
  end.

Definition fbounded (A B : Z) (x : float) : Prop :=
  match x with
  | S754_zero _ => True
  | S754_finite _ m e =>
      Zdigits2 (Zpos m) <= 53 /\ -1074 <= e /\
      Zdigits2 (Zpos m) + e <= A /\ e <= B
  | _ => False
  end.

Definition fsigned (s : bool) (x : float) : Prop :=
  match x with
  | S754_finite s' _ _ | S754_infinity s' => s' = s
  | _ => True
  end.

(** The value of a finite float, counted in units of 2^-1074. *)
Definition scaled (x : float) : Z :=
  match x with
  | S754_finite s m e => cond_Zopp s (Zpos m * 2 ^ (e + 1074))
  | _ => 0
  end.

(** [v] units of 2^-1074 make a binary64 number. *)
Definition representable (v : Z) : Prop :=
  exists M E, 0 <= M /\ Zdigits2 M <= 53 /\ -1074 <= E <= 971 /\
              v = M * 2 ^ (E + 1074).

Open Scope string_scope.

(* ================================================================== *)
(** * The command line, the files on disk, and decimal digits *)

(** The namespace [parser.parse_args()] returns: [args.filename],
    [args.model] and [args.output_dir]. *)
Record Namespace : Type := mkNamespace {
  filename : string;
  model : string;
  output_dir : string
}.

(** [parse_args] either returns the namespace or leaves the interpreter
    with an exit status (usage error, [--help]). *)
Inductive parsed : Type :=
| Parsed (args : Namespace)
| SystemExit (status : Z).

(** How a run of the script ends. *)
Inductive outcome : Type :=
| Returned
| Raised (e : exn)
| Exited (status : Z).

(** [main()] (source lines 84 to 106).  The parser built by the three
    [add_argument] calls is the parameter [parse_args], applied to the
    command line; [logging.basicConfig] only sets the level of the root
    logger, which no field of [World] records. *)
Definition main (P : Platform) (parse_args : list string -> parsed)
    (argv : list string) : World -> outcome * World :=
  fun w =>
    match parse_args argv with
    | SystemExit status => (Exited status, w)
    | Parsed args =>
        match process_audio_file P (filename args) (model args)
                (output_dir args) w with
        | (Ok _, w1) => (Returned, w1)
        | (Raise e, w1) => (Raised e, w1)
        end
    end.


(** The character of the decimal digit [d]. *)
Definition digit (d : Z) : ascii := ascii_of_nat (48 + Z.to_nat d).

Definition two_digits (n : Z) : string :=
  String (digit (n / 10)) (String (digit (n mod 10)) "").

Definition three_digits (n : Z) : string :=
  String (digit (n / 100))
    (String (digit (n / 10 mod 10)) (String (digit (n mod 10)) "")).

(** [x] is a non-negative multiple of 2^-k seconds with fewer than 53
    bits: [x = z / 2^k] for an integer [0 <= z < 2^53]. *)
Definition on_grid (k : Z) (x : float) : bool :=
  valid x && is_finite x && (0 <=? scaled x)%Z &&
  (scaled x mod 2 ^ (1074 - k) =? 0)%Z &&
  (scaled x <? 2 ^ 53 * 2 ^ (1074 - k))%Z.

(* ================================================================== *)
(** * The loop in closed form *)

Lemma loop_from_cons : forall st k x rest,
  loop_from st k (x :: rest) = loop_from (loop_body st k x) (k + 1) rest.
Proof. reflexivity. Qed.

Lemma loop_from_srt_segments : forall segments st k,
  srt_segments (loop_from st k segments) =
  (srt_segments st ++ records_from k (running_start st) segments)%list.
Proof.
  induction segments as [|x rest IH]; intros st k.
  - simpl. now rewrite app_nil_r.
  - rewrite loop_from_cons, IH. simpl. now rewrite <- app_assoc.
Qed.

Lemma loop_from_full_txt : forall segments st k,
  full_txt (loop_from st k segments) =
  (full_txt st ++ map seg_text segments)%list.
Proof.
  induction segments as [|x rest IH]; intros st k.
  - simpl. now rewrite app_nil_r.
  - rewrite loop_from_cons, IH. simpl. now rewrite <- app_assoc.
Qed.

Lemma loop_from_updates : forall segments st k,
  updates (pbar (loop_from st k segments)) =
  (updates (pbar st) ++ deltas_from (running_start st) segments)%list.
Proof.
  induction segments as [|x rest IH]; intros st k.
  - simpl. now rewrite app_nil_r.
  - rewrite loop_from_cons, IH. simpl. now rewrite <- app_assoc.
Qed.

Lemma loop_from_n : forall segments st k,
  n (pbar (loop_from st k segments)) =
  fold_left fadd (deltas_from (running_start st) segments) (n (pbar st)).
Proof.
  induction segments as [|x rest IH]; intros st k.
  - reflexivity.
  - rewrite loop_from_cons, IH. reflexivity.
Qed.

Lemma loop_from_total : forall segments st k,
  total (pbar (loop_from st k segments)) = total (pbar st).
Proof.
  induction segments as [|x rest IH]; intros st k.
  - reflexivity.
  - rewrite loop_from_cons, IH. reflexivity.
Qed.

Lemma loop_srt_segments : forall segments duration,
  srt_segments (transcribe_loop segments duration) =
  records_from 1 zero segments.
Proof. intros. unfold transcribe_loop. now rewrite loop_from_srt_segments. Qed.

Lemma loop_full_txt : forall segments duration,
  full_txt (transcribe_loop segments duration) = map seg_text segments.
Proof. intros. unfold transcribe_loop. now rewrite loop_from_full_txt. Qed.

Lemma loop_updates : forall segments duration,
  updates (pbar (transcribe_loop segments duration)) =
  deltas_from zero segments.
Proof. intros. unfold transcribe_loop. now rewrite loop_from_updates. Qed.

Lemma loop_n : forall segments duration,
  n (pbar (transcribe_loop segments duration)) =
  fold_left fadd (deltas_from zero segments) zero.
Proof. intros. unfold transcribe_loop. now rewrite loop_from_n. Qed.

Lemma loop_total : forall segments duration,
  total (pbar (transcribe_loop segments duration)) = duration.
Proof. intros. unfold transcribe_loop. now rewrite loop_from_total. Qed.

Lemma records_from_length : forall segments k s,
  List.length (records_from k s segments) = List.length segments.
Proof. induction segments; intros; simpl; auto. Qed.

Lemma records_from_index : forall segments k s,
  map index (records_from k s segments) = Zseq k (List.length segments).
Proof. induction segments; intros; simpl; f_equal; auto. Qed.

Lemma records_from_end : forall segments k s,
  map end_time (records_from k s segments) = map seg_end segments.
Proof. induction segments; intros; simpl; f_equal; auto. Qed.

Lemma records_from_start : forall segments k s,
  map start_time (records_from k s segments) =
  firstn (List.length segments) (s :: map seg_end segments).
Proof.
  induction segments as [|x rest IH]; intros k s.
  - reflexivity.
  - cbn [records_from map List.length firstn start_time].
    f_equal. apply IH.
Qed.

(** What [transcribe_audio] returns, in terms of what the engine yields. *)
Lemma transcribe_audio_returns : forall P audio_file_path model_size w,
  fst (transcribe_audio P audio_file_path model_size w) =
  Ok (join " " (map seg_text (fst (engine P audio_file_path model_size))),
      records_from 1 zero (fst (engine P audio_file_path model_size))).
Proof.
  intros. unfold transcribe_audio.
  destruct (engine P audio_file_path model_size) as [segments duration].
  simpl. now rewrite loop_full_txt, loop_srt_segments.
Qed.

(* ================================================================== *)
(** * Binary64 rounding: shifts, digits and bounds *)

Open Scope Z_scope.

Lemma digits2_pos_size : forall p, digits2_pos p = Pos.size p.
Proof. induction p; simpl; congruence. Qed.

Lemma Zdigits2_log2 : forall p, Zdigits2 (Zpos p) = Z.log2 (Zpos p) + 1.
Proof.
  intros p. simpl. rewrite digits2_pos_size.
  destruct p; simpl; lia.
Qed.

Lemma iter_pos_iter : forall (A : Type) (f : A -> A) p x,
  iter_pos f p x = Pos.iter f x p.
Proof.
  induction p; intros x; simpl.
  - rewrite !IHp. now rewrite <- !Pos.iter_swap.
  - now rewrite !IHp.
  - reflexivity.
Qed.

Lemma iter_xO_pow2 : forall d m, Zpos (Pos.iter xO m d) = Zpos m * 2 ^ Zpos d.
Proof.
  intros d m. induction d using Pos.peano_ind.
  - simpl. lia.
  - rewrite Pos.iter_succ, Pos2Z.inj_succ, Z.pow_succ_r by lia.
    rewrite Pos2Z.inj_xO, IHd. ring.
Qed.

Lemma shl_align_spec : forall mx ex ex',
  snd (shl_align mx ex ex') = Z.min ex ex' /\
  Zpos (fst (shl_align mx ex ex')) = Zpos mx * 2 ^ (ex - Z.min ex ex').
Proof.
  intros mx ex ex'. unfold shl_align.
  destruct (ex' - ex) eqn:E; cbn [fst snd].
  - replace (Z.min ex ex') with ex by lia. rewrite Z.sub_diag. lia.
  - replace (Z.min ex ex') with ex by lia. rewrite Z.sub_diag. lia.
  - replace (Z.min ex ex') with ex' by lia. split; [reflexivity|].
    rewrite iter_xO_pow2. f_equal. f_equal. lia.
Qed.

(** shr_1 on a non-negative mantissa *)
Lemma shr_1_m : forall mrs, 0 <= shr_m mrs ->
  shr_m (shr_1 mrs) = shr_m mrs / 2.
Proof.
  intros [m r s] H. simpl in *.
  destruct m as [|p|p]; [reflexivity| |lia].
  destruct p; simpl.
  - apply Z.div_unique with (r := 1); lia.
  - apply Z.div_unique with (r := 0); lia.
  - reflexivity.
Qed.

Lemma shr_1_inexact : forall mrs, 0 <= shr_m mrs ->
  inexact (shr_1 mrs) = Z.odd (shr_m mrs) || inexact mrs.
Proof.
  intros [m r s] H. unfold inexact. simpl in *.
  destruct m as [|p|p]; [reflexivity| |lia].
  destruct p; simpl; reflexivity.
Qed.

Lemma shr_iter_spec : forall k mrs, 0 <= shr_m mrs ->
  shr_m (Pos.iter shr_1 mrs k) = shr_m mrs / 2 ^ Zpos k /\
  (inexact (Pos.iter shr_1 mrs k) = false <->
   inexact mrs = false /\ shr_m mrs mod 2 ^ Zpos k = 0).
Proof.
  intros k. induction k using Pos.peano_ind; intros mrs H.
  - simpl Pos.iter. rewrite shr_1_m, shr_1_inexact by assumption.
    change (2 ^ 1) with 2. split; [reflexivity|].
    rewrite orb_false_iff, Zodd_mod.
    destruct (Z.eqb_spec (shr_m mrs mod 2) 1);
      pose proof (Z.mod_pos_bound (shr_m mrs) 2); intuition (try lia; try discriminate).
  - rewrite Pos.iter_succ_r.
    assert (H1 : 0 <= shr_m (shr_1 mrs)).
    { rewrite shr_1_m by assumption. apply Z.div_pos; lia. }
    destruct (IHk _ H1) as [Hm Hi]. rewrite Hm, Hi.
    rewrite shr_1_m, shr_1_inexact by assumption.
    rewrite Pos2Z.inj_succ, Z.pow_succ_r by lia.
    split.
    + rewrite Z.div_div by lia. reflexivity.
    + rewrite orb_false_iff, Zodd_mod.
      pose proof (Z.mod_pos_bound (shr_m mrs) 2).
      assert (Hk : 0 < 2 ^ Zpos k) by (apply Z.pow_pos_nonneg; lia).
      rewrite (Z.rem_mul_r (shr_m mrs) 2 (2 ^ Zpos k)) by lia.
      pose proof (Z.mod_pos_bound (shr_m mrs / 2) (2 ^ Zpos k) Hk).
      destruct (Z.eqb_spec (shr_m mrs mod 2) 1); split; intros; intuition (try discriminate; try nia; try lia).
Qed.

Lemma shr_spec : forall mrs e n, 0 <= shr_m mrs ->
  snd (shr mrs e n) = e + Z.max 0 n /\
  shr_m (fst (shr mrs e n)) = shr_m mrs / 2 ^ Z.max 0 n /\
  (inexact (fst (shr mrs e n)) = false <->
   inexact mrs = false /\ shr_m mrs mod 2 ^ Z.max 0 n = 0).
Proof.
  intros mrs e n H. unfold shr. destruct n as [|p|p]; cbn [fst snd].
  - change (Z.max 0 0) with 0. rewrite Z.add_0_r, Z.pow_0_r, Z.div_1_r, Z.mod_1_r. tauto.
  - rewrite iter_pos_iter. replace (Z.max 0 (Z.pos p)) with (Z.pos p) by lia.
    destruct (shr_iter_spec p mrs H) as [H1 H2]. tauto.
  - replace (Z.max 0 (Z.neg p)) with 0 by lia.
    rewrite Z.add_0_r, Z.pow_0_r, Z.div_1_r, Z.mod_1_r. tauto.
Qed.

(** The round bit after a shift is the highest bit shifted out. *)
Lemma shr_iter_round : forall k mrs, 0 <= shr_m mrs ->
  shr_r (Pos.iter shr_1 mrs k) = true ->
  2 ^ Zpos k <= 2 * (shr_m mrs mod 2 ^ Zpos k).
Proof.
  intros k. induction k using Pos.peano_ind; intros mrs H Hr.
  - simpl Pos.iter in Hr. change (2 ^ 1) with 2.
    destruct mrs as [m r s]. cbn [shr_m] in H |- *.
    destruct m as [|p|p]; [discriminate| |lia].
    destruct p as [p|p|]; [|discriminate|change (1 mod 2) with 1; lia].
    rewrite Pos2Z.inj_xI.
    replace (2 * Z.pos p + 1) with (1 + Z.pos p * 2) by lia.
    rewrite Z.mod_add by lia. change (1 mod 2) with 1. lia.
  - rewrite Pos.iter_succ_r in Hr.
    assert (H1 : 0 <= shr_m (shr_1 mrs)).
    { rewrite shr_1_m by assumption. apply Z.div_pos; lia. }
    specialize (IHk _ H1 Hr). rewrite shr_1_m in IHk by assumption.
    rewrite Pos2Z.inj_succ, Z.pow_succ_r by lia.
    assert (Hk : 0 < 2 ^ Zpos k) by (apply Z.pow_pos_nonneg; lia).
    rewrite (Z.rem_mul_r (shr_m mrs) 2 (2 ^ Zpos k)) by lia.
    pose proof (Z.mod_pos_bound (shr_m mrs) 2). lia.
Qed.

Lemma shr_round : forall mrs e n, 0 <= shr_m mrs -> shr_r mrs = false ->
  shr_r (fst (shr mrs e n)) = true ->
  2 ^ Z.max 0 n <= 2 * (shr_m mrs mod 2 ^ Z.max 0 n).
Proof.
  intros mrs e n H Hf. unfold shr. destruct n as [|p|p]; cbn [fst snd];
    try congruence.
  rewrite iter_pos_iter. replace (Z.max 0 (Z.pos p)) with (Z.pos p) by lia.
  apply shr_iter_round. assumption.
Qed.

Lemma shr_record_of_loc_m : forall m l, shr_m (shr_record_of_loc m l) = m.
Proof. intros m [|[]]; reflexivity. Qed.

Lemma shr_record_of_loc_inexact : forall m l,
  inexact (shr_record_of_loc m l) = false <-> l = loc_Exact.
Proof. intros m [|[]]; unfold inexact; simpl; split; congruence. Qed.

Lemma loc_of_shr_record_exact : forall mrs,
  loc_of_shr_record mrs = loc_Exact <-> inexact mrs = false.
Proof. intros [m [] []]; unfold inexact; simpl; split; congruence. Qed.

Lemma round_nearest_even_cases : forall m l,
  round_nearest_even m l = m \/
  (round_nearest_even m l = m + 1 /\ l <> loc_Exact).
Proof.
  intros m [|[]]; simpl; auto.
  - destruct (Z.even m); [auto|right; split; [reflexivity|discriminate]].
  - right; split; [reflexivity|discriminate].
Qed.

Lemma round_nearest_even_up : forall mrs,
  round_nearest_even (shr_m mrs) (loc_of_shr_record mrs) <> shr_m mrs ->
  shr_r mrs = true.
Proof. intros [m [] []]; simpl; congruence. Qed.

Lemma fexp_fexp64 : forall e, fexp prec emax e = fexp64 e.
Proof. reflexivity. Qed.

(** One rounding step: the mantissa is shifted to the exponent of the
    format and moves up by at most one, and only from the half on. *)
Lemma binary_round_aux_rounds : forall sx mx ex lx, 0 <= mx ->
  let k1 := Z.max 0 (fexp64 (Zdigits2 mx + ex) - ex) in
  exists m1,
    (m1 = mx / 2 ^ k1 \/
     (m1 = mx / 2 ^ k1 + 1 /\ (lx <> loc_Exact \/ mx mod 2 ^ k1 <> 0))) /\
    (lx = loc_Exact -> m1 <> mx / 2 ^ k1 -> 2 ^ k1 <= 2 * (mx mod 2 ^ k1)) /\
    let e1 := ex + k1 in
    let k2 := Z.max 0 (fexp64 (Zdigits2 m1 + e1) - e1) in
    binary_round_aux prec emax sx mx ex lx = finish sx (m1 / 2 ^ k2) (e1 + k2).
Proof.
  intros sx mx ex lx Hmx k1.
  unfold binary_round_aux, shr_fexp. rewrite !fexp_fexp64.
  assert (H0 : 0 <= shr_m (shr_record_of_loc mx lx))
    by now rewrite shr_record_of_loc_m.
  destruct (shr_spec (shr_record_of_loc mx lx) ex
              (fexp64 (Zdigits2 mx + ex) - ex) H0) as (He & Hm & Hi).
  pose proof (shr_round (shr_record_of_loc mx lx) ex
                (fexp64 (Zdigits2 mx + ex) - ex) H0) as Hr.
  rewrite shr_record_of_loc_m in Hm, Hi, Hr.
  destruct (shr (shr_record_of_loc mx lx) ex (fexp64 (Zdigits2 mx + ex) - ex))
    as [mrs' e'].
  cbn [fst snd] in He, Hm, Hi, Hr. subst e'.
  change (Z.max 0 (fexp64 (Zdigits2 mx + ex) - ex)) with k1 in Hm, Hi, Hr |- *.
  assert (Hk0 : 0 <= k1) by apply Z.le_max_l.
  clearbody k1.
  assert (Hk1 : 0 < 2 ^ k1) by (apply Z.pow_pos_nonneg; lia).
  pose proof (round_nearest_even_cases (shr_m mrs') (loc_of_shr_record mrs'))
    as Hc.
  pose proof (round_nearest_even_up mrs') as Hu.
  rewrite loc_of_shr_record_exact in Hc.
  rewrite shr_record_of_loc_inexact in Hi.
  revert Hc Hu.
  generalize (round_nearest_even (shr_m mrs') (loc_of_shr_record mrs')).
  intros m1 Hc Hu. rewrite Hm in Hc, Hu.
  assert (Hq : 0 <= mx / 2 ^ k1) by (apply Z.div_pos; lia).
  exists m1. split; [|split].
  - destruct Hc as [E|[E Hl]]; [now left|right].
    split; [assumption|].
    destruct lx as [|c]; [right|left; discriminate].
    intro Hz. apply Hl. apply Hi. now split.
  - intros -> Hne. apply Hr; [reflexivity|]. apply Hu. assumption.
  - cbv zeta. rewrite ?fexp_fexp64.
    assert (H1 : 0 <= m1) by (destruct Hc as [E|[E _]]; lia).
    assert (H1' : 0 <= shr_m (shr_record_of_loc m1 loc_Exact)) by (simpl; lia).
    destruct (shr_spec (shr_record_of_loc m1 loc_Exact) (ex + k1)
                (fexp64 (Zdigits2 m1 + (ex + k1)) - (ex + k1)) H1')
      as (He2 & Hm2 & _).
    destruct (shr (shr_record_of_loc m1 loc_Exact) (ex + k1)
                (fexp64 (Zdigits2 m1 + (ex + k1)) - (ex + k1))) as [mrs'' e''].
    cbn [fst snd] in He2, Hm2. subst e''. cbv beta iota.
    rewrite Hm2. cbn [shr_record_of_loc shr_m].
    unfold finish.
    destruct (m1 / 2 ^ Z.max 0 (fexp64 (Zdigits2 m1 + (ex + k1)) - (ex + k1)));
      reflexivity.
Qed.

Lemma binary_round_aux_spec : forall sx mx ex lx, 0 <= mx ->
  let k1 := Z.max 0 (fexp64 (Zdigits2 mx + ex) - ex) in
  exists m1,
    (m1 = mx / 2 ^ k1 \/
     (m1 = mx / 2 ^ k1 + 1 /\ (lx <> loc_Exact \/ mx mod 2 ^ k1 <> 0))) /\
    let e1 := ex + k1 in
    let k2 := Z.max 0 (fexp64 (Zdigits2 m1 + e1) - e1) in
    binary_round_aux prec emax sx mx ex lx = finish sx (m1 / 2 ^ k2) (e1 + k2).
Proof.
  intros sx mx ex lx Hmx k1.
  destruct (binary_round_aux_rounds sx mx ex lx Hmx) as (m1 & H1 & _ & H2).
  exists m1. split; assumption.
Qed.

(** ** Number of binary digits *)

Lemma Zdigits2_nonneg : forall m, 0 <= Zdigits2 m.
Proof. intros [|p|p]; simpl; lia. Qed.

Lemma Zdigits2_log2_pos : forall m, 0 < m -> Zdigits2 m = Z.log2 m + 1.
Proof. intros [|p|p] H; try lia. apply Zdigits2_log2. Qed.

Lemma Zdigits2_pos : forall m, 0 < m -> 0 < Zdigits2 m.
Proof. intros [|p|p] H; simpl; lia. Qed.

Lemma Zdigits2_bounds : forall m, 0 < m ->
  2 ^ (Zdigits2 m - 1) <= m < 2 ^ Zdigits2 m.
Proof.
  intros m H. rewrite Zdigits2_log2_pos by assumption.
  replace (Z.log2 m + 1 - 1) with (Z.log2 m) by lia.
  apply Z.log2_spec. assumption.
Qed.

Lemma Zdigits2_le_of_lt : forall m d, 0 <= d -> 0 <= m < 2 ^ d ->
  Zdigits2 m <= d.
Proof.
  intros m d Hd [H0 H1]. destruct (Z.eq_dec m 0) as [->|Hn]; [simpl; lia|].
  rewrite Zdigits2_log2_pos by lia.
  apply Z.log2_lt_pow2 in H1; lia.
Qed.

Lemma Zdigits2_mono : forall a b, 0 <= a <= b -> Zdigits2 a <= Zdigits2 b.
Proof.
  intros a b [Ha Hab]. destruct (Z.eq_dec a 0) as [->|Hn].
  - apply Zdigits2_nonneg.
  - rewrite !Zdigits2_log2_pos by lia.
    apply Z.add_le_mono_r, Z.log2_le_mono. assumption.
Qed.

Lemma Zdigits2_succ : forall m, 0 <= m -> Zdigits2 (m + 1) <= Zdigits2 m + 1.
Proof.
  intros m H. destruct (Z.eq_dec m 0) as [->|Hn]; [simpl; lia|].
  apply Zdigits2_le_of_lt.
  - pose proof (Zdigits2_nonneg m). lia.
  - pose proof (Zdigits2_bounds m ltac:(lia)) as [_ Hb].
    rewrite Z.pow_add_r by (try apply Zdigits2_nonneg; lia).
    change (2 ^ 1) with 2. lia.
Qed.

Lemma Zdigits2_mul_pow2 : forall m k, 0 < m -> 0 <= k ->
  Zdigits2 (m * 2 ^ k) = Zdigits2 m + k.
Proof.
  intros m k Hm Hk.
  assert (0 < 2 ^ k) by (apply Z.pow_pos_nonneg; lia).
  rewrite !Zdigits2_log2_pos by nia.
  rewrite Z.log2_mul_pow2 by lia. lia.
Qed.

Lemma Zdigits2_div_pow2 : forall m k, 0 <= k -> 0 < m / 2 ^ k ->
  Zdigits2 (m / 2 ^ k) = Zdigits2 m - k.
Proof.
  intros m k Hk Hq.
  assert (H2 : 0 < 2 ^ k) by (apply Z.pow_pos_nonneg; lia).
  assert (Hm : 0 < m).
  { destruct (Z.lt_ge_cases 0 m); [assumption|].
    assert (m / 2 ^ k <= 0) by (apply Z.div_le_upper_bound; lia). lia. }
  rewrite !Zdigits2_log2_pos by assumption.
  rewrite <- Z.shiftr_div_pow2 in * by assumption.
  rewrite Z.log2_shiftr by assumption.
  assert (k <= Z.log2 m).
  { apply Z.log2_le_pow2; [assumption|].
    rewrite Z.shiftr_div_pow2 in Hq by assumption.
    destruct (Z.lt_ge_cases m (2 ^ k)); [|assumption].
    rewrite Z.div_small in Hq; lia. }
  lia.
Qed.

Lemma Zdigits2_opp : forall m, Zdigits2 (- m) = Zdigits2 m.
Proof. intros [|p|p]; reflexivity. Qed.

(** ** Magnitude bounds *)

Lemma fbounded_weaken : forall A B A' B' x,
  A <= A' -> B <= B' -> fbounded A B x -> fbounded A' B' x.
Proof. intros A B A' B' [s|s| |s m e] HA HB; simpl; auto. lia. Qed.

Lemma finish_bounded : forall A B sx m e,
  0 <= m -> B <= 971 ->
  (0 < m -> Zdigits2 m <= 53 /\ -1074 <= e /\ Zdigits2 m + e <= A /\ e <= B) ->
  fbounded A B (finish sx m e).
Proof.
  intros A B sx [|p|p] e H0 HB H; simpl; auto; try lia.
  destruct H as (H1 & H2 & H3 & H4); [lia|].
  replace (e <=? 971) with true by (symmetry; apply Z.leb_le; lia).
  simpl. auto.
Qed.

Lemma binary_round_aux_bounded : forall A sx mx ex lx,
  0 <= mx -> ex <= 971 -> Zdigits2 mx + ex <= A -> A <= 1023 ->
  fbounded (Z.max (A + 1) (-1073)) (Z.max ex (Z.max (A - 52) (-1074)))
           (binary_round_aux prec emax sx mx ex lx).
Proof.
  intros A sx mx ex lx Hmx Hex Hmag HA.
  destruct (binary_round_aux_spec sx mx ex lx Hmx) as (m1 & Hm1 & ->).
  set (mag := Zdigits2 mx + ex) in *.
  set (k1 := Z.max 0 (fexp64 mag - ex)) in *.
  assert (Hk1 : 0 <= k1) by apply Z.le_max_l.
  assert (H2k1 : 0 < 2 ^ k1) by (apply Z.pow_pos_nonneg; lia).
  assert (Hq : 0 <= mx / 2 ^ k1) by (apply Z.div_pos; lia).
  assert (H1 : 0 <= m1) by (destruct Hm1 as [E|[E _]]; lia).
  set (e1 := ex + k1) in *.
  assert (HD1 : 0 < m1 -> Zdigits2 m1 + e1 <= Z.max (A + 1) (-1073)).
  { intros Hpos.
    destruct (Z.eq_dec (mx / 2 ^ k1) 0) as [Hq0|Hq0].
    - assert (m1 = 1) by (destruct Hm1 as [E|[E _]]; lia). subst m1.
      change (Zdigits2 1) with 1.
      destruct (Z.eq_dec mx 0) as [->|Hmx0].
      + unfold e1, k1, mag, fexp64 in *. simpl Zdigits2 in *. lia.
      + assert (Hlt : mx < 2 ^ k1).
        { destruct (Z.lt_ge_cases mx (2 ^ k1)); [assumption|].
          assert (1 <= mx / 2 ^ k1) by (apply Z.div_le_lower_bound; lia). lia. }
        assert (Zdigits2 mx <= k1).
        { apply Zdigits2_le_of_lt; lia. }
        pose proof (Zdigits2_pos mx ltac:(lia)).
        unfold e1, k1, mag, fexp64 in *. lia.
    - assert (Hd : Zdigits2 (mx / 2 ^ k1) = Zdigits2 mx - k1)
        by (apply Zdigits2_div_pow2; lia).
      assert (Zdigits2 m1 <= Zdigits2 (mx / 2 ^ k1) + 1).
      { destruct Hm1 as [E|[E _]]; subst m1; [lia|].
        apply Zdigits2_succ. assumption. }
      unfold e1, mag in *. lia. }
  set (k2 := Z.max 0 (fexp64 (Zdigits2 m1 + e1) - e1)) in *.
  assert (Hk2 : 0 <= k2) by apply Z.le_max_l.
  assert (H2k2 : 0 < 2 ^ k2) by (apply Z.pow_pos_nonneg; lia).
  apply finish_bounded.
  - apply Z.div_pos; lia.
  - lia.
  - intros Hpos.
    assert (Hm1pos : 0 < m1).
    { destruct (Z.lt_ge_cases 0 m1); [assumption|].
      replace m1 with 0 in Hpos by lia. rewrite Z.div_0_l in Hpos; lia. }
    specialize (HD1 Hm1pos).
    rewrite Zdigits2_div_pow2 by assumption.
    unfold k2, e1, k1, mag, fexp64 in *. lia.
Qed.

Lemma binary_round_eq : forall sx mx ex,
  let ez := Z.min ex (fexp64 (Zdigits2 (Zpos mx) + ex)) in
  binary_round prec emax sx mx ex =
  binary_round_aux prec emax sx (Zpos mx * 2 ^ (ex - ez)) ez loc_Exact.
Proof.
  intros sx mx ex ez. unfold binary_round. rewrite fexp_fexp64.
  change (Zpos (digits2_pos mx)) with (Zdigits2 (Zpos mx)).
  destruct (shl_align_spec mx ex (fexp64 (Zdigits2 (Zpos mx) + ex))) as [H1 H2].
  destruct (shl_align mx ex (fexp64 (Zdigits2 (Zpos mx) + ex))) as [mz e'].
  cbn [fst snd] in H1, H2. subst e'. rewrite H2. reflexivity.
Qed.

Lemma binary_round_bounded : forall A sx mx ex,
  Zdigits2 (Zpos mx) + ex <= A -> A <= 1023 ->
  fbounded (Z.max (A + 1) (-1073)) (Z.max (A - 52) (-1074))
           (binary_round prec emax sx mx ex).
Proof.
  intros A sx mx ex Hmag HA. rewrite binary_round_eq.
  set (ez := Z.min ex (fexp64 (Zdigits2 (Zpos mx) + ex))).
  assert (Hez : ez <= ex) by apply Z.le_min_l.
  assert (H2 : 0 < 2 ^ (ex - ez)) by (apply Z.pow_pos_nonneg; lia).
  eapply fbounded_weaken;
    [| |apply (binary_round_aux_bounded A); try lia].
  - lia.
  - unfold ez, fexp64. lia.
  - unfold ez, fexp64. lia.
  - rewrite Zdigits2_mul_pow2 by lia. lia.
Qed.

Lemma binary_normalize_bounded : forall A m e szero,
  Zdigits2 m + e <= A -> A <= 1023 ->
  fbounded (Z.max (A + 1) (-1073)) (Z.max (A - 52) (-1074))
           (binary_normalize prec emax m e szero).
Proof.
  intros A [|p|p] e szero Hmag HA; simpl; auto;
    apply binary_round_bounded; assumption.
Qed.

(** Rounding a mantissa of at most 53 bits is exact. *)
Lemma binary_round_small : forall sx mx ex,
  Zdigits2 (Zpos mx) <= 53 -> -1074 <= ex -> Zdigits2 (Zpos mx) + ex <= 1024 ->
  exists mz,
    binary_round prec emax sx mx ex =
      S754_finite sx mz (fexp64 (Zdigits2 (Zpos mx) + ex)) /\
    Zpos mz = Zpos mx * 2 ^ (ex - fexp64 (Zdigits2 (Zpos mx) + ex)) /\
    fexp64 (Zdigits2 (Zpos mx) + ex) <= ex.
Proof.
  intros sx mx ex Hd Hex Hmag. rewrite binary_round_eq.
  set (mag := Zdigits2 (Zpos mx) + ex) in *.
  assert (He0 : fexp64 mag <= ex) by (unfold fexp64, mag; lia).
  replace (Z.min ex (fexp64 mag)) with (fexp64 mag) by lia.
  set (e0 := fexp64 mag) in *.
  assert (H2 : 0 < 2 ^ (ex - e0)) by (apply Z.pow_pos_nonneg; lia).
  set (mz := Zpos mx * 2 ^ (ex - e0)).
  assert (Hmz : 0 < mz) by (unfold mz; nia).
  assert (Hdz : Zdigits2 mz + e0 = mag).
  { unfold mz. rewrite Zdigits2_mul_pow2 by lia. unfold mag. lia. }
  destruct (binary_round_aux_spec sx mz e0 loc_Exact ltac:(lia))
    as (m1 & Hm1 & ->).
  rewrite Hdz in *. fold e0 in Hm1 |- *.
  replace (Z.max 0 (e0 - e0)) with 0 in * by lia.
  rewrite Z.pow_0_r, Z.div_1_r, Z.mod_1_r in Hm1.
  assert (m1 = mz) by (destruct Hm1 as [E|[E [E'|E']]]; congruence).
  subst m1. rewrite Z.add_0_r, Hdz. fold e0.
  replace (Z.max 0 (e0 - e0)) with 0 by lia.
  rewrite Z.pow_0_r, Z.div_1_r, Z.add_0_r.
  destruct mz as [|pz|pz] eqn:Ez; try lia.
  exists pz. split; [|split; [reflexivity|assumption]].
  unfold finish.
  replace (e0 <=? 971) with true; [reflexivity|].
  symmetry. apply Z.leb_le. unfold e0, fexp64. lia.
Qed.

(** Rounding a value that does not exceed a representable one stays finite. *)
Lemma binary_round_below : forall sx D e mx ex,
  Zdigits2 (Zpos mx) <= 53 -> ex <= 971 -> e <= ex ->
  Zpos D <= Zpos mx * 2 ^ (ex - e) ->
  fbounded 1024 971 (binary_round prec emax sx D e).
Proof.
  intros sx D e mx ex Hd Hex He HD.
  assert (H2 : 0 < 2 ^ (ex - e)) by (apply Z.pow_pos_nonneg; lia).
  assert (Hmag : Zdigits2 (Zpos D) + e <= Zdigits2 (Zpos mx) + ex).
  { pose proof (Zdigits2_mono (Zpos D) (Zpos mx * 2 ^ (ex - e)) ltac:(lia)) as H.
    rewrite Zdigits2_mul_pow2 in H by lia. lia. }
  destruct (Z.le_gt_cases (Zdigits2 (Zpos D) + e) 1023) as [Hs|Hb].
  - eapply fbounded_weaken;
      [| |apply (binary_round_bounded (Zdigits2 (Zpos D) + e)); lia]; lia.
  - assert (Hex' : ex = 971) by lia.
    assert (HmagD : Zdigits2 (Zpos D) + e = 1024) by lia.
    subst ex. rewrite binary_round_eq. rewrite HmagD.
    change (fexp64 1024) with 971.
    replace (Z.min e 971) with e by lia.
    rewrite Z.sub_diag, Z.pow_0_r, Z.mul_1_r.
    destruct (binary_round_aux_spec sx (Zpos D) e loc_Exact ltac:(lia))
      as (m1 & Hm1 & ->).
    rewrite HmagD in *. change (fexp64 1024) with 971 in *.
    replace (Z.max 0 (971 - e)) with (971 - e) in * by lia.
    set (k1 := 971 - e) in *.
    assert (Hq : 0 <= Zpos D / 2 ^ k1) by (apply Z.div_pos; lia).
    assert (Hm1le : 0 <= m1 <= Zpos mx).
    { assert (Zpos D / 2 ^ k1 <= Zpos mx)
        by (apply Z.div_le_upper_bound; lia).
      destruct Hm1 as [E|[E [E'|E']]]; [lia|congruence|].
      assert (Zpos D <> Zpos mx * 2 ^ k1).
      { intros Heq. apply E'. rewrite Heq. apply Z.mod_mul. lia. }
      assert (Zpos D / 2 ^ k1 < Zpos mx)
        by (apply Z.div_lt_upper_bound; lia).
      lia. }
    assert (Hd1 : Zdigits2 m1 <= 53).
    { pose proof (Zdigits2_mono m1 (Zpos mx) Hm1le). lia. }
    replace (e + k1) with 971 by (unfold k1; lia).
    replace (Z.max 0 (fexp64 (Zdigits2 m1 + 971) - 971)) with 0
      by (unfold fexp64; lia).
    rewrite Z.pow_0_r, Z.div_1_r, Z.add_0_r.
    apply finish_bounded; lia.
Qed.

(** ** Bounds for the operations *)

Lemma Zdigits2_abs_lt : forall z d, 0 <= d -> Z.abs z < 2 ^ d ->
  Zdigits2 z <= d.
Proof.
  intros z d Hd H. destruct (Z.le_gt_cases 0 z).
  - apply Zdigits2_le_of_lt; lia.
  - rewrite <- Zdigits2_opp. apply Zdigits2_le_of_lt; lia.
Qed.

Lemma aligned_lt_pow : forall A mx ex ez,
  ez <= ex -> Zdigits2 (Zpos mx) + ex <= A ->
  0 < Zpos mx * 2 ^ (ex - ez) < 2 ^ (A - ez) /\ 1 <= A - ez.
Proof.
  intros A mx ex ez Hez Hmag.
  assert (H2 : 0 < 2 ^ (ex - ez)) by (apply Z.pow_pos_nonneg; lia).
  pose proof (Zdigits2_pos (Zpos mx) ltac:(lia)) as Hp.
  pose proof (Zdigits2_bounds (Zpos mx) ltac:(lia)) as [_ Hb].
  split; [split; [nia|]|lia].
  apply Z.lt_le_trans with (2 ^ Zdigits2 (Zpos mx) * 2 ^ (ex - ez)); [nia|].
  rewrite <- Z.pow_add_r by lia.
  apply Z.pow_le_mono_r; lia.
Qed.

Lemma cond_Zopp_abs : forall s z, Z.abs (cond_Zopp s z) = Z.abs z.
Proof. intros [] z; simpl; lia. Qed.

Lemma fsum_bounded : forall A sx mx ex sy my ey (op : Z -> Z -> Z),
  (forall a b, Z.abs (op a b) <= Z.abs a + Z.abs b) ->
  Zdigits2 (Zpos mx) + ex <= A -> Zdigits2 (Zpos my) + ey <= A ->
  A <= 1022 ->
  fbounded (Z.max (A + 2) (-1073)) (Z.max (A - 51) (-1074))
    (binary_normalize prec emax
       (op (cond_Zopp sx (Zpos (fst (shl_align mx ex (Z.min ex ey)))))
           (cond_Zopp sy (Zpos (fst (shl_align my ey (Z.min ex ey))))))
       (Z.min ex ey) false).
Proof.
  intros A sx mx ex sy my ey op Hop Hx Hy HA.
  set (ez := Z.min ex ey).
  destruct (shl_align_spec mx ex ez) as [_ Hmx].
  destruct (shl_align_spec my ey ez) as [_ Hmy].
  replace (Z.min ex ez) with ez in Hmx by (unfold ez; lia).
  replace (Z.min ey ez) with ez in Hmy by (unfold ez; lia).
  rewrite Hmx, Hmy.
  destruct (aligned_lt_pow A mx ex ez ltac:(unfold ez; lia) Hx) as [Hbx H1].
  destruct (aligned_lt_pow A my ey ez ltac:(unfold ez; lia) Hy) as [Hby _].
  eapply fbounded_weaken;
    [| |apply (binary_normalize_bounded (A + 1)); try lia]; try lia.
  assert (Zdigits2 (op (cond_Zopp sx (Zpos mx * 2 ^ (ex - ez)))
                       (cond_Zopp sy (Zpos my * 2 ^ (ey - ez))))
          <= A - ez + 1); [|lia].
  apply Zdigits2_abs_lt; [lia|].
  eapply Z.le_lt_trans; [apply Hop|].
  rewrite !cond_Zopp_abs, Z.pow_add_r by lia. change (2 ^ 1) with 2. lia.
Qed.

Lemma fadd_bounded : forall A B x y,
  fbounded A B x -> fbounded A B y -> A <= 1022 ->
  fbounded (Z.max (A + 2) (-1073)) (Z.max B (Z.max (A - 51) (-1074)))
           (fadd x y).
Proof.
  intros A B [sx|sx| |sx mx ex] [sy|sy| |sy my ey] Hx Hy HA;
    try contradiction; unfold fadd, SFadd.
  - destruct sx, sy; exact I.
  - eapply fbounded_weaken; [| |exact Hy]; lia.
  - eapply fbounded_weaken; [| |exact Hx]; lia.
  - destruct Hx as (_ & _ & Hx & _), Hy as (_ & _ & Hy & _).
    eapply fbounded_weaken; [| |apply (fsum_bounded A); try assumption]; lia.
Qed.

Lemma fsub_bounded : forall A B x y,
  fbounded A B x -> fbounded A B y -> A <= 1022 ->
  fbounded (Z.max (A + 2) (-1073)) (Z.max B (Z.max (A - 51) (-1074)))
           (fsub x y).
Proof.
  intros A B [sx|sx| |sx mx ex] [sy|sy| |sy my ey] Hx Hy HA;
    try contradiction; unfold fsub, SFsub.
  - destruct sx, sy; exact I.
  - eapply fbounded_weaken; [| |exact Hy]; lia.
  - eapply fbounded_weaken; [| |exact Hx]; lia.
  - destruct Hx as (_ & _ & Hx & _), Hy as (_ & _ & Hy & _).
    eapply fbounded_weaken; [| |apply (fsum_bounded A); try assumption]; lia.
Qed.

Lemma fmul_bounded : forall A1 B1 A2 B2 x y,
  fbounded A1 B1 x -> fbounded A2 B2 y ->
  A1 + A2 <= 1023 -> B1 + B2 <= 971 ->
  fbounded (Z.max (A1 + A2 + 1) (-1073))
           (Z.max (B1 + B2) (Z.max (A1 + A2 - 52) (-1074)))
           (fmul x y).
Proof.
  intros A1 B1 A2 B2 [sx|sx| |sx mx ex] [sy|sy| |sy my ey] Hx Hy HA HB;
    try contradiction; unfold fmul, SFmul; try exact I.
  destruct Hx as (_ & _ & Hx & Hex), Hy as (_ & _ & Hy & Hey).
  eapply fbounded_weaken;
    [| |apply (binary_round_aux_bounded (A1 + A2)); try lia]; try lia.
  assert (Zdigits2 (Zpos (mx * my)) <= Zdigits2 (Zpos mx) + Zdigits2 (Zpos my));
    [|lia].
  pose proof (Zdigits2_pos (Zpos mx) ltac:(lia)).
  pose proof (Zdigits2_pos (Zpos my) ltac:(lia)).
  pose proof (Zdigits2_bounds (Zpos mx) ltac:(lia)) as [_ Hbx].
  pose proof (Zdigits2_bounds (Zpos my) ltac:(lia)) as [_ Hby].
  apply Zdigits2_le_of_lt; [lia|].
  rewrite Pos2Z.inj_mul, Z.pow_add_r by lia. nia.
Qed.

Lemma SFdiv_core_binary_eq : forall m1 e1 m2 e2,
  let e' := Z.min (fexp64 (Zdigits2 (Zpos m1) + e1 - (Zdigits2 (Zpos m2) + e2)))
                  (e1 - e2) in
  SFdiv_core_binary prec emax (Zpos m1) e1 (Zpos m2) e2 =
  (Zpos m1 * 2 ^ (e1 - e2 - e') / Zpos m2, e',
   new_location (Zpos m2) ((Zpos m1 * 2 ^ (e1 - e2 - e')) mod Zpos m2)).
Proof.
  intros m1 e1 m2 e2 e'. unfold SFdiv_core_binary.
  rewrite fexp_fexp64. fold e'.
  assert (Hs : 0 <= e1 - e2 - e') by (unfold e'; lia).
  assert (Hm' : match e1 - e2 - e' with
                | Z0 => Zpos m1
                | Zpos _ => Z.shiftl (Zpos m1) (e1 - e2 - e')
                | Zneg _ => 0
                end = Zpos m1 * 2 ^ (e1 - e2 - e')).
  { destruct (e1 - e2 - e') eqn:E; try lia.
    rewrite Z.shiftl_mul_pow2 by lia. reflexivity. }
  rewrite Hm'. unfold Z.div, Z.modulo.
  destruct (Z.div_eucl (Zpos m1 * 2 ^ (e1 - e2 - e')) (Zpos m2)) as [q r].
  reflexivity.
Qed.

Lemma fdiv_bounded : forall A B L x sy my ey,
  fbounded A B x -> L <= Zdigits2 (Zpos my) + ey -> A - L <= 1022 ->
  fbounded (Z.max (A - L + 2) (-1073)) (Z.max (A - L - 51) (-1074))
           (fdiv x (S754_finite sy my ey)).
Proof.
  intros A B L [sx|sx| |sx mx ex] sy my ey Hx HL HA;
    try contradiction; unfold fdiv, SFdiv; try exact I.
  destruct Hx as (_ & _ & Hx & _).
  rewrite SFdiv_core_binary_eq.
  set (d1 := Zdigits2 (Zpos mx)) in *. set (d2 := Zdigits2 (Zpos my)) in *.
  set (e' := Z.min (fexp64 (d1 + ex - (d2 + ey))) (ex - ey)).
  assert (Hs : 0 <= ex - ey - e') by (unfold e'; lia).
  assert (H2s : 0 < 2 ^ (ex - ey - e')) by (apply Z.pow_pos_nonneg; lia).
  pose proof (Zdigits2_pos (Zpos mx) ltac:(lia)) as Hd1. fold d1 in Hd1.
  pose proof (Zdigits2_pos (Zpos my) ltac:(lia)) as Hd2. fold d2 in Hd2.
  pose proof (Zdigits2_bounds (Zpos mx) ltac:(lia)) as [_ Hb1]. fold d1 in Hb1.
  pose proof (Zdigits2_bounds (Zpos my) ltac:(lia)) as [Hb2 _]. fold d2 in Hb2.
  set (q := Zpos mx * 2 ^ (ex - ey - e') / Zpos my).
  assert (Hq0 : 0 <= q) by (apply Z.div_pos; nia).
  assert (Hdq : Zdigits2 q <= Z.max 0 (d1 + (ex - ey - e') - d2 + 1)).
  { destruct (Z.eq_dec q 0) as [->|Hq]; [simpl; lia|].
    assert (Hle : Zpos my <= Zpos mx * 2 ^ (ex - ey - e')).
    { destruct (Z.le_gt_cases (Zpos my) (Zpos mx * 2 ^ (ex - ey - e')));
        [assumption|].
      unfold q in Hq. rewrite Z.div_small in Hq; nia. }
    assert (Hlt : 2 ^ (d2 - 1) < 2 ^ (d1 + (ex - ey - e'))).
    { rewrite Z.pow_add_r by lia. nia. }
    apply Z.pow_lt_mono_r_iff in Hlt; [|lia|lia].
    replace (Z.max 0 (d1 + (ex - ey - e') - d2 + 1))
      with (d1 + (ex - ey - e') - d2 + 1) by lia.
    apply Zdigits2_le_of_lt; [lia|]. split; [assumption|].
    apply Z.div_lt_upper_bound; [lia|].
    apply Z.lt_le_trans with (2 ^ d1 * 2 ^ (ex - ey - e')); [nia|].
    apply Z.le_trans with (2 ^ (d2 - 1) * 2 ^ (d1 + (ex - ey - e') - d2 + 1));
      [|apply Z.mul_le_mono_nonneg_r; [apply Z.pow_nonneg; lia|assumption]].
    rewrite <- !Z.pow_add_r by lia.
    apply Z.pow_le_mono_r; lia. }
  eapply fbounded_weaken;
    [| |apply (binary_round_aux_bounded (Z.max (A - L + 1) (-1074))); try lia].
  - lia.
  - unfold e', fexp64. lia.
  - unfold e', fexp64. lia.
  - unfold e', fexp64 in *. lia.
Qed.

Lemma ffloor_bounded : forall A B x,
  fbounded A B x -> fbounded (Z.max A 54) (Z.max B 1) (ffloor x).
Proof.
  intros A B [s|s| |s m e] Hx; try contradiction; simpl; auto.
  destruct (0 <=? e) eqn:E.
  - eapply fbounded_weaken; [| |exact Hx]; lia.
  - apply Z.leb_gt in E. destruct Hx as (Hd & _).
    eapply fbounded_weaken;
      [| |apply (binary_normalize_bounded 53); try lia]; try lia.
    rewrite Z.add_0_r.
    eapply Z.le_trans; [|exact Hd].
    rewrite Z.shiftr_div_pow2 by lia.
    assert (H2 : 0 < 2 ^ (- e)) by (apply Z.pow_pos_nonneg; lia).
    pose proof (Zdigits2_bounds (Zpos m) ltac:(lia)) as [_ Hb].
    pose proof (Zdigits2_pos (Zpos m) ltac:(lia)).
    apply Zdigits2_abs_lt; [lia|].
    destruct s; simpl cond_Zopp.
    + assert (- Zpos m <= Z.neg m / 2 ^ (- e)).
      { apply Z.div_le_lower_bound; [lia|]. nia. }
      assert (Z.neg m / 2 ^ (- e) <= 0).
      { apply Z.div_le_upper_bound; lia. }
      lia.
    + assert (0 <= Zpos m / 2 ^ (- e)) by (apply Z.div_pos; lia).
      assert (Zpos m / 2 ^ (- e) <= Zpos m).
      { apply Z.div_le_upper_bound; [lia|]. nia. }
      lia.
Qed.

(** ** Signs *)

Lemma finish_signed : forall sx m e, fsigned sx (finish sx m e).
Proof.
  intros sx [|p|p] e; simpl; auto. destruct (e <=? 971); simpl; auto.
Qed.

Lemma binary_round_aux_signed : forall sx mx ex lx, 0 <= mx ->
  fsigned sx (binary_round_aux prec emax sx mx ex lx).
Proof.
  intros sx mx ex lx H.
  destruct (binary_round_aux_spec sx mx ex lx H) as (m1 & _ & ->).
  apply finish_signed.
Qed.

Lemma binary_round_signed : forall sx mx ex,
  fsigned sx (binary_round prec emax sx mx ex).
Proof.
  intros. rewrite binary_round_eq. apply binary_round_aux_signed.
  assert (0 < 2 ^ (ex - Z.min ex (fexp64 (Zdigits2 (Zpos mx) + ex))))
    by (apply Z.pow_pos_nonneg; lia).
  nia.
Qed.

Lemma binary_normalize_nonneg : forall m e szero, 0 <= m ->
  fsigned false (binary_normalize prec emax m e szero).
Proof.
  intros [|p|p] e szero H; simpl; auto; [apply binary_round_signed|lia].
Qed.

Ltac by_sign_cases :=
  simpl in *; subst; simpl; auto;
  repeat match goal with s : bool |- _ => destruct s end;
  simpl; auto; discriminate.

Lemma fmul_signed : forall x y,
  fsigned (xorb (sign_bit x) (sign_bit y)) (fmul x y).
Proof.
  intros [sx|sx| |sx mx ex] [sy|sy| |sy my ey]; try (simpl; auto; fail).
  apply binary_round_aux_signed. lia.
Qed.

Lemma fdiv_signed : forall x y,
  fsigned (xorb (sign_bit x) (sign_bit y)) (fdiv x y).
Proof.
  intros [sx|sx| |sx mx ex] [sy|sy| |sy my ey]; try (simpl; auto; fail).
  unfold fdiv, SFdiv.
  rewrite SFdiv_core_binary_eq.
  apply binary_round_aux_signed.
  apply Z.div_pos; [|lia].
  assert (0 <= 2 ^ (ex - ey - Z.min (fexp64 (Zdigits2 (Z.pos mx) + ex -
                     (Zdigits2 (Z.pos my) + ey))) (ex - ey)))
    by (apply Z.pow_nonneg; lia).
  nia.
Qed.

Lemma fdiv_nonneg : forall x my ey,
  fsigned false x -> fsigned false (fdiv x (S754_finite false my ey)).
Proof.
  intros x my ey Hx.
  pose proof (fdiv_signed x (S754_finite false my ey)) as H.
  destruct x as [sx|sx| |sx mx ex]; simpl in Hx; try exact I;
    subst; exact H.
Qed.

Lemma fmul_nonneg : forall x my ey,
  fsigned false x -> fsigned false (fmul x (S754_finite false my ey)).
Proof.
  intros x my ey Hx.
  pose proof (fmul_signed x (S754_finite false my ey)) as H.
  destruct x as [sx|sx| |sx mx ex]; simpl in Hx; try exact I;
    subst; exact H.
Qed.

Lemma fadd_nonneg : forall x y,
  fsigned false x -> fsigned false y -> fsigned false (fadd x y).
Proof.
  intros [sx|sx| |sx mx ex] [sy|sy| |sy my ey] Hx Hy;
    try (by_sign_cases; fail).
  simpl in Hx, Hy. subst sx sy. unfold fadd, SFadd.
  apply binary_normalize_nonneg. simpl. lia.
Qed.

Lemma fmod_nonneg : forall x y, fsigned false x -> fsigned false (fmod x y).
Proof.
  intros [sx|sx| |sx mx ex] [sy|sy| |sy my ey] Hx;
    try (by_sign_cases; fail).
  simpl in Hx. subst sx. unfold fmod.
  apply binary_normalize_nonneg. simpl cond_Zopp.
  apply Z.rem_nonneg; lia.
Qed.

Lemma ffloor_nonneg : forall x, fsigned false x -> fsigned false (ffloor x).
Proof.
  intros [s|s| |s m e] Hx; simpl in *; auto. subst s.
  destruct (0 <=? e) eqn:E; [reflexivity|].
  apply binary_normalize_nonneg. simpl cond_Zopp.
  apply Z.shiftr_nonneg. lia.
Qed.

Lemma int_of_float_nonneg : forall x z,
  fsigned false x -> int_of_float x = Ok z -> 0 <= z.
Proof.
  intros [s|s| |s m e] z Hx H; simpl in *; try discriminate.
  - inversion H. lia.
  - subst s. inversion H. simpl. apply Z.shiftl_nonneg. lia.
Qed.

Lemma fltb_nonneg_zero : forall x, fsigned false x -> fltb x zero = false.
Proof.
  intros [s|s| |s m e] Hx; simpl in *; try reflexivity; subst s; reflexivity.
Qed.

(** ** The remainder is exact *)

Lemma binary_normalize_pos : forall sx r e,
  0 < r ->
  binary_normalize prec emax (cond_Zopp sx r) e sx =
  binary_round prec emax sx (Z.to_pos r) e.
Proof.
  intros sx [|p|p] e H; try lia. destruct sx; reflexivity.
Qed.

Lemma fmod_finite : forall sx mx ex sy my ey,
  Zdigits2 (Zpos mx) <= 53 -> Zdigits2 (Zpos my) <= 53 ->
  -1074 <= ex <= 971 -> -1074 <= ey <= 971 ->
  let ez := Z.min ex ey in
  let R := (Zpos mx * 2 ^ (ex - ez)) mod (Zpos my * 2 ^ (ey - ez)) in
  (R = 0 /\
   fmod (S754_finite sx mx ex) (S754_finite sy my ey) = S754_zero sx) \/
  (0 < R /\
   exists mz,
     fmod (S754_finite sx mx ex) (S754_finite sy my ey) =
       S754_finite sx mz (fexp64 (Zdigits2 R + ez)) /\
     Zpos mz = R * 2 ^ (ez - fexp64 (Zdigits2 R + ez)) /\
     fexp64 (Zdigits2 R + ez) <= ez /\
     Zdigits2 R <= 53 /\
     Zdigits2 R + ez <= Zdigits2 (Zpos my) + ey).
Proof.
  intros sx mx ex sy my ey Hdx Hdy Hex Hey ez R.
  unfold fmod. fold ez.
  destruct (shl_align_spec mx ex ez) as [_ Hmx].
  destruct (shl_align_spec my ey ez) as [_ Hmy].
  replace (Z.min ex ez) with ez in Hmx by (unfold ez; lia).
  replace (Z.min ey ez) with ez in Hmy by (unfold ez; lia).
  rewrite Hmx, Hmy.
  assert (H2x : 0 < 2 ^ (ex - ez)) by (apply Z.pow_pos_nonneg; unfold ez; lia).
  assert (H2y : 0 < 2 ^ (ey - ez)) by (apply Z.pow_pos_nonneg; unfold ez; lia).
  set (X := Zpos mx * 2 ^ (ex - ez)) in *.
  set (Y := Zpos my * 2 ^ (ey - ez)) in *.
  assert (HX : 0 < X) by (unfold X; nia).
  assert (HY : 0 < Y) by (unfold Y; nia).
  rewrite Z.rem_mod_nonneg by lia. fold R.
  pose proof (Z.mod_pos_bound X Y HY) as HR.
  fold R in HR.
  destruct (Z.eq_dec R 0) as [E|E].
  - left. split; [assumption|]. rewrite E. destruct sx; reflexivity.
  - right. split; [lia|].
    rewrite binary_normalize_pos by lia.
    assert (HRX : R <= X) by (apply Z.mod_le; lia).
    assert (HdR : Zdigits2 R <= 53).
    { destruct (Z.le_ge_cases ex ey).
      - assert (E0 : ex - ez = 0) by (unfold ez; lia).
        apply Z.le_trans with (Zdigits2 X); [apply Zdigits2_mono; lia|].
        unfold X. rewrite E0, Z.pow_0_r, Z.mul_1_r. assumption.
      - assert (E0 : ey - ez = 0) by (unfold ez; lia).
        apply Z.le_trans with (Zdigits2 Y); [apply Zdigits2_mono; lia|].
        unfold Y. rewrite E0, Z.pow_0_r, Z.mul_1_r. assumption. }
    assert (HmR : Zdigits2 R + ez <= Zdigits2 (Zpos my) + ey).
    { pose proof (Zdigits2_mono R Y ltac:(lia)) as H.
      unfold Y in H. rewrite Zdigits2_mul_pow2 in H by (unfold ez; lia). lia. }
    destruct (binary_round_small sx (Z.to_pos R) ez) as (mz & H1 & H2 & H3);
      rewrite ?Z2Pos.id by lia; try (unfold ez; lia).
    rewrite Z2Pos.id in * by lia.
    exists mz. auto.
Qed.

Lemma fmod_bounded : forall A B x sy my ey,
  fbounded A B x -> B <= 971 ->
  Zdigits2 (Zpos my) <= 53 -> -1074 <= ey <= 971 ->
  fbounded (Zdigits2 (Zpos my) + ey) ey (fmod x (S754_finite sy my ey)).
Proof.
  intros A B [sx|sx| |sx mx ex] sy my ey Hx HB Hdy Hey; try contradiction.
  - exact I.
  - destruct Hx as (Hdx & Hex & _ & Hex').
    destruct (fmod_finite sx mx ex sy my ey Hdx Hdy ltac:(lia) Hey)
      as [[_ ->]|(HR & mz & -> & Hmz & He0 & HdR & HmR)]; [exact I|].
    set (ez := Z.min ex ey) in *.
    set (R := (Zpos mx * 2 ^ (ex - ez)) mod (Zpos my * 2 ^ (ey - ez))) in *.
    assert (H2 : 0 < 2 ^ (ez - fexp64 (Zdigits2 R + ez)))
      by (apply Z.pow_pos_nonneg; lia).
    assert (Hd : Zdigits2 (Zpos mz) + fexp64 (Zdigits2 R + ez) = Zdigits2 R + ez).
    { rewrite Hmz, Zdigits2_mul_pow2 by lia. lia. }
    unfold fbounded, fexp64 in *. unfold ez in *. lia.
Qed.

(** Subtracting the remainder from the dividend never overflows. *)
Lemma fsub_fmod_bounded : forall x sy my ey,
  fbounded 1024 971 x ->
  Zdigits2 (Zpos my) <= 53 -> -1074 <= ey <= 971 ->
  fbounded 1024 971 (fsub x (fmod x (S754_finite sy my ey))) /\
  (fsigned false x ->
   fsigned false (fsub x (fmod x (S754_finite sy my ey)))).
Proof.
  intros [sx|sx| |sx mx ex] sy my ey Hx Hdy Hey; try contradiction.
  - simpl. destruct sx; split; intros; exact I.
  - pose proof Hx as (Hdx & Hex & _ & Hex').
    destruct (fmod_finite sx mx ex sy my ey Hdx Hdy ltac:(lia) Hey)
      as [[_ ->]|(HR & mz & -> & Hmz & He0 & HdR & HmR)];
      [split; [exact Hx|auto]|].
    set (ez := Z.min ex ey) in *.
    set (R := (Zpos mx * 2 ^ (ex - ez)) mod (Zpos my * 2 ^ (ey - ez))) in *.
    set (e0 := fexp64 (Zdigits2 R + ez)) in *.
    unfold fsub, SFsub.
    replace (Z.min ex e0) with e0 by (unfold ez in *; lia).
    destruct (shl_align_spec mx ex e0) as [_ Hmx].
    destruct (shl_align_spec mz e0 e0) as [_ Hmz'].
    replace (Z.min ex e0) with e0 in Hmx by (unfold ez in *; lia).
    rewrite Z.min_id, Z.sub_diag, Z.pow_0_r, Z.mul_1_r in Hmz'.
    rewrite Hmx, Hmz'.
    assert (H2a : 0 < 2 ^ (ex - ez)) by (apply Z.pow_pos_nonneg; unfold ez; lia).
    assert (H2b : 0 < 2 ^ (ey - ez)) by (apply Z.pow_pos_nonneg; unfold ez; lia).
    assert (H2c : 0 < 2 ^ (ez - e0)) by (apply Z.pow_pos_nonneg; lia).
    assert (HRX : R <= Zpos mx * 2 ^ (ex - ez)) by (apply Z.mod_le; nia).
    assert (Hsplit : Zpos mx * 2 ^ (ex - e0) =
                     Zpos mx * 2 ^ (ex - ez) * 2 ^ (ez - e0)).
    { rewrite <- Z.mul_assoc, <- Z.pow_add_r by (unfold ez in *; lia).
      f_equal. f_equal. lia. }
    set (D := Zpos mx * 2 ^ (ex - e0) - Zpos mz).
    assert (HD : 0 <= D <= Zpos mx * 2 ^ (ex - e0)) by (unfold D; nia).
    replace (cond_Zopp sx (Zpos mx * 2 ^ (ex - e0)) - cond_Zopp sx (Zpos mz))
      with (cond_Zopp sx D) by (unfold D; destruct sx; simpl; lia).
    destruct (Z.eq_dec D 0) as [->|HD0].
    + destruct sx; split; intros; exact I.
    + assert (Hn : binary_normalize prec emax (cond_Zopp sx D) e0 false =
                   binary_round prec emax sx (Z.to_pos D) e0).
      { destruct D as [|p|p]; try lia. destruct sx; reflexivity. }
      rewrite Hn.
      split; [|intros Hs; simpl in Hs; subst sx; apply binary_round_signed].
      apply (binary_round_below sx (Z.to_pos D) e0 mx ex);
        rewrite ?Z2Pos.id by lia; unfold ez in *; lia.
Qed.

(** ** Python's floor division and remainder stay finite *)

Lemma valid_fbounded : forall x,
  valid x = true -> is_finite x = true -> fbounded 1024 971 x.
Proof.
  intros [s|s| |s m e] Hv Hf; try discriminate; [exact I|].
  unfold valid, valid_binary, bounded, canonical_mantissa in Hv.
  apply andb_prop in Hv. destruct Hv as [Hc He].
  apply Z.eqb_eq in Hc. apply Z.leb_le in He.
  rewrite fexp_fexp64 in Hc.
  change (Zpos (digits2_pos m)) with (Zdigits2 (Zpos m)) in Hc.
  change (emax - prec) with 971 in He.
  unfold fbounded, fexp64 in *. lia.
Qed.

Lemma one_bounded : fbounded 1 (-52) one.
Proof. vm_compute. intuition discriminate. Qed.

Lemma feqb_finite_zero : forall s m e,
  feqb (S754_finite s m e) zero = false.
Proof. intros [] m e; reflexivity. Qed.

Lemma float_div_mod_bounded : forall x sy my ey,
  fbounded 1024 971 x ->
  Zdigits2 (Zpos my) <= 53 -> -1074 <= ey <= 971 ->
  6 <= Zdigits2 (Zpos my) + ey ->
  fbounded 1024 971 (fst (float_div_mod x (S754_finite sy my ey))).
Proof.
  intros x sy my ey Hx Hdy Hey HL.
  set (w := S754_finite sy my ey).
  assert (Hs0 : fbounded 1024 971 (fsub x (fmod x w)))
    by (apply fsub_fmod_bounded; assumption).
  assert (Hd0 : fbounded 1020 967 (fdiv (fsub x (fmod x w)) w)).
  { eapply fbounded_weaken;
      [| |apply (fdiv_bounded 1024 971 6); try eassumption]; lia. }
  assert (Hone : fbounded 1020 967 one).
  { eapply fbounded_weaken; [| |apply one_bounded]; lia. }
  assert (Hd1 : fbounded 1022 969 (fsub (fdiv (fsub x (fmod x w)) w) one)).
  { eapply fbounded_weaken; [| |apply (fsub_bounded 1020 967)]; 
      try eassumption; lia. }
  unfold float_div_mod. fold w.
  set (d0 := fdiv (fsub x (fmod x w)) w) in *.
  assert (Hdv : forall md dv,
    (if negb (is_zero (fmod x w))
     then if xorb (fltb w zero) (fltb (fmod x w) zero)
          then (fadd (fmod x w) w, fsub d0 one)
          else (fmod x w, d0)
     else (copysign_zero w, d0)) = (md, dv) ->
    fbounded 1022 969 dv).
  { intros md dv E.
    destruct (negb (is_zero (fmod x w)));
      [destruct (xorb (fltb w zero) (fltb (fmod x w) zero))|];
      inversion E; subst; try assumption;
      (eapply fbounded_weaken; [| |exact Hd0]; lia). }
  destruct (if negb (is_zero (fmod x w))
     then if xorb (fltb w zero) (fltb (fmod x w) zero)
          then (fadd (fmod x w) w, fsub d0 one)
          else (fmod x w, d0)
     else (copysign_zero w, d0)) as [md dv] eqn:E.
  specialize (Hdv md dv eq_refl). cbn [fst].
  destruct (negb (is_zero dv)); [|exact I].
  assert (Hfl : fbounded 1022 969 (ffloor dv)).
  { eapply fbounded_weaken; [| |apply (ffloor_bounded 1022 969)];
      try eassumption; lia. }
  destruct (fltb half (fsub dv (ffloor dv))).
  - eapply fbounded_weaken; [| |apply (fadd_bounded 1022 969)];
      try eassumption; try lia;
      (eapply fbounded_weaken; [| |apply one_bounded]; lia).
  - eapply fbounded_weaken; [| |exact Hfl]; lia.
Qed.

Lemma float_floor_div_finite : forall x sy my ey,
  fbounded 1024 971 x ->
  Zdigits2 (Zpos my) <= 53 -> -1074 <= ey <= 971 ->
  6 <= Zdigits2 (Zpos my) + ey ->
  exists q, float_floor_div x (S754_finite sy my ey) = Ok q /\
            fbounded 1024 971 q.
Proof.
  intros x sy my ey Hx Hdy Hey HL. unfold float_floor_div.
  rewrite feqb_finite_zero. eexists. split; [reflexivity|].
  apply float_div_mod_bounded; assumption.
Qed.

Lemma float_rem_finite : forall A B x sy my ey,
  fbounded A B x -> B <= 971 ->
  Zdigits2 (Zpos my) <= 53 -> -1074 <= ey <= 971 ->
  Zdigits2 (Zpos my) + ey <= 1022 ->
  exists r, float_rem x (S754_finite sy my ey) = Ok r /\
    fbounded (Z.max (Zdigits2 (Zpos my) + ey + 2) (-1073))
             (Z.max ey (Z.max (Zdigits2 (Zpos my) + ey - 51) (-1074))) r.
Proof.
  intros A B x sy my ey Hx HB Hdy Hey HL. unfold float_rem.
  rewrite feqb_finite_zero. eexists. split; [reflexivity|].
  set (w := S754_finite sy my ey).
  assert (Hm0 : fbounded (Zdigits2 (Zpos my) + ey) ey (fmod x w))
    by (eapply fmod_bounded; eassumption).
  assert (Hw : fbounded (Zdigits2 (Zpos my) + ey) ey w)
    by (unfold w, fbounded; lia).
  destruct (negb (is_zero (fmod x w))); [|exact I].
  destruct (xorb (fltb w zero) (fltb (fmod x w) zero)).
  - apply fadd_bounded; assumption.
  - eapply fbounded_weaken; [| |exact Hm0]; lia.
Qed.

Lemma int_of_float_finite : forall A B x,
  fbounded A B x -> exists z, int_of_float x = Ok z.
Proof.
  intros A B [s|s| |s m e] H; try contradiction; simpl; eauto.
Qed.

Lemma one_nonneg : fsigned false one.
Proof. reflexivity. Qed.

Lemma float_div_mod_nonneg : forall x my ey,
  fbounded 1024 971 x -> fsigned false x ->
  Zdigits2 (Zpos my) <= 53 -> -1074 <= ey <= 971 ->
  fsigned false (fst (float_div_mod x (S754_finite false my ey))).
Proof.
  intros x my ey Hx Hs Hdy Hey.
  set (w := S754_finite false my ey).
  destruct (fsub_fmod_bounded x false my ey Hx Hdy Hey) as [_ Hs0].
  specialize (Hs0 Hs). fold w in Hs0.
  assert (Hd0 : fsigned false (fdiv (fsub x (fmod x w)) w))
    by (apply fdiv_nonneg; assumption).
  unfold float_div_mod. fold w.
  rewrite (fltb_nonneg_zero (fmod x w)) by (apply fmod_nonneg; assumption).
  change (fltb w zero) with false. cbn [xorb].
  destruct (negb (is_zero (fmod x w))); cbn [fst];
    (destruct (negb (is_zero (fdiv (fsub x (fmod x w)) w))); [|exact I];
     destruct (fltb half _);
     [apply fadd_nonneg; [apply ffloor_nonneg; assumption|apply one_nonneg]
     |apply ffloor_nonneg; assumption]).
Qed.

Lemma float_rem_nonneg : forall x my ey r,
  fsigned false x ->
  float_rem x (S754_finite false my ey) = Ok r -> fsigned false r.
Proof.
  intros x my ey r Hs. unfold float_rem.
  rewrite feqb_finite_zero.
  set (w := S754_finite false my ey).
  rewrite (fltb_nonneg_zero (fmod x w)) by (apply fmod_nonneg; assumption).
  change (fltb w zero) with false. cbn [xorb].
  intros H. inversion H.
  destruct (negb (is_zero (fmod x w))); [apply fmod_nonneg; assumption|exact I].
Qed.

(** ** Order *)

Lemma valid_finite_canonical : forall s m e,
  valid (S754_finite s m e) = true ->
  e = fexp64 (Zdigits2 (Zpos m) + e) /\ e <= 971.
Proof.
  intros s m e Hv.
  unfold valid, valid_binary, bounded, canonical_mantissa in Hv.
  apply andb_prop in Hv. destruct Hv as [Hc He].
  apply Z.eqb_eq in Hc. apply Z.leb_le in He.
  rewrite fexp_fexp64 in Hc.
  change (Zpos (digits2_pos m)) with (Zdigits2 (Zpos m)) in Hc.
  change (emax - prec) with 971 in He. split; [symmetry|]; assumption.
Qed.

(** Between canonical mantissas the larger exponent wins. *)
Lemma canonical_exponent_lt : forall m1 e1 m2 e2,
  e1 = fexp64 (Zdigits2 (Zpos m1) + e1) ->
  e2 = fexp64 (Zdigits2 (Zpos m2) + e2) ->
  e1 < e2 -> Zpos m1 < Zpos m2 * 2 ^ (e2 - e1).
Proof.
  intros m1 e1 m2 e2 H1 H2 Hlt.
  pose proof (Zdigits2_bounds (Zpos m1) ltac:(lia)) as [_ Hb1].
  pose proof (Zdigits2_bounds (Zpos m2) ltac:(lia)) as [Hb2 _].
  assert (Hd2 : Zdigits2 (Zpos m2) = 53) by (unfold fexp64 in *; lia).
  assert (Hd1 : Zdigits2 (Zpos m1) <= 53) by (unfold fexp64 in *; lia).
  rewrite Hd2 in Hb2. change (2 ^ (53 - 1)) with 4503599627370496 in Hb2.
  assert (Zpos m1 < 2 ^ 53).
  { eapply Z.lt_le_trans; [exact Hb1|]. apply Z.pow_le_mono_r; lia. }
  change (2 ^ 53) with 9007199254740992 in *.
  assert (2 ^ 1 <= 2 ^ (e2 - e1)) by (apply Z.pow_le_mono_r; lia).
  change (2 ^ 1) with 2 in *. nia.
Qed.

Lemma fltb_finite_aligned : forall sx mx ex sy my ey,
  valid (S754_finite sx mx ex) = true ->
  valid (S754_finite sy my ey) = true ->
  fltb (S754_finite sx mx ex) (S754_finite sy my ey) = true ->
  cond_Zopp sx (Zpos mx * 2 ^ (ex - Z.min ex ey)) <
  cond_Zopp sy (Zpos my * 2 ^ (ey - Z.min ex ey)).
Proof.
  intros sx mx ex sy my ey Hvx Hvy Hlt.
  destruct (valid_finite_canonical _ _ _ Hvx) as [Hcx _].
  destruct (valid_finite_canonical _ _ _ Hvy) as [Hcy _].
  assert (Hpx : 0 < 2 ^ (ex - Z.min ex ey)) by (apply Z.pow_pos_nonneg; lia).
  assert (Hpy : 0 < 2 ^ (ey - Z.min ex ey)) by (apply Z.pow_pos_nonneg; lia).
  unfold fltb, SFltb, SFcompare in Hlt.
  destruct sx, sy; unfold cond_Zopp; try discriminate; try nia.
  - destruct (Z.compare_spec ex ey) as [E|E|E]; try discriminate.
    + subst ey. rewrite Z.min_id, Z.sub_diag, Z.pow_0_r.
      change (Pos.compare_cont Eq mx my) with (Pos.compare mx my) in Hlt.
      destruct (Pos.compare_spec mx my); simpl in Hlt; try discriminate. lia.
    + replace (Z.min ex ey) with ey by lia.
      rewrite Z.sub_diag, Z.pow_0_r.
      pose proof (canonical_exponent_lt my ey mx ex Hcy Hcx E). lia.
  - destruct (Z.compare_spec ex ey) as [E|E|E]; try discriminate.
    + subst ey. rewrite Z.min_id, Z.sub_diag, Z.pow_0_r.
      change (Pos.compare_cont Eq mx my) with (Pos.compare mx my) in Hlt.
      destruct (Pos.compare_spec mx my); simpl in Hlt; try discriminate. lia.
    + replace (Z.min ex ey) with ex by lia.
      rewrite Z.sub_diag, Z.pow_0_r.
      pose proof (canonical_exponent_lt mx ex my ey Hcx Hcy E). lia.
Qed.

Lemma finish_ge_zero : forall m e,
  0 <= m -> fleb zero (finish false m e) = true.
Proof.
  intros [|p|p] e H; [reflexivity| |lia].
  unfold finish. destruct (e <=? 971); reflexivity.
Qed.

Lemma binary_round_ge_zero : forall mx ex,
  fleb zero (binary_round prec emax false mx ex) = true.
Proof.
  intros mx ex. rewrite binary_round_eq.
  set (ez := Z.min ex (fexp64 (Zdigits2 (Zpos mx) + ex))).
  assert (H2 : 0 < 2 ^ (ex - ez)) by (apply Z.pow_pos_nonneg; unfold ez; lia).
  destruct (binary_round_aux_spec false (Zpos mx * 2 ^ (ex - ez)) ez loc_Exact
              ltac:(nia)) as (m1 & Hm1 & ->).
  assert (H1 : 0 <= m1).
  { assert (0 <= Zpos mx * 2 ^ (ex - ez) /
                 2 ^ Z.max 0 (fexp64 (Zdigits2 (Zpos mx * 2 ^ (ex - ez)) + ez) - ez)).
    { apply Z.div_pos; [nia|apply Z.pow_pos_nonneg; lia]. }
    destruct Hm1 as [E|[E _]]; lia. }
  apply finish_ge_zero.
  apply Z.div_pos; [lia|apply Z.pow_pos_nonneg; lia].
Qed.

(** The difference of two floats in increasing order is not negative. *)
Lemma fsub_increasing_nonneg : forall x y,
  valid x = true -> valid y = true -> fltb x y = true ->
  fleb zero (fsub y x) = true.
Proof.
  intros [sx|sx| |sx mx ex] [sy|sy| |sy my ey] Hvx Hvy Hlt;
    try discriminate;
    try (destruct sx, sy; try discriminate; reflexivity).
  pose proof (fltb_finite_aligned _ _ _ _ _ _ Hvx Hvy Hlt) as Hal.
  unfold fsub, SFsub.
  destruct (shl_align_spec my ey (Z.min ey ex)) as [_ Hmy].
  destruct (shl_align_spec mx ex (Z.min ey ex)) as [_ Hmx].
  replace (Z.min ey (Z.min ey ex)) with (Z.min ex ey) in Hmy by lia.
  replace (Z.min ex (Z.min ey ex)) with (Z.min ex ey) in Hmx by lia.
  rewrite Hmy, Hmx.
  match goal with |- fleb zero (binary_normalize _ _ ?d _ _) = true =>
    assert (Hd : 0 < d) by lia; destruct d as [|p|p]; try lia
  end.
  apply binary_round_ge_zero.
Qed.

Open Scope string_scope.

(** ** [_format_timestamp] on finite times *)

Lemma of_Z_3600 : of_Z 3600 = S754_finite false 7916483719987200 (-41).
Proof. reflexivity. Qed.

Lemma of_Z_60 : of_Z 60 = S754_finite false 8444249301319680 (-47).
Proof. reflexivity. Qed.

Lemma of_Z_1 : of_Z 1 = S754_finite false 4503599627370496 (-52).
Proof. reflexivity. Qed.

Lemma of_Z_1000 : of_Z 1000 = S754_finite false 8796093022208000 (-43).
Proof. reflexivity. Qed.

Lemma format_timestamp_finite : forall t,
  fbounded 1024 971 t ->
  exists hours minutes seconds millis,
    (q <- float_floor_div t (of_Z 3600) ;; int_of_float q)%py = Ok hours /\
    (r <- float_rem t (of_Z 3600) ;;
     q <- float_floor_div r (of_Z 60) ;; int_of_float q)%py = Ok minutes /\
    (r <- float_rem t (of_Z 60) ;; int_of_float r)%py = Ok seconds /\
    (r <- float_rem t (of_Z 1) ;;
     int_of_float (fmul r (of_Z 1000)))%py = Ok millis /\
    _format_timestamp t =
      Ok (format_0wd 2 hours ++ ":" ++ format_0wd 2 minutes ++ ":" ++
          format_0wd 2 seconds ++ "," ++ format_0wd 3 millis) /\
    (fsigned false t ->
     (0 <= hours /\ 0 <= minutes /\ 0 <= seconds /\ 0 <= millis)%Z).
Proof.
  intros t Ht. unfold _format_timestamp.
  rewrite of_Z_3600, of_Z_60, of_Z_1, of_Z_1000.
  destruct (float_floor_div_finite t false 7916483719987200 (-41) Ht)
    as (q1 & Eq1 & Hq1); [simpl; lia..|].
  destruct (int_of_float_finite _ _ q1 Hq1) as (hours & Eh).
  destruct (float_rem_finite 1024 971 t false 7916483719987200 (-41) Ht)
    as (r1 & Er1 & Hr1); [simpl; lia..|].
  assert (Hr1' : fbounded 1024 971 r1).
  { eapply fbounded_weaken; [| |exact Hr1]; simpl; lia. }
  destruct (float_floor_div_finite r1 false 8444249301319680 (-47) Hr1')
    as (q2 & Eq2 & Hq2); [simpl; lia..|].
  destruct (int_of_float_finite _ _ q2 Hq2) as (minutes & Em).
  destruct (float_rem_finite 1024 971 t false 8444249301319680 (-47) Ht)
    as (r2 & Er2 & Hr2); [simpl; lia..|].
  destruct (int_of_float_finite _ _ r2 Hr2) as (seconds & Es).
  destruct (float_rem_finite 1024 971 t false 4503599627370496 (-52) Ht)
    as (r3 & Er3 & Hr3); [simpl; lia..|].
  assert (Hp : fbounded 14 (-39)
                 (fmul r3 (S754_finite false 8796093022208000 (-43)))).
  { eapply fbounded_weaken;
      [| |apply (fmul_bounded 3 (-50) 10 (-43))]; try lia.
    - eapply fbounded_weaken; [| |exact Hr3]; simpl; lia.
    - simpl. lia. }
  destruct (int_of_float_finite _ _ _ Hp) as (millis & Ems).
  exists hours, minutes, seconds, millis.
  rewrite Eq1, Er1, Er2, Er3. cbn [bind].
  rewrite Eh, Eq2. cbn [bind]. rewrite Em, Es, Ems. cbn [bind].
  repeat split; try reflexivity.
  - eapply int_of_float_nonneg; [|exact Eh].
    unfold float_floor_div in Eq1. rewrite feqb_finite_zero in Eq1.
    inversion Eq1. apply float_div_mod_nonneg; simpl; auto; lia.
  - eapply int_of_float_nonneg; [|exact Em].
    unfold float_floor_div in Eq2. rewrite feqb_finite_zero in Eq2.
    inversion Eq2. apply float_div_mod_nonneg; simpl; auto; try lia.
    eapply float_rem_nonneg; eassumption.
  - eapply int_of_float_nonneg; [|exact Es].
    eapply float_rem_nonneg; eassumption.
  - eapply int_of_float_nonneg; [|exact Ems].
    apply fmul_nonneg. eapply float_rem_nonneg; eassumption.
Qed.

(* ================================================================== *)
(** * Exact quotients and remainders *)

Open Scope Z_scope.

Lemma pow2_pos : forall k, 0 <= k -> 0 < 2 ^ k.
Proof. intros. apply Z.pow_pos_nonneg; lia. Qed.

Lemma pow2_split : forall a b, 0 <= a -> 0 <= b -> 2 ^ (a + b) = 2 ^ a * 2 ^ b.
Proof. intros. apply Z.pow_add_r; assumption. Qed.

(** Rounding a representable value is exact. *)
Lemma binary_round_aux_exact : forall sx mx ex,
  0 < mx -> -1074 <= ex <= 971 ->
  representable (mx * 2 ^ (ex + 1074)) ->
  exists mz ez,
    binary_round_aux prec emax sx mx ex loc_Exact = S754_finite sx mz ez /\
    -1074 <= ez <= 971 /\
    Zdigits2 (Zpos mz) <= 53 /\
    Zpos mz * 2 ^ (ez + 1074) = mx * 2 ^ (ex + 1074).
Proof.
  intros sx mx ex Hmx Hex (M & E & HM & HdM & HE & Hv).
  assert (HMpos : 0 < M).
  { destruct (Z.eq_dec M 0) as [->|]; [|lia].
    pose proof (pow2_pos (ex + 1074) ltac:(lia)). nia. }
  assert (Hmageq : Zdigits2 mx + ex = Zdigits2 M + E).
  { pose proof (Zdigits2_mul_pow2 mx (ex + 1074) Hmx ltac:(lia)) as H1.
    pose proof (Zdigits2_mul_pow2 M (E + 1074) HMpos ltac:(lia)) as H2.
    rewrite Hv, H2 in H1. lia. }
  assert (Hmag : Zdigits2 mx + ex <= 1024) by lia.
  destruct (binary_round_aux_spec sx mx ex loc_Exact ltac:(lia))
    as (m1 & Hm1 & ->).
  set (mag := Zdigits2 mx + ex) in *.
  destruct (Z.le_gt_cases (fexp64 mag) ex) as [Hle|Hgt].
  - (* the mantissa is short enough: nothing is shifted out *)
    replace (Z.max 0 (fexp64 mag - ex)) with 0 in * by lia.
    rewrite Z.pow_0_r, Z.div_1_r, Z.mod_1_r in Hm1.
    assert (Em1 : m1 = mx) by (destruct Hm1 as [E1|[_ [E1|E1]]]; congruence).
    subst m1. rewrite Z.add_0_r. fold mag.
    replace (Z.max 0 (fexp64 mag - ex)) with 0 by lia.
    rewrite Z.pow_0_r, Z.div_1_r, Z.add_0_r.
    destruct mx as [|pm|pm] eqn:Emx; try lia.
    exists pm, ex. split.
    + unfold finish.
      replace (ex <=? 971) with true by (symmetry; apply Z.leb_le; lia).
      reflexivity.
    + split; [lia|]. split; [unfold mag, fexp64 in *; lia|reflexivity].
  - (* trailing zeros are shifted out *)
    replace (Z.max 0 (fexp64 mag - ex)) with (fexp64 mag - ex) in * by lia.
    set (k1 := fexp64 mag - ex) in *.
    pose proof (pow2_pos k1 ltac:(lia)) as H2k1.
    assert (Hk1pos : 0 < k1) by (unfold k1; lia).
    assert (HEk : ex + k1 <= E) by (unfold k1, fexp64 in *; lia).
    assert (Hmx_eq : mx = M * 2 ^ (E - ex)).
    { pose proof (pow2_pos (ex + 1074) ltac:(lia)).
      replace (E + 1074) with ((E - ex) + (ex + 1074)) in Hv by lia.
      rewrite (pow2_split (E - ex) (ex + 1074)) in Hv by lia. nia. }
    assert (Hdiv : mx = (M * 2 ^ (E - ex - k1)) * 2 ^ k1).
    { rewrite Hmx_eq at 1.
      rewrite <- Z.mul_assoc, <- (pow2_split (E - ex - k1) k1) by lia.
      f_equal. f_equal. lia. }
    assert (Hmod : mx mod 2 ^ k1 = 0).
    { rewrite Hdiv. apply Z.mod_mul. lia. }
    assert (Hq : mx / 2 ^ k1 = M * 2 ^ (E - ex - k1)).
    { rewrite Hdiv at 1. apply Z.div_mul. lia. }
    assert (Em1 : m1 = mx / 2 ^ k1)
      by (destruct Hm1 as [E1|[_ [E1|E1]]]; congruence).
    subst m1. rewrite Hq.
    pose proof (pow2_pos (E - ex - k1) ltac:(lia)) as H2r.
    set (q := M * 2 ^ (E - ex - k1)) in *.
    assert (Hqpos : 0 < q) by (unfold q; nia).
    assert (Hdq : Zdigits2 q + (ex + k1) = mag).
    { unfold q. rewrite Zdigits2_mul_pow2 by lia. lia. }
    rewrite Hdq.
    replace (Z.max 0 (fexp64 mag - (ex + k1))) with 0
      by (unfold k1, fexp64 in *; lia).
    rewrite Z.pow_0_r, Z.div_1_r, Z.add_0_r.
    assert (He1 : ex + k1 <= 971) by (unfold k1, fexp64 in *; lia).
    assert (Hval : q * 2 ^ (ex + k1 + 1074) = mx * 2 ^ (ex + 1074)).
    { transitivity (q * 2 ^ k1 * 2 ^ (ex + 1074)); [|now rewrite <- Hdiv].
      replace (ex + k1 + 1074) with (k1 + (ex + 1074)) by lia.
      rewrite (pow2_split k1 (ex + 1074)) by lia. ring. }
    destruct q as [|pq|pq] eqn:Eq; try lia.
    exists pq, (ex + k1). split.
    + unfold finish.
      replace (ex + k1 <=? 971) with true by (symmetry; apply Z.leb_le; lia).
      reflexivity.
    + split; [lia|]. split; [unfold k1, fexp64 in *; lia|assumption].
Qed.

Lemma representable_small : forall n, 0 <= n -> Zdigits2 n <= 53 ->
  representable (n * 2 ^ 1074).
Proof. intros n H0 Hd. exists n, 0. repeat split; try lia. Qed.

Lemma binary_round_exact : forall sx D e,
  -1074 <= e ->
  representable (Zpos D * 2 ^ (e + 1074)) ->
  exists mz ez,
    binary_round prec emax sx D e = S754_finite sx mz ez /\
    -1074 <= ez <= 971 /\
    Zdigits2 (Zpos mz) <= 53 /\
    Zpos mz * 2 ^ (ez + 1074) = Zpos D * 2 ^ (e + 1074).
Proof.
  intros sx D e He Hr. rewrite binary_round_eq.
  set (e0 := Z.min e (fexp64 (Zdigits2 (Zpos D) + e))).
  assert (He0 : -1074 <= e0 <= e) by (unfold e0, fexp64; lia).
  pose proof (pow2_pos (e - e0) ltac:(lia)) as H2.
  assert (Hval : Zpos D * 2 ^ (e - e0) * 2 ^ (e0 + 1074) =
                 Zpos D * 2 ^ (e + 1074)).
  { rewrite <- Z.mul_assoc, <- pow2_split by lia. f_equal. f_equal. lia. }
  assert (He0' : e0 <= 971).
  { destruct Hr as (M & E & HM & HdM & HE & Hv).
    assert (0 < M).
    { destruct (Z.eq_dec M 0) as [->|]; [|lia].
      pose proof (pow2_pos (e + 1074) ltac:(lia)). nia. }
    pose proof (Zdigits2_mul_pow2 (Zpos D) (e + 1074) ltac:(lia) ltac:(lia)) as H1.
    pose proof (Zdigits2_mul_pow2 M (E + 1074) ltac:(lia) ltac:(lia)) as H3.
    rewrite Hv, H3 in H1. unfold e0, fexp64. lia. }
  destruct (binary_round_aux_exact sx (Zpos D * 2 ^ (e - e0)) e0)
    as (mz & ez & E1 & E2 & E3 & E4); try lia.
  - rewrite Hval. assumption.
  - exists mz, ez. rewrite E4, Hval. auto.
Qed.

Lemma scaled_zero_of_finite : forall A B x,
  fbounded A B x -> scaled x = 0 -> is_zero x = true.
Proof.
  intros A B [s|s| |s m e] H Hs; try contradiction; [reflexivity|].
  destruct H as (_ & He & _). cbn [scaled] in Hs.
  pose proof (pow2_pos (e + 1074) ltac:(lia)).
  destruct s; cbn [cond_Zopp] in Hs; nia.
Qed.

Lemma binary_normalize_exact : forall M e szero,
  -1074 <= e ->
  representable (Z.abs M * 2 ^ (e + 1074)) ->
  scaled (binary_normalize prec emax M e szero) = M * 2 ^ (e + 1074) /\
  fbounded 1024 971 (binary_normalize prec emax M e szero) /\
  (0 <= M -> fsigned false (binary_normalize prec emax M e szero)).
Proof.
  intros [|p|p] e szero He Hr.
  - simpl. auto.
  - cbn [binary_normalize].
    destruct (binary_round_exact false p e He Hr)
      as (mz & ez & -> & E2 & E3 & E4).
    cbn [scaled cond_Zopp fbounded fsigned]. repeat split; try lia.
  - cbn [binary_normalize].
    destruct (binary_round_exact true p e He Hr)
      as (mz & ez & -> & E2 & E3 & E4).
    cbn [scaled cond_Zopp fbounded fsigned]. repeat split; try lia.
Qed.

Lemma cond_Zopp_mul : forall s a b, cond_Zopp s a * b = cond_Zopp s (a * b).
Proof. intros [] a b; simpl; lia. Qed.

Lemma aligned_scaled : forall s m e ez,
  -1074 <= ez <= e ->
  cond_Zopp s (Zpos m * 2 ^ (e - ez)) * 2 ^ (ez + 1074) =
  scaled (S754_finite s m e).
Proof.
  intros s m e ez H. cbn [scaled]. rewrite cond_Zopp_mul. f_equal.
  rewrite <- Z.mul_assoc, <- pow2_split by lia. f_equal. f_equal. lia.
Qed.

Lemma fsub_exact : forall x y,
  fbounded 1024 971 x -> fbounded 1024 971 y ->
  representable (Z.abs (scaled x - scaled y)) ->
  scaled (fsub x y) = scaled x - scaled y /\
  fbounded 1024 971 (fsub x y) /\
  (0 <= scaled x - scaled y -> fsigned false (fsub x y)).
Proof.
  intros [sx|sx| |sx mx ex] [sy|sy| |sy my ey] Hx Hy Hr; try contradiction.
  - simpl. destruct sx, sy; simpl; auto.
  - cbn [fsub SFsub]. cbn [scaled] in *. split; [|split].
    + destruct sy; cbn [cond_Zopp negb]; lia.
    + exact Hy.
    + destruct Hy as (_ & He & _).
      pose proof (pow2_pos (ey + 1074) ltac:(lia)).
      destruct sy; cbn [cond_Zopp negb fsigned]; intros; [reflexivity|nia].
  - cbn [fsub SFsub]. cbn [scaled] in *. split; [|split].
    + lia.
    + exact Hx.
    + destruct Hx as (_ & He & _).
      pose proof (pow2_pos (ex + 1074) ltac:(lia)).
      destruct sx; cbn [cond_Zopp fsigned]; intros; [nia|reflexivity].
  - unfold fsub, SFsub.
    destruct Hx as (_ & Hex & _), Hy as (_ & Hey & _).
    set (ez := Z.min ex ey).
    destruct (shl_align_spec mx ex ez) as [_ Hmx].
    destruct (shl_align_spec my ey ez) as [_ Hmy].
    replace (Z.min ex ez) with ez in Hmx by (unfold ez; lia).
    replace (Z.min ey ez) with ez in Hmy by (unfold ez; lia).
    rewrite Hmx, Hmy.
    set (D := cond_Zopp sx (Zpos mx * 2 ^ (ex - ez)) -
              cond_Zopp sy (Zpos my * 2 ^ (ey - ez))).
    assert (HD : D * 2 ^ (ez + 1074) =
                 scaled (S754_finite sx mx ex) - scaled (S754_finite sy my ey)).
    { unfold D. rewrite Z.mul_sub_distr_r.
      rewrite !aligned_scaled by (unfold ez; lia). reflexivity. }
    pose proof (pow2_pos (ez + 1074) ltac:(unfold ez; lia)) as H2.
    destruct (binary_normalize_exact D ez false ltac:(unfold ez; lia))
      as (E1 & E2 & E3).
    { rewrite <- HD in Hr. rewrite Z.abs_mul in Hr.
      rewrite (Z.abs_eq (2 ^ (ez + 1074))) in Hr by lia. exact Hr. }
    rewrite E1, HD. split; [reflexivity|]. split; [assumption|].
    intros Hpos. apply E3. rewrite <- HD in Hpos. nia.
Qed.

Lemma int_of_float_scaled : forall x,
  fbounded 1024 971 x -> fsigned false x ->
  int_of_float x = Ok (scaled x / 2 ^ 1074).
Proof.
  intros [s|s| |s m e] Hx Hs; try contradiction.
  - reflexivity.
  - simpl in Hs. subst s. destruct Hx as (_ & He & _).
    cbn [int_of_float scaled cond_Zopp]. f_equal.
    destruct (Z.le_gt_cases 0 e) as [H|H].
    + rewrite Z.shiftl_mul_pow2 by lia.
      rewrite (pow2_split e 1074) by lia.
      rewrite Z.mul_assoc, Z.div_mul; [reflexivity|].
      pose proof (pow2_pos 1074 ltac:(lia)). lia.
    + rewrite Z.shiftl_div_pow2 by lia.
      replace 1074 with (- e + (e + 1074)) at 2 by lia.
      rewrite (pow2_split (- e) (e + 1074)) by lia.
      rewrite Z.div_mul_cancel_r; [reflexivity| |];
        apply Z.neq_sym, Z.lt_neq, pow2_pos; lia.
Qed.

Lemma ffloor_exact : forall x,
  fbounded 1024 971 x -> fsigned false x ->
  scaled (ffloor x) = scaled x / 2 ^ 1074 * 2 ^ 1074 /\
  fbounded 1024 971 (ffloor x) /\ fsigned false (ffloor x).
Proof.
  intros x Hx Hs.
  pose proof (pow2_pos 1074 ltac:(lia)) as HU.
  destruct x as [s|s| |s m e]; try contradiction.
  - simpl. auto.
  - simpl in Hs. subst s. pose proof Hx as (Hd & He & _).
    cbn [ffloor]. destruct (0 <=? e) eqn:E.
    + apply Z.leb_le in E. split; [|split; [exact Hx|reflexivity]].
      cbn [scaled cond_Zopp].
      rewrite (pow2_split e 1074) by lia.
      rewrite Z.mul_assoc, Z.div_mul by lia. reflexivity.
    + apply Z.leb_gt in E. cbn [cond_Zopp].
      rewrite Z.shiftr_div_pow2 by lia.
      pose proof (pow2_pos (- e) ltac:(lia)) as H2.
      assert (Hn0 : 0 <= Zpos m / 2 ^ (- e)) by (apply Z.div_pos; lia).
      assert (Hnle : Zpos m / 2 ^ (- e) <= Zpos m).
      { apply Z.div_le_upper_bound; [lia|]. nia. }
      assert (Hval : scaled (S754_finite false m e) / 2 ^ 1074 =
                     Zpos m / 2 ^ (- e)).
      { cbn [scaled cond_Zopp].
        replace 1074 with (- e + (e + 1074)) at 2 by lia.
        rewrite (pow2_split (- e) (e + 1074)) by lia.
        rewrite Z.div_mul_cancel_r; [reflexivity| |];
          apply Z.neq_sym, Z.lt_neq, pow2_pos; lia. }
      rewrite Hval.
      destruct (binary_normalize_exact (Zpos m / 2 ^ (- e)) 0 false
                  ltac:(lia)) as (E1 & E2 & E3).
      { rewrite Z.abs_eq by lia. rewrite Z.add_0_l.
        apply representable_small; [lia|].
        eapply Z.le_trans; [apply Zdigits2_mono; split; eassumption|].
        assumption. }
      rewrite E1, Z.add_0_l. auto.
Qed.

Lemma fmod_scaled : forall x sy my ey,
  fbounded 1024 971 x -> fsigned false x ->
  Zdigits2 (Zpos my) <= 53 -> -1074 <= ey <= 971 ->
  scaled (fmod x (S754_finite sy my ey)) =
  scaled x mod (Zpos my * 2 ^ (ey + 1074)).
Proof.
  intros [sx|sx| |sx mx ex] sy my ey Hx Hs Hdy Hey; try contradiction.
  - reflexivity.
  - simpl in Hs. subst sx. pose proof Hx as (Hdx & Hex & _ & Hex').
    set (ez := Z.min ex ey).
    pose proof (pow2_pos (ez + 1074) ltac:(unfold ez; lia)) as Hc.
    pose proof (pow2_pos (ex - ez) ltac:(unfold ez; lia)) as Hcx.
    pose proof (pow2_pos (ey - ez) ltac:(unfold ez; lia)) as Hcy.
    assert (HX : scaled (S754_finite false mx ex) =
                 Zpos mx * 2 ^ (ex - ez) * 2 ^ (ez + 1074)).
    { cbn [scaled cond_Zopp].
      rewrite <- Z.mul_assoc, <- pow2_split by (unfold ez; lia).
      f_equal. f_equal. lia. }
    assert (HY : Zpos my * 2 ^ (ey + 1074) =
                 Zpos my * 2 ^ (ey - ez) * 2 ^ (ez + 1074)).
    { rewrite <- Z.mul_assoc, <- pow2_split by (unfold ez; lia).
      f_equal. f_equal. lia. }
    rewrite HX, HY, Z.mul_mod_distr_r by nia.
    destruct (fmod_finite false mx ex sy my ey Hdx Hdy ltac:(lia) Hey)
      as [[HR ->]|(HR & mz & -> & Hmz & He0 & HdR & HmR)]; fold ez in HR.
    + rewrite HR. reflexivity.
    + fold ez in Hmz, He0, HmR |- *.
      set (R := (Zpos mx * 2 ^ (ex - ez)) mod (Zpos my * 2 ^ (ey - ez))) in *.
      set (e0 := fexp64 (Zdigits2 R + ez)) in *.
      assert (-1074 <= e0) by (unfold e0, fexp64; lia).
      cbn [scaled cond_Zopp]. rewrite Hmz.
      rewrite <- Z.mul_assoc, <- pow2_split by lia.
      f_equal. f_equal. lia.
Qed.

Lemma Zdigits2_mul_le : forall a b, 0 < a -> 0 < b ->
  Zdigits2 (a * b) <= Zdigits2 a + Zdigits2 b.
Proof.
  intros a b Ha Hb.
  pose proof (Zdigits2_pos a Ha). pose proof (Zdigits2_pos b Hb).
  pose proof (Zdigits2_bounds a Ha) as [_ Hba].
  pose proof (Zdigits2_bounds b Hb) as [_ Hbb].
  apply Zdigits2_le_of_lt; [lia|].
  rewrite Z.pow_add_r by lia. nia.
Qed.

Lemma new_location_zero : forall m, new_location m 0 = loc_Exact.
Proof.
  intros m. unfold new_location, new_location_even, new_location_odd.
  destruct (Z.even m); reflexivity.
Qed.

(** An integral quotient below 2^53 is computed exactly. *)
Lemma fdiv_exact : forall x my ey K,
  fbounded 1024 971 x -> fsigned false x ->
  Zdigits2 (Zpos my) <= 53 -> -1074 <= ey <= 0 ->
  0 <= K -> Zdigits2 K <= 53 ->
  scaled x = K * (Zpos my * 2 ^ (ey + 1074)) ->
  scaled (fdiv x (S754_finite false my ey)) = K * 2 ^ 1074 /\
  fbounded 1024 971 (fdiv x (S754_finite false my ey)) /\
  fsigned false (fdiv x (S754_finite false my ey)).
Proof.
  intros [sx|sx| |sx mx ex] my ey K Hx Hs Hdy Hey HK HdK Hv;
    try contradiction.
  - pose proof (pow2_pos (ey + 1074) ltac:(lia)).
    pose proof (pow2_pos 1074 ltac:(lia)).
    cbn [scaled] in Hv. assert (K = 0) by nia. subst K.
    simpl. auto.
  - simpl in Hs. subst sx. pose proof Hx as (Hdx & Hex & _ & Hex').
    cbn [scaled cond_Zopp] in Hv.
    pose proof (pow2_pos (ey + 1074) ltac:(lia)) as Hcy.
    pose proof (pow2_pos (ex + 1074) ltac:(lia)) as Hcx.
    assert (HKpos : 0 < K) by nia.
    unfold fdiv, SFdiv. rewrite SFdiv_core_binary_eq.
    set (d1 := Zdigits2 (Zpos mx)) in *. set (d2 := Zdigits2 (Zpos my)) in *.
    set (e' := Z.min (fexp64 (d1 + ex - (d2 + ey))) (ex - ey)).
    assert (Hmagle : d1 + ex <= Zdigits2 K + (d2 + ey)).
    { pose proof (Zdigits2_mul_pow2 (Zpos mx) (ex + 1074) ltac:(lia) ltac:(lia)) as H1.
      pose proof (Zdigits2_mul_pow2 (Zpos my) (ey + 1074) ltac:(lia) ltac:(lia)) as H2.
      pose proof (Zdigits2_mul_le K (Zpos my * 2 ^ (ey + 1074)) HKpos ltac:(nia)) as H3.
      rewrite <- Hv, H1, H2 in H3. unfold d1, d2. lia. }
    assert (He'0 : e' <= 0) by (unfold e', fexp64; lia).
    assert (He'1 : -1074 <= e') by (unfold e', fexp64; lia).
    assert (Hs : 0 <= ex - ey - e') by (unfold e'; lia).
    pose proof (pow2_pos (ex - ey - e') Hs) as Hcs.
    pose proof (pow2_pos (- e') ltac:(lia)) as Hce.
    assert (Hm' : Zpos mx * 2 ^ (ex - ey - e') = K * 2 ^ (- e') * Zpos my).
    { apply (Z.mul_reg_r _ _ (2 ^ (ey + 1074))); [lia|].
      transitivity (Zpos mx * 2 ^ (ex + 1074) * 2 ^ (- e')).
      - rewrite <- !Z.mul_assoc, <- !pow2_split by lia.
        f_equal. f_equal. lia.
      - rewrite Hv. ring. }
    rewrite Hm', Z.div_mul, Z.mod_mul, new_location_zero by lia.
    destruct (binary_round_aux_exact (xorb false false) (K * 2 ^ (- e')) e')
      as (mz & ez & -> & E2 & E3 & E4); try nia; try lia.
    { replace (K * 2 ^ (- e') * 2 ^ (e' + 1074)) with (K * 2 ^ 1074).
      - apply representable_small; lia.
      - rewrite <- Z.mul_assoc, <- pow2_split by lia.
        f_equal. f_equal. lia. }
    cbn [scaled cond_Zopp xorb fbounded fsigned].
    rewrite E4. repeat split; try lia.
    rewrite <- Z.mul_assoc, <- pow2_split by lia. f_equal. f_equal. lia.
Qed.

Lemma representable_zero : representable 0.
Proof. exists 0, 0. repeat split; simpl; lia. Qed.

Lemma fltb_half_zero : forall x, is_zero x = true -> fltb half x = false.
Proof. intros [[]|s| |s m e] H; try discriminate; reflexivity. Qed.

Lemma div_mod_scaled : forall v U W, 0 < U -> 0 < W ->
  v mod (W * U) / U = (v / U) mod W.
Proof.
  intros v U W HU HW.
  rewrite (Z.mul_comm W U), Z.rem_mul_r by lia.
  rewrite Z.mul_comm, Z.div_add by lia.
  rewrite Z.div_small by (apply Z.mod_pos_bound; lia). reflexivity.
Qed.

Section ExactQuotient.

(** A positive divisor with the integral value [W]. *)
Variables (my : positive) (ey W : Z).
Hypothesis Hdy : Zdigits2 (Zpos my) <= 53.
Hypothesis Hey : -1074 <= ey <= 0.
Hypothesis HW : 0 < W.
Hypothesis HVw : Zpos my * 2 ^ (ey + 1074) = W * 2 ^ 1074.

Lemma float_rem_exact : forall x,
  fbounded 1024 971 x -> fsigned false x ->
  exists r,
    float_rem x (S754_finite false my ey) = Ok r /\
    fbounded 1024 971 r /\ fsigned false r /\
    scaled r = scaled x mod (W * 2 ^ 1074) /\
    int_of_float r = Ok ((scaled x / 2 ^ 1074) mod W).
Proof.
  intros x Hx Hs.
  pose proof (pow2_pos 1074 ltac:(lia)) as HU.
  assert (Hb : fbounded 1024 971 (fmod x (S754_finite false my ey))).
  { eapply fbounded_weaken; [| |apply (fmod_bounded 1024 971 x false my ey)];
      try assumption; lia. }
  pose proof (fmod_nonneg x (S754_finite false my ey) Hs) as Hn.
  pose proof (fmod_scaled x false my ey Hx Hs Hdy ltac:(lia)) as Hv.
  rewrite HVw in Hv.
  unfold float_rem. rewrite feqb_finite_zero.
  rewrite (fltb_nonneg_zero (fmod x (S754_finite false my ey)) Hn).
  change (fltb (S754_finite false my ey) zero) with false. cbn [xorb].
  eexists. split; [reflexivity|].
  destruct (is_zero (fmod x (S754_finite false my ey))) eqn:Ez; cbn [negb].
  - assert (Hz : scaled (fmod x (S754_finite false my ey)) = 0)
      by (destruct (fmod x (S754_finite false my ey)); try discriminate; reflexivity).
    rewrite Hz in Hv. split; [exact I|]. split; [exact I|].
    split; [exact Hv|].
    cbn [copysign_zero int_of_float]. f_equal.
    rewrite <- div_mod_scaled, <- Hv by lia. reflexivity.
  - split; [assumption|]. split; [assumption|]. split; [assumption|].
    rewrite int_of_float_scaled, Hv by assumption.
    f_equal. apply div_mod_scaled; lia.
Qed.

Lemma float_floor_div_exact : forall x,
  fbounded 1024 971 x -> fsigned false x ->
  Zdigits2 (scaled x / 2 ^ 1074) <= 53 ->
  exists q,
    float_floor_div x (S754_finite false my ey) = Ok q /\
    int_of_float q = Ok (scaled x / 2 ^ 1074 / W).
Proof.
  intros x Hx Hs HN.
  pose proof (pow2_pos 1074 ltac:(lia)) as HU.
  pose proof (pow2_pos (ey + 1074) ltac:(lia)) as Hcy.
  set (U := 2 ^ 1074) in *.
  set (N := scaled x / U) in *.
  set (K := N / W).
  assert (HV0 : 0 <= scaled x).
  { destruct x as [s|s| |s m e]; try contradiction; cbn [scaled]; [lia|].
    simpl in Hs. subst s. destruct Hx as (_ & He & _).
    pose proof (pow2_pos (e + 1074) ltac:(lia)). cbn [cond_Zopp]. nia. }
  assert (HN0 : 0 <= N) by (apply Z.div_pos; lia).
  assert (HK0 : 0 <= K) by (apply Z.div_pos; lia).
  assert (HKN : W * K <= N) by (apply Z.mul_div_le; lia).
  assert (HKdiv : scaled x / (W * U) = K).
  { unfold K, N. rewrite (Z.mul_comm W U), Z.div_div by lia. reflexivity. }
  assert (Hb : fbounded 1024 971 (fmod x (S754_finite false my ey))).
  { eapply fbounded_weaken; [| |apply (fmod_bounded 1024 971 x false my ey)];
      try assumption; lia. }
  pose proof (fmod_nonneg x (S754_finite false my ey) Hs) as Hn.
  pose proof (fmod_scaled x false my ey Hx Hs Hdy ltac:(lia)) as Hv.
  rewrite HVw in Hv. fold U in Hv.
  assert (Hdiff : scaled x - scaled (fmod x (S754_finite false my ey)) = K * (W * U)).
  { rewrite Hv, <- HKdiv.
    pose proof (Z.div_mod (scaled x) (W * U) ltac:(nia)). lia. }
  destruct (fsub_exact x (fmod x (S754_finite false my ey)) Hx Hb) as (Es & Hsb & Hss).
  { rewrite Hdiff, Z.abs_eq by nia.
    replace (K * (W * U)) with (W * K * U) by ring.
    apply representable_small; [nia|].
    eapply Z.le_trans; [apply Zdigits2_mono; split; [nia|exact HKN]|].
    assumption. }
  specialize (Hss ltac:(nia)).
  destruct (fdiv_exact (fsub x (fmod x (S754_finite false my ey))) my ey K Hsb Hss Hdy Hey HK0)
    as (Ed & Hdb & Hds).
  { eapply Z.le_trans; [apply Zdigits2_mono; split; [exact HK0|]|exact HN].
    nia. }
  { rewrite Es, Hdiff, HVw. reflexivity. }
  fold U in Ed, Hdb, Hds.
  unfold float_floor_div. rewrite feqb_finite_zero.
  eexists. split; [reflexivity|].
  unfold float_div_mod.
  rewrite (fltb_nonneg_zero (fmod x (S754_finite false my ey)) Hn).
  change (fltb (S754_finite false my ey) zero) with false. cbn [xorb].
  set (d0 := fdiv (fsub x (fmod x (S754_finite false my ey))) (S754_finite false my ey)) in *.
  assert (Hdv : (if negb (is_zero (fmod x (S754_finite false my ey)))
                 then (fmod x (S754_finite false my ey), d0) else (copysign_zero (S754_finite false my ey), d0)) =
                (if negb (is_zero (fmod x (S754_finite false my ey)))
                 then fmod x (S754_finite false my ey) else copysign_zero (S754_finite false my ey), d0))
    by (destruct (negb (is_zero (fmod x (S754_finite false my ey)))); reflexivity).
  rewrite Hdv. cbn [fst].
  destruct (is_zero d0) eqn:Ez; cbn [negb].
  - assert (Hz : scaled d0 = 0)
      by (destruct d0; try discriminate; reflexivity).
    cbn [copysign_zero int_of_float]. f_equal. fold K. nia.
  - destruct (ffloor_exact d0 Hdb Hds) as (Ef & Hfb & Hfs).
    fold U in Ef. rewrite Ed, Z.div_mul in Ef by lia.
    destruct (fsub_exact d0 (ffloor d0) Hdb Hfb) as (Ez' & Hzb & _).
    { rewrite Ed, Ef, Z.sub_diag. apply representable_zero. }
    rewrite Ed, Ef, Z.sub_diag in Ez'.
    rewrite (fltb_half_zero _ (scaled_zero_of_finite _ _ _ Hzb Ez')).
    rewrite int_of_float_scaled by assumption.
    fold U. rewrite Ef, Z.div_mul by lia. reflexivity.
Qed.

End ExactQuotient.

Lemma scaled_3600 :
  Zpos 7916483719987200 * 2 ^ (-41 + 1074) = 3600 * 2 ^ 1074.
Proof. vm_compute. reflexivity. Qed.

Lemma scaled_60 :
  Zpos 8444249301319680 * 2 ^ (-47 + 1074) = 60 * 2 ^ 1074.
Proof. vm_compute. reflexivity. Qed.

(** The hours, minutes and seconds [_format_timestamp] computes, in terms
    of the whole seconds [N = int(t)]. *)
Lemma format_timestamp_fields_exact : forall t N,
  fbounded 1024 971 t -> fsigned false t -> int_of_float t = Ok N ->
  (r <- float_rem t (of_Z 60) ;; int_of_float r)%py = Ok (N mod 60) /\
  (r <- float_rem t (of_Z 3600) ;;
   q <- float_floor_div r (of_Z 60) ;; int_of_float q)%py
    = Ok (N mod 3600 / 60) /\
  (N < 2 ^ 53 ->
   (q <- float_floor_div t (of_Z 3600) ;; int_of_float q)%py
     = Ok (N / 3600)).
Proof.
  intros t N Ht Hs HN.
  assert (EN : scaled t / 2 ^ 1074 = N).
  { pose proof (int_of_float_scaled t Ht Hs) as H. congruence. }
  clear HN.
  pose proof (pow2_pos 1074 ltac:(lia)) as HU.
  assert (HN0 : 0 <= N).
  { rewrite <- EN. apply Z.div_pos; [|lia].
    destruct t as [s|s| |s m e]; try contradiction; cbn [scaled]; [lia|].
    simpl in Hs. subst s. destruct Ht as (_ & He & _).
    pose proof (pow2_pos (e + 1074) ltac:(lia)). cbn [cond_Zopp]. nia. }
  rewrite of_Z_3600, of_Z_60.
  split; [|split].
  - destruct (float_rem_exact 8444249301319680 (-47) 60
                ltac:(simpl; lia) ltac:(lia) ltac:(lia) scaled_60 t Ht Hs)
      as (r & -> & _ & _ & _ & Er).
    cbn [bind]. rewrite Er, EN. reflexivity.
  - destruct (float_rem_exact 7916483719987200 (-41) 3600
                ltac:(simpl; lia) ltac:(lia) ltac:(lia) scaled_3600 t Ht Hs)
      as (r & -> & Hrb & Hrs & Ev & _).
    cbn [bind].
    assert (Hr : scaled r / 2 ^ 1074 = N mod 3600).
    { rewrite Ev, <- EN. apply div_mod_scaled; lia. }
    destruct (float_floor_div_exact 8444249301319680 (-47) 60
                ltac:(simpl; lia) ltac:(lia) ltac:(lia) scaled_60 r Hrb Hrs)
      as (q & -> & Eq).
    + rewrite Hr. apply Zdigits2_le_of_lt; [lia|].
      pose proof (Z.mod_pos_bound N 3600 ltac:(lia)).
      change (2 ^ 53) with 9007199254740992. lia.
    + cbn [bind]. rewrite Eq, Hr. reflexivity.
  - intros Hlt.
    destruct (float_floor_div_exact 7916483719987200 (-41) 3600
                ltac:(simpl; lia) ltac:(lia) ltac:(lia) scaled_3600 t Ht Hs)
      as (q & -> & Eq).
    + rewrite EN. apply Zdigits2_le_of_lt; lia.
    + cbn [bind]. rewrite Eq, EN. reflexivity.
Qed.

(** ** The milliseconds *)

Lemma Zdigits2_pow2 : forall k, 0 <= k -> Zdigits2 (2 ^ k) = k + 1.
Proof.
  intros k Hk. rewrite Zdigits2_log2_pos by (apply pow2_pos; assumption).
  rewrite Z.log2_pow2 by assumption. reflexivity.
Qed.

(** The second shift of the rounding loses nothing. *)
Lemma scaled_finish_exact : forall m e,
  0 <= m <= 2 ^ 53 -> -1074 <= e <= 970 ->
  scaled (finish false
            (m / 2 ^ Z.max 0 (fexp64 (Zdigits2 m + e) - e))
            (e + Z.max 0 (fexp64 (Zdigits2 m + e) - e))) =
  m * 2 ^ (e + 1074).
Proof.
  intros m e [Hm0 Hm] He.
  destruct (Z.eq_dec m (2 ^ 53)) as [->|Hne].
  - rewrite Zdigits2_pow2 by lia.
    replace (Z.max 0 (fexp64 (53 + 1 + e) - e)) with 1 by (unfold fexp64; lia).
    change (2 ^ 53 / 2 ^ 1) with 4503599627370496.
    unfold finish.
    replace (e + 1 <=? 971) with true by (symmetry; apply Z.leb_le; lia).
    cbn [scaled cond_Zopp].
    replace (e + 1 + 1074) with (1 + (e + 1074)) by lia.
    rewrite pow2_split by lia.
    change (2 ^ 53) with 9007199254740992. change (2 ^ 1) with 2. ring.
  - assert (Hd : Zdigits2 m <= 53) by (apply Zdigits2_le_of_lt; lia).
    replace (Z.max 0 (fexp64 (Zdigits2 m + e) - e)) with 0
      by (unfold fexp64; lia).
    rewrite Z.pow_0_r, Z.div_1_r, Z.add_0_r.
    unfold finish. destruct m as [|p|p]; [reflexivity| |lia].
    replace (e <=? 971) with true by (symmetry; apply Z.leb_le; lia).
    reflexivity.
Qed.

(** The product of a fraction below 1 and 1000.0: its rounding lies between
    the whole part of the exact product and the next integer, and stays
    below 1000. *)
Lemma fmul_1000_scaled : forall r,
  fbounded 1024 971 r -> fsigned false r -> scaled r < 2 ^ 1074 ->
  (scaled r * 1000 / 2 ^ 1074) * 2 ^ 1074 <= scaled (fmul r (of_Z 1000)) /\
  scaled (fmul r (of_Z 1000)) <= (scaled r * 1000 / 2 ^ 1074 + 1) * 2 ^ 1074 /\
  scaled (fmul r (of_Z 1000)) < 1000 * 2 ^ 1074.
Proof.
  intros [s|s| |s mr er] Hb Hs Hlt; try contradiction.
  - pose proof (pow2_pos 1074 ltac:(lia)). rewrite of_Z_1000.
    cbn [fmul SFmul scaled]. rewrite Z.mul_0_l, Z.div_0_l by lia. lia.
  - simpl in Hs. subst s. destruct Hb as (Hd & He & _ & _).
    cbn [scaled cond_Zopp] in Hlt |- *. rewrite of_Z_1000.
    change (fmul (S754_finite false mr er)
                 (S754_finite false 8796093022208000 (-43)))
      with (binary_round_aux prec emax false
              (Zpos (mr * 8796093022208000)) (er + -43) loc_Exact).
    pose proof (pow2_pos 1074 ltac:(lia)) as HU.
    pose proof (pow2_pos (er + 1074) ltac:(lia)) as HE.
    assert (Her : er < 0).
    { destruct (Z.lt_ge_cases er 0) as [|Hge]; [assumption|exfalso].
      assert (2 ^ 1074 <= 2 ^ (er + 1074)) by (apply Z.pow_le_mono_r; lia).
      nia. }
    pose proof (pow2_pos (- er) ltac:(lia)) as HS.
    assert (HSU : 2 ^ (er + 1074) * 2 ^ (- er) = 2 ^ 1074).
    { rewrite <- pow2_split by lia. f_equal. lia. }
    assert (Hmr : Zpos mr < 2 ^ (- er)) by nia.
    assert (Hmr53 : Zpos mr < 2 ^ 53).
    { pose proof (Zdigits2_bounds (Zpos mr) ltac:(lia)) as [_ Hbd].
      eapply Z.lt_le_trans; [exact Hbd|]. apply Z.pow_le_mono_r; lia. }
    set (S := 2 ^ (- er)) in *.
    set (V := 2 ^ (er + 1074)) in *.
    set (U := 2 ^ 1074) in *.
    set (n := Zpos mr * V * 1000 / U).
    assert (Hn : n * U <= Zpos mr * V * 1000 < (n + 1) * U).
    { pose proof (Z.div_mod (Zpos mr * V * 1000) U ltac:(lia)) as Hdm.
      pose proof (Z.mod_pos_bound (Zpos mr * V * 1000) U HU). fold n in Hdm.
      lia. }
    assert (HnS : n * S <= Zpos mr * 1000 < (n + 1) * S).
    { rewrite <- HSU in Hn. nia. }
    assert (Hn0 : 0 <= n) by (apply Z.div_pos; nia).
    set (C := 8796093022208000).
    set (ex := er + -43).
    rewrite Pos2Z.inj_mul. fold C.
    set (M := Zpos mr * C).
    destruct (binary_round_aux_rounds false M ex loc_Exact ltac:(unfold M, C; lia))
      as (m1 & Hm1 & Hhalf & ->).
    set (mag := Zdigits2 M + ex) in *.
    assert (HM0 : 0 < M) by (unfold M, C; lia).
    assert (Hmag : mag <= 10).
    { assert (Zdigits2 M <= 10 - ex); [|unfold mag; lia].
      apply Zdigits2_le_of_lt; [unfold ex; lia|].
      split; [lia|].
      replace (10 - ex) with (53 + - er) by (unfold ex; lia).
      rewrite pow2_split by lia. fold S.
      change (2 ^ 53) with 9007199254740992. unfold M, C. nia. }
    set (k1 := Z.max 0 (fexp64 mag - ex)) in *.
    assert (Hk1 : 0 <= k1) by apply Z.le_max_l.
    set (e1 := ex + k1) in *.
    assert (He1 : -1074 <= e1 <= -43) by (unfold e1, k1, fexp64, ex; lia).
    pose proof (pow2_pos k1 Hk1) as HP.
    pose proof (pow2_pos (-43 - e1) ltac:(lia)) as HG.
    assert (HGP : 2 ^ (-43 - e1) * 2 ^ k1 = S).
    { rewrite <- pow2_split by lia. unfold S. f_equal. unfold e1, ex. lia. }
    assert (HMP : M < 2 ^ 53 * 2 ^ k1).
    { pose proof (Zdigits2_bounds M HM0) as [_ Hbd].
      eapply Z.lt_le_trans; [exact Hbd|].
      rewrite <- pow2_split by lia. apply Z.pow_le_mono_r; [lia|].
      unfold k1, fexp64, mag. lia. }
    assert (HGE : 2 ^ (-43 - e1) * 2 ^ (e1 + 1074) = 2 ^ 1031).
    { rewrite <- pow2_split by lia. f_equal. lia. }
    assert (HUU : 2 ^ 43 * 2 ^ 1031 = U).
    { unfold U. rewrite <- pow2_split by lia. reflexivity. }
    pose proof (pow2_pos (e1 + 1074) ltac:(lia)) as HE1.
    pose proof (pow2_pos 1031 ltac:(lia)) as H1031.
    set (P := 2 ^ k1) in *. set (G := 2 ^ (-43 - e1)) in *.
    set (Q := 2 ^ (e1 + 1074)) in *. set (R := 2 ^ 1031) in *.
    change (2 ^ 43) with 8796093022208 in HUU.
    change (2 ^ 53) with 9007199254740992 in HMP, Hmr53.
    pose proof (Z.div_mod M P ltac:(lia)) as Hdm.
    pose proof (Z.mod_pos_bound M P HP) as Hmod.
    set (q := M / P) in *. set (rem := M mod P) in *.
    assert (Hq53 : 0 <= q < 9007199254740992) by nia.
    assert (HqT : q <= G * C - 1).
    { assert (q * P < G * C * P); [|nia].
      replace (G * C * P) with (C * (G * P)) by ring. rewrite HGP.
      unfold M in Hdm. nia. }
    assert (Hqn : n * (G * 8796093022208) <= q <= (n + 1) * (G * 8796093022208) - 1).
    { assert (HM1 : n * (G * 8796093022208) * P <= M).
      { replace (n * (G * 8796093022208) * P) with (8796093022208 * (n * (G * P))) by ring.
        rewrite HGP. unfold M, C. lia. }
      assert (HM2 : M < (n + 1) * (G * 8796093022208) * P).
      { replace ((n + 1) * (G * 8796093022208) * P)
          with (8796093022208 * ((n + 1) * (G * P))) by ring.
        rewrite HGP. unfold M, C. lia. }
      split.
      - assert (n * (G * 8796093022208) < q + 1); [|lia].
        apply (proj2 (Z.mul_lt_mono_pos_r P _ _ HP)). lia.
      - assert (q < (n + 1) * (G * 8796093022208)); [|lia].
        apply (proj2 (Z.mul_lt_mono_pos_r P _ _ HP)). lia. }
    assert (Hm1T : m1 <= G * C - 1).
    { destruct Hm1 as [E|[E _]]; [lia|].
      destruct (Z.eq_dec q (G * C - 1)) as [Eq|Ne]; [exfalso|lia].
      specialize (Hhalf eq_refl ltac:(lia)).
      assert (HPS : P <= S).
      { rewrite <- HGP. apply Z.le_trans with (1 * P); [lia|].
        apply Z.mul_le_mono_nonneg_r; lia. }
      unfold M, C in *. rewrite Eq in Hdm. lia. }
    assert (Hm1n : n * (G * 8796093022208) <= m1 <= (n + 1) * (G * 8796093022208))
      by (destruct Hm1 as [E|[E _]]; lia).
    assert (Hm153 : 0 <= m1 <= 2 ^ 53)
      by (change (2 ^ 53) with 9007199254740992; destruct Hm1 as [E|[E _]]; lia).
    rewrite (scaled_finish_exact m1 e1 Hm153 ltac:(lia)). fold Q.
    assert (HGQU : G * 8796093022208 * Q = U) by (rewrite <- HUU, <- HGE; ring).
    assert (HCQ : G * C * Q = 1000 * U) by (rewrite <- HGQU; unfold C; ring).
    assert (Hlo : n * (G * 8796093022208) * Q <= m1 * Q)
      by (apply Z.mul_le_mono_nonneg_r; lia).
    assert (Hhi : m1 * Q <= (n + 1) * (G * 8796093022208) * Q)
      by (apply Z.mul_le_mono_nonneg_r; lia).
    assert (Hlt' : m1 * Q <= (G * C - 1) * Q)
      by (apply Z.mul_le_mono_nonneg_r; lia).
    split; [|split].
    + rewrite <- HGQU. lia.
    + rewrite <- HGQU. lia.
    + rewrite <- HCQ. lia.
Qed.

Lemma scaled_1 :
  Zpos 4503599627370496 * 2 ^ (-52 + 1074) = 1 * 2 ^ 1074.
Proof. vm_compute. reflexivity. Qed.

(** The milliseconds [_format_timestamp] computes: the product with 1000.0
    is rounded before [int] truncates it, so the field is the whole part of
    the exact product of the fraction and 1000 or the integer after it; it
    stays below 1000. *)
Lemma format_timestamp_millis : forall t millis,
  fbounded 1024 971 t -> fsigned false t ->
  (r <- float_rem t (of_Z 1) ;;
   int_of_float (fmul r (of_Z 1000)))%py = Ok millis ->
  scaled t mod 2 ^ 1074 * 1000 / 2 ^ 1074 <= millis /\
  millis <= scaled t mod 2 ^ 1074 * 1000 / 2 ^ 1074 + 1 /\
  millis <= 999.
Proof.
  intros t millis Ht Hs. rewrite of_Z_1.
  destruct (float_rem_exact 4503599627370496 (-52) 1
              ltac:(simpl; lia) ltac:(lia) ltac:(lia) scaled_1 t Ht Hs)
    as (r & Er & Hrb & Hrs & Ev & _).
  destruct (float_rem_finite 1024 971 t false 4503599627370496 (-52) Ht)
    as (r' & Er' & Hr'); [simpl; lia..|].
  rewrite Er in Er'. injection Er' as <-.
  rewrite Er. cbn [bind].
  pose proof (pow2_pos 1074 ltac:(lia)) as HU.
  rewrite Z.mul_1_l in Ev.
  assert (Hlt : scaled r < 2 ^ 1074).
  { rewrite Ev. apply Z.mod_pos_bound. lia. }
  destruct (fmul_1000_scaled r Hrb Hrs Hlt) as (Hlo & Hhi & Hp).
  rewrite Ev in Hlo, Hhi.
  assert (Hpb : fbounded 1024 971 (fmul r (of_Z 1000))).
  { rewrite of_Z_1000.
    eapply fbounded_weaken;
      [| |apply (fmul_bounded 3 (-50) 10 (-43))]; try lia.
    - eapply fbounded_weaken; [| |exact Hr']; simpl; lia.
    - simpl. lia. }
  rewrite int_of_float_scaled;
    [|assumption|rewrite of_Z_1000; apply fmul_nonneg; assumption].
  intros E.
  assert (E' : scaled (fmul r (of_Z 1000)) / 2 ^ 1074 = millis) by congruence.
  rewrite <- E'. split; [|split].
  - apply Z.div_le_lower_bound; lia.
  - apply Z.div_le_upper_bound; lia.
  - assert (scaled (fmul r (of_Z 1000)) / 2 ^ 1074 < 1000); [|lia].
    apply Z.div_lt_upper_bound; lia.
Qed.

(** Both cases occur: at 0.9999 the field is the whole part of the exact
    product, at 0.29 the integer after it. *)
Lemma format_timestamp_millis_cases :
  _format_timestamp (of_decimal 9999 4) = Ok "00:00:00,999"%string /\
  scaled (of_decimal 9999 4) mod 2 ^ 1074 * 1000 / 2 ^ 1074 = 999 /\
  _format_timestamp (of_decimal 29 2) = Ok "00:00:00,290"%string /\
  scaled (of_decimal 29 2) mod 2 ^ 1074 * 1000 / 2 ^ 1074 = 289.
Proof. repeat split; vm_compute; reflexivity. Qed.

Open Scope string_scope.

(* ================================================================== *)
(** * Lines of a text *)

Lemma split_lines_nonempty : forall s, split_lines s <> [].
Proof.
  induction s as [|c s IH]; simpl; [discriminate|].
  destruct (Ascii.eqb c newline); [discriminate|].
  destruct (split_lines s); discriminate.
Qed.

Lemma split_lines_no_newline : forall s,
  no_newline s = true -> split_lines s = [s].
Proof.
  induction s as [|c s IH]; simpl; intros H; [reflexivity|].
  apply andb_prop in H. destruct H as [Hc Hs].
  apply negb_true_iff in Hc. rewrite Hc, (IH Hs). reflexivity.
Qed.

Lemma split_lines_app_nl : forall a b,
  split_lines (a ++ nl ++ b) = (split_lines a ++ split_lines b)%list.
Proof.
  induction a as [|c a IH]; intros b.
  - reflexivity.
  - cbn [append split_lines]. destruct (Ascii.eqb c newline).
    + rewrite IH. reflexivity.
    + rewrite IH. pose proof (split_lines_nonempty a).
      destruct (split_lines a); [contradiction|reflexivity].
Qed.

Lemma no_newline_app : forall a b,
  no_newline (a ++ b) = no_newline a && no_newline b.
Proof.
  induction a as [|c a IH]; intros b; simpl; [reflexivity|].
  rewrite IH. now rewrite andb_assoc.
Qed.

Lemma no_newline_uint : forall d, no_newline (NilEmpty.string_of_uint d) = true.
Proof. induction d; simpl; auto. Qed.

Lemma no_newline_str_of_int : forall z, no_newline (str_of_int z) = true.
Proof.
  intros z. unfold str_of_int, NilZero.string_of_int.
  destruct (Z.to_int z) as [d|d]; unfold NilZero.string_of_uint;
    destruct d; simpl; auto using no_newline_uint.
Qed.

Lemma no_newline_zeros : forall k, no_newline (zeros k) = true.
Proof. induction k; simpl; auto. Qed.

Lemma no_newline_format_0wd : forall w z, no_newline (format_0wd w z) = true.
Proof.
  intros w z. unfold format_0wd, zfill.
  destruct (z <? 0)%Z; cbn [append no_newline];
    rewrite ?no_newline_app, no_newline_zeros, no_newline_str_of_int;
    reflexivity.
Qed.

(* ================================================================== *)
(** * The loop and the records, position by position *)

Lemma records_from_nth : forall segments k s0 i s,
  nth_error segments i = Some s ->
  nth_error (records_from k s0 segments) i =
  Some (mkSRTSegment (k + Z.of_nat i)
          (nth i (s0 :: map seg_end segments) zero)
          (seg_end s) (seg_text s)).
Proof.
  induction segments as [|x rest IH]; intros k s0 i s H.
  - destruct i; discriminate.
  - destruct i as [|i].
    + simpl in H. inversion H; subst. simpl. now rewrite Z.add_0_r.
    + simpl in H. cbn [records_from nth_error].
      rewrite (IH (k + 1)%Z (seg_end x) i s H).
      do 2 f_equal. lia.
Qed.

Lemma Zseq_seq : forall len k,
  Zseq k len = map (fun i => (k + Z.of_nat i)%Z) (seq 0 len).
Proof.
  induction len as [|len IH]; intros k; [reflexivity|].
  cbn [Zseq seq map]. rewrite Z.add_0_r. f_equal.
  rewrite IH, <- seq_shift, map_map. apply map_ext. intros i. lia.
Qed.

Lemma Zseq_one : forall len, Zseq 1 len = map Z.of_nat (seq 1 len).
Proof.
  intros len. rewrite Zseq_seq, <- seq_shift, map_map.
  apply map_ext. intros i. lia.
Qed.

Lemma string_app_assoc : forall a b c : string, (a ++ b) ++ c = a ++ b ++ c.
Proof. induction a; intros; simpl; [reflexivity|now rewrite IHa]. Qed.

Lemma string_app_nil_r : forall a : string, a ++ "" = a.
Proof. induction a; simpl; [reflexivity|now rewrite IHa]. Qed.

(** The shape of every string [_format_timestamp] returns. *)
Lemma format_timestamp_shape : forall t s,
  _format_timestamp t = Ok s ->
  exists hours minutes seconds millis,
    s = format_0wd 2 hours ++ ":" ++ format_0wd 2 minutes ++ ":" ++
        format_0wd 2 seconds ++ "," ++ format_0wd 3 millis.
Proof.
  intros t s. unfold _format_timestamp.
  destruct (float_floor_div t (of_Z 3600)) as [q1|]; [|discriminate].
  cbn [bind]. destruct (int_of_float q1) as [h|]; [|discriminate].
  cbn [bind]. destruct (float_rem t (of_Z 3600)) as [r1|]; [|discriminate].
  cbn [bind]. destruct (float_floor_div r1 (of_Z 60)) as [q2|]; [|discriminate].
  cbn [bind]. destruct (int_of_float q2) as [m|]; [|discriminate].
  cbn [bind]. destruct (float_rem t (of_Z 60)) as [r2|]; [|discriminate].
  cbn [bind]. destruct (int_of_float r2) as [sec|]; [|discriminate].
  cbn [bind]. destruct (float_rem t (of_Z 1)) as [r3|]; [|discriminate].
  cbn [bind]. destruct (int_of_float (fmul r3 (of_Z 1000))) as [ms|];
    [|discriminate].
  cbn [bind]. intros H. inversion H. now exists h, m, sec, ms.
Qed.

Lemma format_timestamp_no_newline : forall t s,
  _format_timestamp t = Ok s -> no_newline s = true.
Proof.
  intros t s H.
  destruct (format_timestamp_shape t s H) as (h & m & sec & ms & ->).
  rewrite !no_newline_app, !no_newline_format_0wd. reflexivity.
Qed.

(** The lines of a block followed by more text; its timing line holds the
    arrow, so it is not empty. *)
Lemma to_srt_string_timing : forall r s rest,
  to_srt_string r = Ok s ->
  exists timing,
    timing <> "" /\
    split_lines (s ++ rest) =
    ([str_of_int (index r); timing] ++ split_lines (text r) ++
     split_lines rest)%list.
Proof.
  intros r s rest. unfold to_srt_string.
  destruct (_format_timestamp (start_time r)) as [st|] eqn:Est; [|discriminate].
  destruct (_format_timestamp (end_time r)) as [et|] eqn:Eet; [|discriminate].
  cbn [bind]. intros H.
  assert (Hs : s = str_of_int (index r) ++ nl ++
                   (st ++ " --> " ++ et) ++ nl ++ text r ++ nl).
  { injection H as <-. rewrite !string_app_assoc. reflexivity. }
  assert (Hn : no_newline (st ++ " --> " ++ et) = true).
  { rewrite !no_newline_app, (format_timestamp_no_newline _ _ Est),
      (format_timestamp_no_newline _ _ Eet). reflexivity. }
  exists (st ++ " --> " ++ et). split; [destruct st; discriminate|].
  revert Hs Hn. generalize (st ++ " --> " ++ et). intros timing -> Hn.
  rewrite !string_app_assoc, !split_lines_app_nl.
  rewrite (split_lines_no_newline _ (no_newline_str_of_int _)).
  rewrite (split_lines_no_newline _ Hn). reflexivity.
Qed.

(** On anything but a finite number the conversion to [int] raises. *)
Lemma format_timestamp_not_finite : forall t,
  is_finite t = false ->
  _format_timestamp t =
  Raise (ValueError "cannot convert float NaN to integer").
Proof. intros [s|[]| |s m e] H; try discriminate; reflexivity. Qed.

(** A positive difference stays non-negative along increasing ends. *)
Lemma deltas_from_nonneg : forall segments s,
  valid s = true -> all_valid segments = true ->
  increasing_from s segments = true ->
  Forall (fun d => fleb zero d = true) (deltas_from s segments).
Proof.
  induction segments as [|x rest IH]; intros s Hs Hv Hi; [constructor|].
  cbn [all_valid forallb] in Hv. apply andb_prop in Hv. destruct Hv as [Hx Hv].
  cbn [increasing_from] in Hi. apply andb_prop in Hi. destruct Hi as [Hlt Hi].
  cbn [deltas_from]. constructor.
  - apply fsub_increasing_nonneg; assumption.
  - apply IH; assumption.
Qed.

Lemma fsub_zero_nonneg : forall x,
  fleb zero x = true -> fleb zero (fsub x zero) = true.
Proof. intros [s|s| |s m e] H; try discriminate; try assumption.
  destruct s; reflexivity.
Qed.

(** A call with the two arguments of the definition runs the body. *)
Lemma call_transcribe_audio_with_two : forall P audio_file_path model_size w,
  call_positional (transcribe_audio_def P) [audio_file_path; model_size] w =
  transcribe_audio P audio_file_path model_size w.
Proof. reflexivity. Qed.

(* ================================================================== *)
(** * The claims *)

(** C1.  Every call of [process_audio_file] raises [TypeError] before the
    engine is invoked and before any file is written: the call inside it
    passes three positional arguments to [transcribe_audio], which takes
    two.  The world is returned unchanged. *)
Theorem process_audio_file_raises_TypeError :
  forall P audio_file_path model_size output_dir w,
    process_audio_file P audio_file_path model_size output_dir w =
    (Raise (TypeError
       "transcribe_audio() takes 2 positional arguments but 3 were given"),
     w).
Proof. intros. reflexivity. Qed.

(** C2, as stated, fails: for the ends 5.0 then 3.0 the accumulator returns
    normally, and the second record runs from 5.0 back to 3.0. *)
Lemma backwards_segments_accepted :
  nth_error backwards_segments 1 = Some (mkSegment (of_Z 3) "b") /\
  fltb (of_Z 3) (running_start_at backwards_segments 1) = true /\
  fst (transcribe_audio (fixed_engine backwards_segments (of_Z 5))
         "a.wav" "tiny.en" empty_world) =
  Ok ("a b",
      [mkSRTSegment 1 zero (of_Z 5) "a";
       mkSRTSegment 2 (of_Z 5) (of_Z 3) "b"]) /\
  fltb (end_time (mkSRTSegment 2 (of_Z 5) (of_Z 3) "b"))
       (start_time (mkSRTSegment 2 (of_Z 5) (of_Z 3) "b")) = true.
Proof. repeat split; reflexivity. Qed.

(** C2, amended.  The accumulator makes no monotonicity check: when the
    segment at position [i] ends before the running start, [transcribe_audio]
    still returns normally, and its record at position [i] has that running
    start as [start_time], the segment's end as [end_time], hence
    [end_time < start_time]. *)
Theorem non_monotonic_segment_recorded :
  forall P audio_file_path model_size w i s,
    nth_error (fst (engine P audio_file_path model_size)) i = Some s ->
    fltb (seg_end s)
         (running_start_at (fst (engine P audio_file_path model_size)) i)
      = true ->
    exists transcript records r,
      fst (transcribe_audio P audio_file_path model_size w) =
        Ok (transcript, records) /\
      nth_error records i = Some r /\
      index r = (Z.of_nat i + 1)%Z /\
      start_time r =
        running_start_at (fst (engine P audio_file_path model_size)) i /\
      end_time r = seg_end s /\
      text r = seg_text s /\
      fltb (end_time r) (start_time r) = true.
Proof.
  intros P a m w i s Hn Hlt.
  eexists _, _, _. split; [apply transcribe_audio_returns|].
  split; [apply records_from_nth; exact Hn|].
  cbn [index start_time end_time text]. unfold running_start_at in *.
  repeat split; try assumption. lia.
Qed.

Lemma non_monotonic_segment_recorded_witness :
  exists transcript records r,
    fst (transcribe_audio (fixed_engine backwards_segments (of_Z 5))
           "a.wav" "tiny.en" empty_world) = Ok (transcript, records) /\
    nth_error records 1 = Some r /\
    index r = 2%Z /\
    start_time r = of_Z 5 /\
    end_time r = of_Z 3 /\
    text r = "b" /\
    fltb (end_time r) (start_time r) = true.
Proof.
  exact (non_monotonic_segment_recorded
           (fixed_engine backwards_segments (of_Z 5))
           "a.wav" "tiny.en" empty_world 1 (mkSegment (of_Z 3) "b")
           eq_refl eq_refl).
Defined.

(** C3, as stated, fails: concatenating the blocks of two cues puts the
    second cue's index line directly after the first cue's text line; the
    only empty line is the one after the last newline of the document. *)
Lemma concatenated_blocks_lines :
  exists block_one block_two,
    to_srt_string cue_one = Ok block_one /\
    to_srt_string cue_two = Ok block_two /\
    split_lines (block_one ++ block_two) =
      ["1"; "00:00:00,000 --> 00:00:02,500"; "Hi";
       "2"; "00:00:02,500 --> 00:00:04,000"; "there"; ""] /\
    split_lines (block_one ++ block_two) <>
      ["1"; "00:00:00,000 --> 00:00:02,500"; "Hi"; "";
       "2"; "00:00:02,500 --> 00:00:04,000"; "there"; ""].
Proof.
  eexists _, _. split; [vm_compute; reflexivity|].
  split; [vm_compute; reflexivity|].
  split; [vm_compute; reflexivity|]. vm_compute. discriminate.
Qed.

(** C3, amended.  When the text of the first record contains no newline,
    the concatenation of the blocks of two records has no blank line
    between the first cue's text line and the second cue's index line: its
    lines are the first index, the first timing line, the first text, then
    at once the second index, the second timing line, the lines of the
    second text, and the empty remainder after the final newline.  Neither
    timing line is empty. *)
Theorem concatenated_blocks_have_no_blank_line :
  forall r1 r2 s1 s2,
    no_newline (text r1) = true ->
    to_srt_string r1 = Ok s1 ->
    to_srt_string r2 = Ok s2 ->
    exists timing1 timing2,
      timing1 <> "" /\ timing2 <> "" /\
      split_lines (s1 ++ s2) =
      ([str_of_int (index r1); timing1; text r1;
        str_of_int (index r2); timing2] ++ split_lines (text r2) ++
       [""])%list.
Proof.
  intros r1 r2 s1 s2 Hn H1 H2.
  destruct (to_srt_string_timing r1 s1 s2 H1) as (t1 & N1 & E1).
  destruct (to_srt_string_timing r2 s2 "" H2) as (t2 & N2 & E2).
  rewrite string_app_nil_r in E2.
  exists t1, t2. split; [assumption|]. split; [assumption|].
  rewrite E1, E2, (split_lines_no_newline _ Hn). reflexivity.
Qed.

Lemma concatenated_blocks_have_no_blank_line_witness :
  exists timing1 timing2,
    timing1 <> "" /\ timing2 <> "" /\
    split_lines
      ((str_of_int 1 ++ nl ++ "00:00:00,000 --> 00:00:02,500" ++ nl ++
        "Hi" ++ nl) ++
       (str_of_int 2 ++ nl ++ "00:00:02,500 --> 00:00:04,000" ++ nl ++
        "there" ++ nl)) =
    ([str_of_int (index cue_one); timing1; text cue_one;
      str_of_int (index cue_two); timing2] ++ split_lines (text cue_two) ++
     [""])%list.
Proof.
  apply (concatenated_blocks_have_no_blank_line cue_one cue_two);
    vm_compute; reflexivity.
Defined.

(** C4, as stated, fails: for the negative times -1.0, -0.5 and -1e-300
    the function returns a string. *)
Lemma format_timestamp_accepts_negative :
  fltb (SFopp (of_Z 1)) zero = true /\
  _format_timestamp (SFopp (of_Z 1)) = Ok "-1:59:59,000" /\
  _format_timestamp (SFopp (of_decimal 5 1)) = Ok "-1:59:59,500" /\
  _format_timestamp (SFopp (fdiv (of_Z 1) (of_Z (10 ^ 300)))) =
    Ok "-1:60:60,1000".
Proof. repeat split; vm_compute; reflexivity. Qed.

(** C4, amended.  [_format_timestamp] makes no sign check: for every
    negative finite time it raises nothing and returns a string made of
    the four formatted fields (the results of its floor divisions,
    remainders and product on that negative value). *)
Theorem format_timestamp_negative_returns :
  forall t,
    valid t = true -> is_finite t = true -> fltb t zero = true ->
    exists hours minutes seconds millis,
      _format_timestamp t =
        Ok (format_0wd 2 hours ++ ":" ++ format_0wd 2 minutes ++ ":" ++
            format_0wd 2 seconds ++ "," ++ format_0wd 3 millis).
Proof.
  intros t Hv Hf _.
  destruct (format_timestamp_finite t (valid_fbounded t Hv Hf))
    as (h & m & s & ms & _ & _ & _ & _ & E & _).
  now exists h, m, s, ms.
Qed.

Lemma format_timestamp_negative_returns_witness :
  exists hours minutes seconds millis,
    _format_timestamp (SFopp (of_Z 1)) =
      Ok (format_0wd 2 hours ++ ":" ++ format_0wd 2 minutes ++ ":" ++
          format_0wd 2 seconds ++ "," ++ format_0wd 3 millis).
Proof.
  exact (format_timestamp_negative_returns (SFopp (of_Z 1))
           eq_refl eq_refl eq_refl).
Defined.

(** C5, as stated, fails: the fields are computed in binary64.  At 0.29
    the product [(t % 1) * 1000] rounds up to 290.0, so the milliseconds
    are 290, while the time's value is below 0.29 and the floor of its
    thousandfold is 289.  At 1e22 the hours are 2777777777777777664, while
    the floor of [t / 3600] is 2777777777777777777. *)
Lemma format_timestamp_not_the_exact_floor :
  _format_timestamp (of_decimal 29 2) = Ok "00:00:00,290" /\
  (scaled (of_decimal 29 2) mod 2 ^ 1074 * 1000 / 2 ^ 1074 = 289)%Z /\
  _format_timestamp (of_Z (10 ^ 22)) = Ok "2777777777777777664:46:40,000" /\
  (scaled (of_Z (10 ^ 22)) / (3600 * 2 ^ 1074) = 2777777777777777777)%Z.
Proof. repeat split; vm_compute; reflexivity. Qed.

(** C5, amended.  For every non-negative finite time [t],
    [_format_timestamp] returns the four fields separated by [:], [:] and
    [,], each padded with zeros to 2, 2, 2 and 3 digits and none negative.
    With [whole] the floor of [t]: the seconds are [whole mod 60] and the
    minutes [(whole mod 3600) / 60], for every [t]; the hours are
    [whole / 3600] below 2^53 seconds; the milliseconds, the truncated
    binary64 product [(t % 1) * 1000], are the floor of the exact
    thousandfold of the fraction of [t] or that floor plus one, and at
    most 999.  In particular 0.0, 3661.5, 59.999 and 0.9999 give
    00:00:00,000, 01:01:01,500, 00:00:59,999 and milliseconds 999. *)
Theorem format_timestamp_nonneg :
  forall t,
    valid t = true -> is_finite t = true -> fleb zero t = true ->
    (exists whole hours minutes seconds millis,
       int_of_float t = Ok whole /\
       whole = (scaled t / 2 ^ 1074)%Z /\
       (q <- float_floor_div t (of_Z 3600) ;; int_of_float q)%py
         = Ok hours /\
       (r <- float_rem t (of_Z 3600) ;;
        q <- float_floor_div r (of_Z 60) ;; int_of_float q)%py
         = Ok minutes /\
       (r <- float_rem t (of_Z 60) ;; int_of_float r)%py = Ok seconds /\
       (r <- float_rem t (of_Z 1) ;;
        int_of_float (fmul r (of_Z 1000)))%py = Ok millis /\
       (0 <= hours /\ 0 <= minutes <= 59 /\ 0 <= seconds <= 59 /\
        0 <= millis <= 999)%Z /\
       seconds = (whole mod 60)%Z /\
       minutes = (whole mod 3600 / 60)%Z /\
       ((whole < 2 ^ 53)%Z -> hours = (whole / 3600)%Z) /\
       (scaled t mod 2 ^ 1074 * 1000 / 2 ^ 1074 <= millis)%Z /\
       (millis <= scaled t mod 2 ^ 1074 * 1000 / 2 ^ 1074 + 1)%Z /\
       _format_timestamp t =
         Ok (zfill 2 (str_of_int hours) ++ ":" ++
             zfill 2 (str_of_int minutes) ++ ":" ++
             zfill 2 (str_of_int seconds) ++ "," ++
             zfill 3 (str_of_int millis))) /\
    _format_timestamp (of_decimal 0 1) = Ok "00:00:00,000" /\
    _format_timestamp (of_decimal 36615 1) = Ok "01:01:01,500" /\
    _format_timestamp (of_decimal 59999 3) = Ok "00:00:59,999" /\
    _format_timestamp (of_decimal 9999 4) = Ok "00:00:00,999".
Proof.
  intros t Hv Hf Hle. split; [|repeat split; vm_compute; reflexivity].
  pose proof (valid_fbounded t Hv Hf) as Hb.
  destruct (format_timestamp_finite t Hb)
    as (h & m & s & ms & Eh & Em & Es & Ems & E & Hs).
  assert (Hsign : fsigned false t).
  { destruct t as [sg|sg| |sg mt et]; try discriminate; try exact I.
    destruct sg; [discriminate|reflexivity]. }
  destruct (Hs Hsign) as (H1 & H2 & H3 & H4).
  destruct (int_of_float_finite _ _ t Hb) as (whole & Ew).
  destruct (format_timestamp_fields_exact t whole Hb Hsign Ew)
    as (Xs & Xm & Xh).
  pose proof (format_timestamp_millis t ms Hb Hsign Ems) as (Hlo & Hhi & Hms).
  assert (EN : whole = (scaled t / 2 ^ 1074)%Z).
  { pose proof (int_of_float_scaled t Hb Hsign) as H. congruence. }
  assert (Es' : s = (whole mod 60)%Z) by congruence.
  assert (Em' : m = (whole mod 3600 / 60)%Z) by congruence.
  exists whole, h, m, s, ms.
  split; [assumption|]. split; [assumption|].
  do 4 (split; [assumption|]).
  split.
  { pose proof (Z.mod_pos_bound whole 60 ltac:(lia)).
    pose proof (Z.mod_pos_bound (whole mod 3600) 60 ltac:(lia)).
    pose proof (Z.mod_pos_bound whole 3600 ltac:(lia)).
    assert ((whole mod 3600 / 60 < 60)%Z)
      by (apply Z.div_lt_upper_bound; lia).
    lia. }
  split; [assumption|]. split; [assumption|].
  split; [intros Hlt; specialize (Xh Hlt); congruence|].
  split; [assumption|]. split; [assumption|].
  rewrite E. unfold format_0wd.
  replace (h <? 0)%Z with false by (symmetry; apply Z.ltb_ge; assumption).
  replace (m <? 0)%Z with false by (symmetry; apply Z.ltb_ge; assumption).
  replace (s <? 0)%Z with false by (symmetry; apply Z.ltb_ge; assumption).
  replace (ms <? 0)%Z with false by (symmetry; apply Z.ltb_ge; assumption).
  reflexivity.
Qed.

Lemma format_timestamp_nonneg_witness :
  (exists whole hours minutes seconds millis,
     int_of_float (of_decimal 59999 3) = Ok whole /\
     whole = (scaled (of_decimal 59999 3) / 2 ^ 1074)%Z /\
     (q <- float_floor_div (of_decimal 59999 3) (of_Z 3600) ;;
      int_of_float q)%py = Ok hours /\
     (r <- float_rem (of_decimal 59999 3) (of_Z 3600) ;;
      q <- float_floor_div r (of_Z 60) ;; int_of_float q)%py = Ok minutes /\
     (r <- float_rem (of_decimal 59999 3) (of_Z 60) ;; int_of_float r)%py
       = Ok seconds /\
     (r <- float_rem (of_decimal 59999 3) (of_Z 1) ;;
      int_of_float (fmul r (of_Z 1000)))%py = Ok millis /\
     (0 <= hours /\ 0 <= minutes <= 59 /\ 0 <= seconds <= 59 /\
      0 <= millis <= 999)%Z /\
     seconds = (whole mod 60)%Z /\
     minutes = (whole mod 3600 / 60)%Z /\
     ((whole < 2 ^ 53)%Z -> hours = (whole / 3600)%Z) /\
     (scaled (of_decimal 59999 3) mod 2 ^ 1074 * 1000 / 2 ^ 1074
        <= millis)%Z /\
     (millis <= scaled (of_decimal 59999 3) mod 2 ^ 1074 * 1000 / 2 ^ 1074
                + 1)%Z /\
     _format_timestamp (of_decimal 59999 3) =
       Ok (zfill 2 (str_of_int hours) ++ ":" ++
           zfill 2 (str_of_int minutes) ++ ":" ++
           zfill 2 (str_of_int seconds) ++ "," ++
           zfill 3 (str_of_int millis))) /\
  _format_timestamp (of_decimal 0 1) = Ok "00:00:00,000" /\
  _format_timestamp (of_decimal 36615 1) = Ok "01:01:01,500" /\
  _format_timestamp (of_decimal 59999 3) = Ok "00:00:59,999" /\
  _format_timestamp (of_decimal 9999 4) = Ok "00:00:00,999".
Proof.
  apply (format_timestamp_nonneg (of_decimal 59999 3));
    vm_compute; reflexivity.
Defined.

(** C6.  The records [transcribe_audio] returns cover contiguous spans:
    their end times are the segments' end times, in order, and their start
    times are 0.0 followed by the end times of the records before them. *)
Theorem time_contiguity :
  forall P audio_file_path model_size w,
    exists transcript records,
      fst (transcribe_audio P audio_file_path model_size w) =
        Ok (transcript, records) /\
      map end_time records =
        map seg_end (fst (engine P audio_file_path model_size)) /\
      map start_time records =
        firstn (List.length records) (zero :: map end_time records).
Proof.
  intros P a m w. eexists _, _.
  split; [apply transcribe_audio_returns|].
  rewrite records_from_end, records_from_start, records_from_length.
  split; reflexivity.
Qed.

(** C7.  For N segments [transcribe_audio] returns exactly N records,
    whose indices are 1, 2, ..., N in this order; without segments the
    record list is empty and the transcript is the empty string. *)
Theorem index_contiguity :
  forall P audio_file_path model_size w duration,
    (exists transcript records,
       fst (transcribe_audio P audio_file_path model_size w) =
         Ok (transcript, records) /\
       List.length records =
         List.length (fst (engine P audio_file_path model_size)) /\
       map index records =
         map Z.of_nat
           (seq 1 (List.length (fst (engine P audio_file_path model_size)))))
    /\
    fst (transcribe_audio (fixed_engine [] duration)
           audio_file_path model_size w) = Ok ("", []).
Proof.
  intros P a m w duration. split; [|reflexivity].
  eexists _, _. split; [apply transcribe_audio_returns|].
  rewrite records_from_length, records_from_index, Zseq_one.
  split; reflexivity.
Qed.

(** C8, as stated, fails twice.  For the ends 0.2 and 0.9 (strictly
    increasing, reported duration 0.9) the accumulated progress is
    0.8999999999999999, not the last record's end 0.9; and for one segment
    ending at 3600.0 with a reported duration of 1.0 the accumulated
    progress exceeds the duration by 3599 seconds. *)
Lemma progress_differs_from_last_end :
  strictly_increasing tenths_segments = true /\
  n (pbar (transcribe_loop tenths_segments (of_decimal 9 1))) =
    S754_finite false 8106479329266892 (-53) /\
  of_decimal 9 1 = S754_finite false 8106479329266893 (-53) /\
  feqb (n (pbar (transcribe_loop tenths_segments (of_decimal 9 1))))
       (of_decimal 9 1) = false /\
  strictly_increasing [mkSegment (of_Z 3600) "a"] = true /\
  fsub (n (pbar (transcribe_loop [mkSegment (of_Z 3600) "a"] (of_Z 1))))
       (total (pbar (transcribe_loop [mkSegment (of_Z 3600) "a"] (of_Z 1))))
    = of_Z 3599.
Proof. repeat split; vm_compute; reflexivity. Qed.

(** C8, amended.  For every sequence of segments whose ends are binary64
    numbers starting at or above 0.0 and strictly increasing, the loop
    emits one progress delta per segment, the segment's end minus the
    running start, and each delta is non-negative.  The accumulated
    progress is the binary64 sum of these deltas taken in order, and the
    reported duration is only the total of the bar. *)
Theorem progress_deltas_nonneg :
  forall segments duration,
    all_valid segments = true ->
    nonneg_increasing segments = true ->
    updates (pbar (transcribe_loop segments duration)) =
      deltas_from zero segments /\
    Forall (fun d => fleb zero d = true)
           (updates (pbar (transcribe_loop segments duration))) /\
    n (pbar (transcribe_loop segments duration)) =
      fold_left fadd (updates (pbar (transcribe_loop segments duration)))
                zero /\
    total (pbar (transcribe_loop segments duration)) = duration.
Proof.
  intros segments duration Hv Hi.
  rewrite loop_updates, loop_n, loop_total.
  repeat split.
  destruct segments as [|x rest]; [constructor|].
  cbn [all_valid forallb] in Hv. apply andb_prop in Hv. destruct Hv as [Hx Hv].
  cbn [nonneg_increasing] in Hi. apply andb_prop in Hi.
  destruct Hi as [H0 Hi].
  cbn [deltas_from]. constructor.
  - apply fsub_zero_nonneg. assumption.
  - apply deltas_from_nonneg; assumption.
Qed.

Lemma progress_deltas_nonneg_witness :
  updates (pbar (transcribe_loop tenths_segments (of_decimal 9 1))) =
    deltas_from zero tenths_segments /\
  Forall (fun d => fleb zero d = true)
         (updates (pbar (transcribe_loop tenths_segments (of_decimal 9 1)))) /\
  n (pbar (transcribe_loop tenths_segments (of_decimal 9 1))) =
    fold_left fadd
      (updates (pbar (transcribe_loop tenths_segments (of_decimal 9 1))))
      zero /\
  total (pbar (transcribe_loop tenths_segments (of_decimal 9 1))) =
    of_decimal 9 1.
Proof.
  exact (progress_deltas_nonneg tenths_segments (of_decimal 9 1)
           eq_refl eq_refl).
Defined.

(** C9.  The transcript [transcribe_audio] returns is the texts of the
    segments, in the order of arrival, joined by single spaces; for the
    texts Hello and world. it is Hello world. *)
Theorem transcript_space_joined :
  forall P audio_file_path model_size w end_one end_two duration,
    (exists records,
       fst (transcribe_audio P audio_file_path model_size w) =
         Ok (join " "
               (map seg_text (fst (engine P audio_file_path model_size))),
             records)) /\
    (exists records,
       fst (transcribe_audio
              (fixed_engine [mkSegment end_one "Hello";
                             mkSegment end_two "world."] duration)
              audio_file_path model_size w) =
         Ok ("Hello world.", records)).
Proof.
  intros. split; eexists; [apply transcribe_audio_returns|reflexivity].
Qed.

(** C10.  For the single segment ending at 2.5 with the text Hi,
    [transcribe_audio] returns one record, with index 1 and start 0.0,
    and [to_srt_string] renders it as the three lines 1,
    00:00:00,000 --> 00:00:02,500 and Hi, each closed by a newline. *)
Theorem srt_block_single_segment :
  forall audio_file_path model_size w duration,
    exists transcript r,
      fst (transcribe_audio
             (fixed_engine [mkSegment (of_decimal 25 1) "Hi"] duration)
             audio_file_path model_size w) = Ok (transcript, [r]) /\
      index r = 1%Z /\
      start_time r = zero /\
      to_srt_string r =
        Ok ("1" ++ nl ++ "00:00:00,000 --> 00:00:02,500" ++ nl ++
            "Hi" ++ nl).
Proof.
  intros. eexists _, _. split; [reflexivity|].
  repeat split; vm_compute; reflexivity.
Qed.

(* ================================================================== *)
(** * Further properties of the script *)

(** ** Helpers *)

Lemma records_from_text : forall segments k s,
  map text (records_from k s segments) = map seg_text segments.
Proof. induction segments; intros; simpl; congruence. Qed.

Lemma format_timestamp_returns : forall t,
  valid t = true -> is_finite t = true -> exists s, _format_timestamp t = Ok s.
Proof.
  intros t Hv Hf.
  destruct (format_timestamp_finite t (valid_fbounded t Hv Hf))
    as (h & m & s & ms & _ & _ & _ & _ & E & _).
  eauto.
Qed.


Lemma below_by_cases : forall (f : Z -> bool) (bound : nat),
  forallb (fun k => f (Z.of_nat k)) (seq 0 bound) = true ->
  forall n, (0 <= n < Z.of_nat bound)%Z -> f n = true.
Proof.
  intros f bound H n Hn. rewrite forallb_forall in H.
  rewrite <- (Z2Nat.id n) by lia. apply H. apply in_seq. lia.
Qed.

Lemma zfill_two_digits : forall n, (0 <= n <= 99)%Z ->
  zfill 2 (str_of_int n) = two_digits n.
Proof.
  intros n Hn. apply String.eqb_eq.
  apply (below_by_cases
           (fun k => String.eqb (zfill 2 (str_of_int k)) (two_digits k)) 100);
    [vm_compute; reflexivity|lia].
Qed.

Lemma zfill_three_digits : forall n, (0 <= n <= 999)%Z ->
  zfill 3 (str_of_int n) = three_digits n.
Proof.
  intros n Hn. apply String.eqb_eq.
  apply (below_by_cases
           (fun k => String.eqb (zfill 3 (str_of_int k)) (three_digits k))
           1000);
    [vm_compute; reflexivity|lia].
Qed.

Lemma length_app : forall a b : string,
  String.length (a ++ b) = (String.length a + String.length b)%nat.
Proof. induction a; intros; simpl; [reflexivity|now rewrite IHa]. Qed.

Lemma str_of_int_three_characters : forall n, (100 <= n)%Z ->
  (3 <= String.length (str_of_int n))%nat.
Proof.
  intros [|p|p] Hn; try lia.
  unfold str_of_int. cbn [Z.to_int].
  pose proof (DecimalPos.Unsigned.of_to p) as H.
  destruct (Pos.to_uint p) as [|d|d|d|d|d|d|d|d|d|d];
    [discriminate| | | | | | | | | |];
    (destruct d as [|d|d|d|d|d|d|d|d|d|d];
     [cbn in H; first [discriminate|injection H as H; lia]| | | | | | | | | |]);
    (destruct d as [|d|d|d|d|d|d|d|d|d|d];
     [cbn in H; first [discriminate|injection H as H; lia]| | | | | | | | | |]);
    cbn; lia.
Qed.

Open Scope Z_scope.

(** The four fields of a non-negative finite time, in terms of its whole
    seconds. *)
Lemma format_timestamp_fields : forall t whole,
  valid t = true -> is_finite t = true -> fleb zero t = true ->
  int_of_float t = Ok whole ->
  exists hours millis,
    0 <= whole /\ whole = scaled t / 2 ^ 1074 /\
    0 <= hours /\ (whole < 2 ^ 53 -> hours = whole / 3600) /\
    (q <- float_floor_div t (of_Z 3600) ;; int_of_float q)%py = Ok hours /\
    (r <- float_rem t (of_Z 1) ;;
     int_of_float (fmul r (of_Z 1000)))%py = Ok millis /\
    scaled t mod 2 ^ 1074 * 1000 / 2 ^ 1074 <= millis /\
    millis <= scaled t mod 2 ^ 1074 * 1000 / 2 ^ 1074 + 1 /\
    0 <= millis <= 999 /\
    _format_timestamp t =
      Ok (zfill 2 (str_of_int hours) ++ ":" ++
          two_digits (whole mod 3600 / 60) ++ ":" ++
          two_digits (whole mod 60) ++ "," ++ three_digits millis)%string.
Proof.
  intros t whole Hv Hf Hle Ew.
  pose proof (valid_fbounded t Hv Hf) as Hb.
  assert (Hsign : fsigned false t).
  { destruct t as [sg|sg| |sg mt et]; try discriminate; try exact I.
    destruct sg; [discriminate|reflexivity]. }
  destruct (format_timestamp_finite t Hb)
    as (h & m & s & ms & Eh & Em & Es & Ems & E & Hs).
  destruct (Hs Hsign) as (H1 & H2 & H3 & H4).
  destruct (format_timestamp_fields_exact t whole Hb Hsign Ew)
    as (Xs & Xm & Xh).
  pose proof (format_timestamp_millis t ms Hb Hsign Ems) as (Hlo & Hhi & Hms).
  assert (EN : whole = scaled t / 2 ^ 1074).
  { pose proof (int_of_float_scaled t Hb Hsign) as H. congruence. }
  assert (Es' : s = whole mod 60) by congruence.
  assert (Em' : m = whole mod 3600 / 60) by congruence.
  assert (Hw : 0 <= whole).
  { rewrite EN. apply Z.div_pos; [|apply pow2_pos; lia].
    destruct t as [sg|sg| |sg mt et];
      [cbn [scaled]; lia|discriminate|discriminate|].
    simpl in Hsign. subst sg. destruct Hb as (_ & He & _).
    pose proof (pow2_pos (et + 1074) ltac:(lia)).
    cbn [scaled cond_Zopp]. nia. }
  exists h, ms.
  split; [assumption|]. split; [assumption|]. split; [assumption|].
  split; [intros Hlt; specialize (Xh Hlt); congruence|].
  split; [assumption|]. split; [assumption|].
  split; [assumption|]. split; [assumption|]. split; [lia|].
  rewrite E. unfold format_0wd.
  replace (h <? 0) with false by (symmetry; apply Z.ltb_ge; assumption).
  replace (m <? 0) with false by (symmetry; apply Z.ltb_ge; assumption).
  replace (s <? 0) with false by (symmetry; apply Z.ltb_ge; assumption).
  replace (ms <? 0) with false by (symmetry; apply Z.ltb_ge; assumption).
  pose proof (Z.mod_pos_bound whole 60 ltac:(lia)).
  pose proof (Z.mod_pos_bound whole 3600 ltac:(lia)).
  assert (whole mod 3600 / 60 < 60) by (apply Z.div_lt_upper_bound; lia).
  rewrite (zfill_two_digits m), (zfill_two_digits s), (zfill_three_digits ms)
    by lia.
  rewrite Es', Em'. reflexivity.
Qed.

Lemma fadd_exact : forall x y,
  fbounded 1024 971 x -> fbounded 1024 971 y ->
  representable (Z.abs (scaled x + scaled y)) ->
  scaled (fadd x y) = scaled x + scaled y /\
  fbounded 1024 971 (fadd x y).
Proof.
  intros [sx|sx| |sx mx ex] [sy|sy| |sy my ey] Hx Hy Hr; try contradiction.
  - simpl. destruct sx, sy; simpl; auto.
  - cbn [fadd SFadd]. split; [cbn [scaled]; lia|exact Hy].
  - cbn [fadd SFadd]. split; [cbn [scaled]; lia|exact Hx].
  - unfold fadd, SFadd.
    destruct Hx as (_ & Hex & _), Hy as (_ & Hey & _).
    set (ez := Z.min ex ey).
    destruct (shl_align_spec mx ex ez) as [_ Hmx].
    destruct (shl_align_spec my ey ez) as [_ Hmy].
    replace (Z.min ex ez) with ez in Hmx by (unfold ez; lia).
    replace (Z.min ey ez) with ez in Hmy by (unfold ez; lia).
    rewrite Hmx, Hmy.
    set (D := cond_Zopp sx (Zpos mx * 2 ^ (ex - ez)) +
              cond_Zopp sy (Zpos my * 2 ^ (ey - ez))).
    assert (HD : D * 2 ^ (ez + 1074) =
                 scaled (S754_finite sx mx ex) + scaled (S754_finite sy my ey)).
    { unfold D. rewrite Z.mul_add_distr_r.
      rewrite !aligned_scaled by (unfold ez; lia). reflexivity. }
    pose proof (pow2_pos (ez + 1074) ltac:(unfold ez; lia)) as H2.
    destruct (binary_normalize_exact D ez false ltac:(unfold ez; lia))
      as (E1 & E2 & _).
    { rewrite <- HD in Hr. rewrite Z.abs_mul in Hr.
      rewrite (Z.abs_eq (2 ^ (ez + 1074))) in Hr by lia. exact Hr. }
    rewrite E1, HD. split; [reflexivity|assumption].
Qed.

Lemma representable_on_grid : forall k z,
  0 <= k <= 1074 -> Z.abs z < 2 ^ 53 ->
  representable (Z.abs (z * 2 ^ (1074 - k))).
Proof.
  intros k z Hk Hz.
  pose proof (pow2_pos (1074 - k) ltac:(lia)) as HG.
  exists (Z.abs z), (- k). split; [lia|].
  split; [apply Zdigits2_le_of_lt; lia|]. split; [lia|].
  rewrite Z.abs_mul, (Z.abs_eq (2 ^ (1074 - k))) by lia.
  f_equal. f_equal. lia.
Qed.

Lemma on_grid_spec : forall k x, on_grid k x = true ->
  0 <= k <= 1074 ->
  fbounded 1024 971 x /\
  exists z, 0 <= z < 2 ^ 53 /\ scaled x = z * 2 ^ (1074 - k).
Proof.
  intros k x H Hk. unfold on_grid in H.
  repeat (apply andb_prop in H; destruct H as [H ?]).
  pose proof (pow2_pos (1074 - k) ltac:(lia)) as HG.
  split; [apply valid_fbounded; assumption|].
  exists (scaled x / 2 ^ (1074 - k)).
  apply Z.leb_le in H2. apply Z.eqb_eq in H1. apply Z.ltb_lt in H0.
  pose proof (Z.div_mod (scaled x) (2 ^ (1074 - k)) ltac:(lia)) as Hdm.
  rewrite H1 in Hdm.
  split; [split|lia].
  - apply Z.div_pos; lia.
  - apply Z.div_lt_upper_bound; lia.
Qed.

Lemma last_cons : forall (A : Type) (a d : A) (l : list A),
  last (a :: l) d = last l a.
Proof.
  intros A a d l. revert a d.
  induction l as [|b l IH]; intros a d; [reflexivity|].
  change (last (a :: b :: l) d) with (last (b :: l) d).
  now rewrite !IH.
Qed.

Lemma fold_deltas_exact : forall k segments s acc,
  0 <= k <= 1074 ->
  forallb (fun x => on_grid k (seg_end x)) segments = true ->
  fbounded 1024 971 s -> fbounded 1024 971 acc ->
  (exists z, 0 <= z < 2 ^ 53 /\ scaled s = z * 2 ^ (1074 - k)) ->
  scaled acc = scaled s ->
  fbounded 1024 971 (fold_left fadd (deltas_from s segments) acc) /\
  scaled (fold_left fadd (deltas_from s segments) acc) =
  scaled (last (map seg_end segments) s).
Proof.
  intros k segments. induction segments as [|x rest IH];
    intros s acc Hk Hg Hs Hacc (zs & Hzs & Es) Ea.
  - simpl. auto.
  - cbn [forallb] in Hg. apply andb_prop in Hg. destruct Hg as [Hx Hrest].
    destruct (on_grid_spec k _ Hx Hk) as (Hxb & zx & Hzx & Ex).
    cbn [deltas_from fold_left].
    destruct (fsub_exact (seg_end x) s Hxb Hs) as (Ed & Hdb & _).
    { rewrite Ex, Es, <- Z.mul_sub_distr_r.
      apply representable_on_grid; lia. }
    destruct (fadd_exact acc (fsub (seg_end x) s) Hacc Hdb) as (En & Hnb).
    { rewrite Ed, Ea.
      replace (scaled s + (scaled (seg_end x) - scaled s))
        with (scaled (seg_end x)) by lia.
      rewrite Ex. apply representable_on_grid; lia. }
    destruct (IH (seg_end x) (fadd acc (fsub (seg_end x) s)) Hk Hrest Hxb Hnb)
      as (Hfb & Hfs).
    + exists zx. auto.
    + rewrite En, Ed, Ea. lia.
    + split; [assumption|]. rewrite Hfs.
      cbn [map]. now rewrite last_cons.
Qed.

Lemma fbounded_is_finite : forall A B x, fbounded A B x -> is_finite x = true.
Proof. intros A B [s|s| |s m e] H; try contradiction; reflexivity. Qed.

Lemma fltb_fleb : forall x y, fltb x y = true -> fleb x y = true.
Proof.
  intros x y. unfold fltb, fleb, SFltb, SFleb.
  destruct (SFcompare x y) as [[]|]; congruence.
Qed.

Lemma records_from_increasing : forall segments k s,
  increasing_from s segments = true ->
  Forall (fun r => fltb (start_time r) (end_time r) = true)
         (records_from k s segments).
Proof.
  induction segments as [|x rest IH]; intros k s H; [constructor|].
  cbn [increasing_from] in H. apply andb_prop in H. destruct H as [H1 H2].
  cbn [records_from]. constructor; [exact H1|]. apply IH. exact H2.
Qed.

(** *** Negative times *)

Lemma binary_round_aux_opp : forall mx ex lx,
  binary_round_aux prec emax true mx ex lx =
  SFopp (binary_round_aux prec emax false mx ex lx).
Proof.
  intros mx ex lx. unfold binary_round_aux.
  destruct (shr_fexp prec emax mx ex lx) as [mrs' e'].
  destruct (shr_fexp prec emax
              (round_nearest_even (shr_m mrs') (loc_of_shr_record mrs'))
              e' loc_Exact) as [mrs'' e''].
  destruct (shr_m mrs'') as [|p|p]; try reflexivity.
  destruct (e'' <=? emax - prec); reflexivity.
Qed.

Lemma binary_round_opp : forall mx ex,
  binary_round prec emax true mx ex =
  SFopp (binary_round prec emax false mx ex).
Proof.
  intros mx ex. unfold binary_round.
  destruct (shl_align mx ex (fexp prec emax (Zpos (digits2_pos mx) + ex)))
    as [mz ez].
  apply binary_round_aux_opp.
Qed.

Lemma SFopp_involutive : forall x, SFopp (SFopp x) = x.
Proof. intros [s|s| |s m e]; cbn [SFopp]; try rewrite negb_involutive; reflexivity. Qed.

Lemma fmod_opp : forall mx ex y,
  fmod (S754_finite true mx ex) y = SFopp (fmod (S754_finite false mx ex) y).
Proof.
  intros mx ex [sy|sy| |sy my ey]; try reflexivity.
  unfold fmod.
  destruct (Z.rem (Zpos (fst (shl_align mx ex (Z.min ex ey))))
                  (Zpos (fst (shl_align my ey (Z.min ex ey))))) as [|r|r];
    try reflexivity.
  - cbn [cond_Zopp binary_normalize Z.opp]. apply binary_round_opp.
  - cbn [cond_Zopp binary_normalize Z.opp].
    now rewrite binary_round_opp, SFopp_involutive.
Qed.

Lemma fdiv_opp : forall x my ey,
  is_finite x = true ->
  fdiv (SFopp x) (S754_finite false my ey) =
  SFopp (fdiv x (S754_finite false my ey)).
Proof.
  intros [sx|sx| |sx mx ex] my ey Hf; try discriminate.
  - destruct sx; reflexivity.
  - unfold fdiv, SFdiv. cbn [SFopp].
    destruct (SFdiv_core_binary prec emax (Zpos mx) ex (Zpos my) ey)
      as [[mz ez] lz].
    destruct sx; cbn [xorb negb].
    + rewrite binary_round_aux_opp.
      destruct (binary_round_aux prec emax false mz ez lz) as [[]|[]| |[] ? ?];
        reflexivity.
    + apply binary_round_aux_opp.
Qed.

Lemma scaled_opp : forall x, scaled (SFopp x) = - scaled x.
Proof.
  intros [s|s| |s m e]; try reflexivity.
  cbn [SFopp scaled]. destruct s; cbn [negb cond_Zopp]; lia.
Qed.

Lemma fbounded_opp : forall A B x, fbounded A B x -> fbounded A B (SFopp x).
Proof. intros A B [s|s| |s m e] H; exact H. Qed.

Lemma fsigned_opp_of_nonpos : forall A B x,
  fbounded A B x -> scaled x <= 0 -> fsigned false (SFopp x).
Proof.
  intros A B [s|s| |s m e] H Hs; try contradiction; [exact I|].
  destruct H as (_ & He & _). cbn [scaled] in Hs.
  pose proof (pow2_pos (e + 1074) ltac:(lia)).
  destruct s; cbn [cond_Zopp] in Hs; [reflexivity|nia].
Qed.

(** An exact quotient, of either sign. *)
Lemma fdiv_exact_nonpos : forall x my ey K,
  fbounded 1024 971 x ->
  Zdigits2 (Zpos my) <= 53 -> -1074 <= ey <= 0 ->
  0 <= K -> Zdigits2 K <= 53 ->
  scaled x = - (K * (Zpos my * 2 ^ (ey + 1074))) ->
  scaled (fdiv x (S754_finite false my ey)) = - (K * 2 ^ 1074) /\
  fbounded 1024 971 (fdiv x (S754_finite false my ey)).
Proof.
  intros x my ey K Hx Hdy Hey HK HdK Hv.
  pose proof (pow2_pos (ey + 1074) ltac:(lia)) as Hy.
  assert (Hneg : scaled x <= 0) by nia.
  destruct (fdiv_exact (SFopp x) my ey K (fbounded_opp _ _ _ Hx)
              (fsigned_opp_of_nonpos _ _ _ Hx Hneg) Hdy Hey HK HdK)
    as (E & Hb & _).
  { rewrite scaled_opp, Hv. lia. }
  rewrite <- (SFopp_involutive x) at 1 2.
  rewrite fdiv_opp by (destruct x; try contradiction; reflexivity).
  rewrite scaled_opp, E. split; [reflexivity|].
  apply fbounded_opp. exact Hb.
Qed.

(** [floor] and [int] on a float with an integral value. *)
Lemma ffloor_integral : forall x z,
  fbounded 1024 971 x -> scaled x = z * 2 ^ 1074 -> Zdigits2 (Z.abs z) <= 53 ->
  scaled (ffloor x) = z * 2 ^ 1074 /\ fbounded 1024 971 (ffloor x).
Proof.
  intros [s|s| |s m e] z Hx Hv Hd; try contradiction.
  - split; [exact Hv|exact I].
  - cbn [ffloor]. destruct (0 <=? e) eqn:E; [split; assumption|].
    apply Z.leb_gt in E. pose proof Hx as (_ & He & _).
    pose proof (pow2_pos 1074 ltac:(lia)) as HU.
    pose proof (pow2_pos (- e) ltac:(lia)) as H2.
    pose proof (pow2_pos (e + 1074) ltac:(lia)) as H3.
    assert (HUs : 2 ^ 1074 = 2 ^ (- e) * 2 ^ (e + 1074)).
    { rewrite <- pow2_split by lia. f_equal. lia. }
    assert (Hm : cond_Zopp s (Zpos m) = z * 2 ^ (- e)).
    { cbn [scaled] in Hv. rewrite <- cond_Zopp_mul in Hv.
      rewrite HUs in Hv. nia. }
    rewrite Z.shiftr_div_pow2 by lia. rewrite Hm, Z.div_mul by lia.
    destruct (binary_normalize_exact z 0 s ltac:(lia)) as (E1 & E2 & _).
    { rewrite Z.add_0_l. 
      destruct (representable_small (Z.abs z) ltac:(lia) Hd) as (M & Ee & H).
      exists M, Ee. exact H. }
    rewrite E1, Z.add_0_l. split; [reflexivity|assumption].
Qed.

Lemma int_of_float_integral : forall x z,
  fbounded 1024 971 x -> scaled x = z * 2 ^ 1074 -> int_of_float x = Ok z.
Proof.
  intros [s|s| |s m e] z Hx Hv; try contradiction.
  - pose proof (pow2_pos 1074 ltac:(lia)). cbn [scaled] in Hv.
    cbn [int_of_float]. f_equal. nia.
  - pose proof Hx as (_ & He & _). cbn [int_of_float scaled] in *. f_equal.
    pose proof (pow2_pos 1074 ltac:(lia)) as HU.
    rewrite <- cond_Zopp_mul in Hv.
    destruct (Z.le_gt_cases 0 e) as [H|H].
    + rewrite Z.shiftl_mul_pow2 by lia.
      rewrite (pow2_split e 1074) in Hv by lia.
      rewrite <- cond_Zopp_mul. nia.
    + rewrite Z.shiftl_div_pow2 by lia.
      pose proof (pow2_pos (- e) ltac:(lia)) as H2.
      pose proof (pow2_pos (e + 1074) ltac:(lia)) as H3.
      assert (HUs : 2 ^ 1074 = 2 ^ (- e) * 2 ^ (e + 1074)).
      { rewrite <- pow2_split by lia. f_equal. lia. }
      rewrite HUs in Hv.
      assert (Hm : cond_Zopp s (Zpos m) = z * 2 ^ (- e)) by nia.
      destruct s; cbn [cond_Zopp] in *.
      * replace (Zpos m) with ((- z) * 2 ^ (- e)) by lia.
        rewrite Z.div_mul by lia. lia.
      * rewrite Hm, Z.div_mul by lia. reflexivity.
Qed.

Lemma scaled_one : scaled one = 2 ^ 1074.
Proof. vm_compute. reflexivity. Qed.

Lemma fltb_negative_zero : forall m e sz,
  fltb (S754_finite true m e) (S754_zero sz) = true.
Proof. reflexivity. Qed.

Section ExactQuotientOfNegative.

Variables (my : positive) (ey W : Z).
Hypothesis Hdy : Zdigits2 (Zpos my) <= 53.
Hypothesis Hey : -1074 <= ey <= 0.
Hypothesis HW : 2 <= W.
Hypothesis HVw : Zpos my * 2 ^ (ey + 1074) = W * 2 ^ 1074.

Lemma float_floor_div_exact_negative : forall mx ex,
  fbounded 1024 971 (S754_finite true mx ex) ->
  Zpos mx * 2 ^ (ex + 1074) / 2 ^ 1074 < 2 ^ 53 ->
  exists q,
    float_floor_div (S754_finite true mx ex) (S754_finite false my ey) = Ok q /\
    int_of_float q =
      Ok (scaled (S754_finite true mx ex) / (W * 2 ^ 1074)).
Proof.
  intros mx ex Hx HN.
  pose proof (pow2_pos 1074 ltac:(lia)) as HU.
  pose proof Hx as (_ & Hex & _).
  pose proof (pow2_pos (ex + 1074) ltac:(lia)) as Hcx.
  set (t := S754_finite true mx ex) in *.
  set (t' := S754_finite false mx ex).
  set (w := S754_finite false my ey).
  set (U := 2 ^ 1074) in *.
  set (a := Zpos mx * 2 ^ (ex + 1074)) in *.
  assert (Ha : 0 < a) by (unfold a; nia).
  assert (Et : scaled t = - a) by reflexivity.
  assert (Et' : scaled t' = a) by reflexivity.
  set (N := a / U) in *.
  set (K := a / (W * U)).
  set (r := a mod (W * U)).
  assert (HWU : 0 < W * U) by nia.
  assert (Hdm : a = W * U * K + r) by (apply Z.div_mod; lia).
  assert (Hr : 0 <= r < W * U) by (apply Z.mod_pos_bound; lia).
  assert (HK0 : 0 <= K) by (apply Z.div_pos; lia).
  assert (HN0 : 0 <= N) by (apply Z.div_pos; lia).
  assert (HKN : W * K <= N).
  { unfold N. apply Z.div_le_lower_bound; [lia|]. nia. }
  change (2 ^ 53) with 9007199254740992 in HN.
  assert (HdKW : Zdigits2 (K * W) <= 53)
    by (apply Zdigits2_le_of_lt; [lia|change (2 ^ 53) with 9007199254740992; nia]).
  assert (HdK : Zdigits2 K <= 53)
    by (apply Zdigits2_le_of_lt; [lia|change (2 ^ 53) with 9007199254740992; nia]).
  assert (HdK1 : Zdigits2 (K + 1) <= 53)
    by (apply Zdigits2_le_of_lt; [lia|change (2 ^ 53) with 9007199254740992; nia]).
  (* the remainder *)
  assert (Hx' : fbounded 1024 971 t') by exact Hx.
  assert (Hm0'b : fbounded 1024 971 (fmod t' w)).
  { eapply fbounded_weaken; [| |apply (fmod_bounded 1024 971 t' false my ey)];
      try assumption; lia. }
  pose proof (fmod_scaled t' false my ey Hx' eq_refl Hdy ltac:(lia)) as Hv.
  rewrite HVw, Et' in Hv. fold U r w in Hv.
  assert (Em0 : fmod t w = SFopp (fmod t' w)) by apply fmod_opp.
  assert (Hm0b : fbounded 1024 971 (fmod t w))
    by (rewrite Em0; apply fbounded_opp; assumption).
  assert (Hm0s : scaled (fmod t w) = - r)
    by (rewrite Em0, scaled_opp, Hv; reflexivity).
  (* the difference and the quotient *)
  destruct (fsub_exact t (fmod t w) Hx Hm0b) as (Es & Hsb & _).
  { rewrite Et, Hm0s.
    replace (Z.abs (- a - - r)) with (K * W * U) by nia.
    apply representable_small; [nia|assumption]. }
  rewrite Et, Hm0s in Es.
  destruct (fdiv_exact_nonpos (fsub t (fmod t w)) my ey K Hsb Hdy Hey HK0 HdK)
    as (Ed & Hdb).
  { rewrite Es, HVw. fold U. lia. }
  fold U w in Ed, Hdb.
  unfold float_floor_div. fold w. unfold w at 1. rewrite feqb_finite_zero.
  fold w. eexists. split; [reflexivity|].
  unfold float_div_mod.
  change (fltb w zero) with false. rewrite Et.
  set (m0 := fmod t w) in *.
  set (d0 := fdiv (fsub t m0) w) in *.
  destruct (Z.eq_dec r 0) as [Hr0|Hr0].
  - (* the time is a multiple of the divisor *)
    assert (Hz : is_zero m0 = true)
      by (apply (scaled_zero_of_finite _ _ _ Hm0b); lia).
    rewrite Hz. cbn [negb fst snd].
    assert (HK1 : 1 <= K) by nia.
    assert (Hnz : is_zero d0 = false).
    { destruct d0 as [s|s| |s m e]; try reflexivity.
      cbn [scaled] in Ed. nia. }
    rewrite Hnz. cbn [negb].
    destruct (ffloor_integral d0 (- K) Hdb) as (Ef & Hfb);
      [rewrite Ed; lia|rewrite Z.abs_opp, Z.abs_eq by lia; assumption|].
    fold U in Ef.
    destruct (fsub_exact d0 (ffloor d0) Hdb Hfb) as (Ez & Hzb & _).
    { rewrite Ed, Ef.
      replace (Z.abs (- (K * U) - - K * U)) with 0 by lia.
      apply representable_zero. }
    rewrite (fltb_half_zero _ (scaled_zero_of_finite _ _ _ Hzb
               ltac:(rewrite Ez, Ed, Ef; lia))).
    rewrite (int_of_float_integral _ (- K) Hfb Ef). f_equal.
    apply Z.div_unique with (r := 0); lia.
  - (* a proper remainder: the quotient moves one down *)
    assert (Hz : is_zero m0 = false).
    { destruct m0 as [s|s| |s m e]; try reflexivity.
      cbn [scaled] in Hm0s. lia. }
    assert (Hneg : fltb m0 zero = true).
    { pose proof (fmod_nonneg t' w eq_refl) as Hs'.
      unfold m0 in *. rewrite Em0 in Hz |- *.
      destruct (fmod t' w) as [s|s| |s m e]; try discriminate;
        try contradiction.
      simpl in Hs'. subst s. reflexivity. }
    rewrite Hz, Hneg. cbn [negb xorb fst snd].
    assert (Hob : fbounded 1024 971 one)
      by (eapply fbounded_weaken; [| |exact one_bounded]; lia).
    destruct (fsub_exact d0 one Hdb Hob) as (Ev & Hvb & _).
    { rewrite Ed, scaled_one. fold U.
      replace (Z.abs (- (K * U) - U)) with ((K + 1) * U) by nia.
      apply representable_small; [lia|assumption]. }
    rewrite Ed, scaled_one in Ev. fold U in Ev.
    set (dv := fsub d0 one) in *.
    assert (Hnz : is_zero dv = false).
    { destruct dv as [s|s| |s m e]; try reflexivity.
      cbn [scaled] in Ev. nia. }
    rewrite Hnz. cbn [negb].
    destruct (ffloor_integral dv (- (K + 1)) Hvb) as (Ef & Hfb);
      [rewrite Ev; lia|rewrite Z.abs_opp, Z.abs_eq by lia; assumption|].
    fold U in Ef.
    destruct (fsub_exact dv (ffloor dv) Hvb Hfb) as (Ez & Hzb & _).
    { rewrite Ev, Ef.
      replace (Z.abs (- (K * U) - U - - (K + 1) * U)) with 0 by lia.
      apply representable_zero. }
    rewrite (fltb_half_zero _ (scaled_zero_of_finite _ _ _ Hzb
               ltac:(rewrite Ez, Ev, Ef; lia))).
    rewrite (int_of_float_integral _ (- (K + 1)) Hfb Ef). f_equal.
    apply Z.div_unique with (r := W * U - r); lia.
Qed.

End ExactQuotientOfNegative.

(** ** Timestamps *)

(** X1.  On a well-formed binary64, [_format_timestamp] returns a string
    exactly when the time is finite; on NaN and on both infinities it
    raises the [ValueError] of [int()] on NaN (an infinite time has already
    become NaN in the floor division). *)
Theorem format_timestamp_returns_iff_finite : forall t,
  valid t = true ->
  ((exists s, _format_timestamp t = Ok s) <-> is_finite t = true) /\
  (is_finite t = false ->
   _format_timestamp t =
   Raise (ValueError "cannot convert float NaN to integer")).
Proof.
  intros t Hv. split; [split|].
  - intros [s Hs]. destruct (is_finite t) eqn:Ef; [reflexivity|].
    rewrite (format_timestamp_not_finite t Ef) in Hs. discriminate.
  - apply format_timestamp_returns. assumption.
  - apply format_timestamp_not_finite.
Qed.

Lemma format_timestamp_returns_iff_finite_witness :
  ((exists s, _format_timestamp (of_decimal 25 1) = Ok s) <->
   is_finite (of_decimal 25 1) = true) /\
  (is_finite (of_decimal 25 1) = false ->
   _format_timestamp (of_decimal 25 1) =
   Raise (ValueError "cannot convert float NaN to integer")).
Proof.
  apply (format_timestamp_returns_iff_finite (of_decimal 25 1)).
  vm_compute. reflexivity.
Defined.

(** X2.  Below 100 hours, the timestamp of a non-negative finite time is
    the twelve characters HH:MM:SS,mmm: two decimal digits for the hours,
    minutes and seconds of its whole seconds, and three for the
    milliseconds, which are below 1000. *)
Theorem format_timestamp_below_100_hours : forall t whole,
  valid t = true -> is_finite t = true -> fleb zero t = true ->
  int_of_float t = Ok whole -> whole < 360000 ->
  exists millis,
    (r <- float_rem t (of_Z 1) ;;
     int_of_float (fmul r (of_Z 1000)))%py = Ok millis /\
    0 <= millis <= 999 /\
    _format_timestamp t =
      Ok (two_digits (whole / 3600) ++ ":" ++
          two_digits (whole mod 3600 / 60) ++ ":" ++
          two_digits (whole mod 60) ++ "," ++ three_digits millis)%string.
Proof.
  intros t whole Hv Hf Hle Ew Hlt.
  destruct (format_timestamp_fields t whole Hv Hf Hle Ew)
    as (h & ms & Hw & _ & Hh & Xh & _ & Ems & _ & _ & Hms & E).
  exists ms. split; [assumption|]. split; [assumption|].
  rewrite E. specialize (Xh ltac:(change (2 ^ 53) with 9007199254740992; lia)).
  subst h. rewrite zfill_two_digits; [reflexivity|].
  split; [assumption|].
  assert (whole / 3600 < 100) by (apply Z.div_lt_upper_bound; lia). lia.
Qed.

Lemma format_timestamp_below_100_hours_witness :
  exists millis,
    (r <- float_rem (of_decimal 36615 1) (of_Z 1) ;;
     int_of_float (fmul r (of_Z 1000)))%py = Ok millis /\
    0 <= millis <= 999 /\
    _format_timestamp (of_decimal 36615 1) =
      Ok (two_digits (3661 / 3600) ++ ":" ++
          two_digits (3661 mod 3600 / 60) ++ ":" ++
          two_digits (3661 mod 60) ++ "," ++ three_digits millis)%string.
Proof.
  apply (format_timestamp_below_100_hours (of_decimal 36615 1) 3661);
    vm_compute; reflexivity.
Defined.

(** X3.  The format pads but never cuts: a timestamp has at least twelve
    characters, and exactly twelve only below 100 hours (360000 seconds);
    from there on the hours take three characters or more. *)
Theorem format_timestamp_width : forall t whole s,
  valid t = true -> is_finite t = true -> fleb zero t = true ->
  int_of_float t = Ok whole -> whole < 2 ^ 53 ->
  _format_timestamp t = Ok s ->
  (String.length s = 12%nat <-> whole < 360000) /\
  (12 <= String.length s)%nat.
Proof.
  intros t whole s Hv Hf Hle Ew Hlt Es.
  destruct (format_timestamp_fields t whole Hv Hf Hle Ew)
    as (h & ms & Hw & _ & Hh & Xh & _ & _ & _ & _ & _ & E).
  specialize (Xh Hlt). rewrite Es in E. injection E as ->.
  rewrite !length_app. cbn [String.length two_digits three_digits].
  destruct (Z.lt_ge_cases whole 360000) as [Hs|Hb].
  - assert (h < 100) by (subst h; apply Z.div_lt_upper_bound; lia).
    rewrite zfill_two_digits by lia. cbn [String.length two_digits].
    split; [split; [intros _; assumption|reflexivity]|lia].
  - assert (100 <= h) by (subst h; apply Z.div_le_lower_bound; lia).
    pose proof (str_of_int_three_characters h ltac:(lia)) as H3.
    unfold zfill.
    replace (2 - String.length (str_of_int h))%nat with 0%nat by lia.
    cbn [zeros append].
    split; [split; [intros Hl; lia|intros Hl; lia]|lia].
Qed.

Lemma format_timestamp_width_witness :
  (String.length "100:00:00,000" = 12%nat <-> 360000 < 360000) /\
  (12 <= String.length "100:00:00,000")%nat.
Proof.
  apply (format_timestamp_width (of_Z 360000) 360000 "100:00:00,000");
    vm_compute; reflexivity.
Defined.

(** X4.  Up to 2^53 seconds the timestamp denotes the time it formats:
    hours, minutes and seconds add up to the whole seconds of [t], and with
    the milliseconds they give the whole milliseconds of [t] or one
    millisecond more (the product with 1000.0 is rounded before it is
    truncated). *)
Theorem format_timestamp_denotes_time : forall t whole,
  valid t = true -> is_finite t = true -> fleb zero t = true ->
  int_of_float t = Ok whole -> whole < 2 ^ 53 ->
  exists hours minutes seconds millis,
    (q <- float_floor_div t (of_Z 3600) ;; int_of_float q)%py = Ok hours /\
    (r <- float_rem t (of_Z 3600) ;;
     q <- float_floor_div r (of_Z 60) ;; int_of_float q)%py = Ok minutes /\
    (r <- float_rem t (of_Z 60) ;; int_of_float r)%py = Ok seconds /\
    (r <- float_rem t (of_Z 1) ;;
     int_of_float (fmul r (of_Z 1000)))%py = Ok millis /\
    hours * 3600 + minutes * 60 + seconds = whole /\
    scaled t * 1000 / 2 ^ 1074 <=
      (hours * 3600 + minutes * 60 + seconds) * 1000 + millis /\
    (hours * 3600 + minutes * 60 + seconds) * 1000 + millis <=
      scaled t * 1000 / 2 ^ 1074 + 1.
Proof.
  intros t whole Hv Hf Hle Ew Hlt.
  pose proof (valid_fbounded t Hv Hf) as Hb.
  assert (Hsign : fsigned false t).
  { destruct t as [sg|sg| |sg mt et]; try discriminate; try exact I.
    destruct sg; [discriminate|reflexivity]. }
  destruct (format_timestamp_fields t whole Hv Hf Hle Ew)
    as (h & ms & Hw & EN & Hh & Xh & Eh & Ems & Hlo & Hhi & Hms & _).
  destruct (format_timestamp_fields_exact t whole Hb Hsign Ew)
    as (Xs & Xm & _).
  specialize (Xh Hlt).
  exists h, (whole mod 3600 / 60), (whole mod 60), ms.
  do 4 (split; [assumption|]).
  pose proof (pow2_pos 1074 ltac:(lia)) as HU.
  assert (Hsum : h * 3600 + whole mod 3600 / 60 * 60 + whole mod 60 = whole).
  { subst h.
    pose proof (Z.div_mod whole 3600 ltac:(lia)) as D1.
    pose proof (Z.div_mod (whole mod 3600) 60 ltac:(lia)) as D2.
    assert (D3 : (whole mod 3600) mod 60 = whole mod 60).
    { pose proof (Z.mod_pos_bound (whole mod 3600) 60 ltac:(lia)).
      apply Z.mod_unique with (q := 60 * (whole / 3600) + whole mod 3600 / 60);
        lia. }
    lia. }
  split; [exact Hsum|]. rewrite Hsum.
  assert (HE : scaled t * 1000 / 2 ^ 1074 =
               whole * 1000 + scaled t mod 2 ^ 1074 * 1000 / 2 ^ 1074).
  { rewrite (Z.div_mod (scaled t) (2 ^ 1074)) at 1 by lia. rewrite <- EN.
    replace ((2 ^ 1074 * whole + scaled t mod 2 ^ 1074) * 1000)
      with (whole * 1000 * 2 ^ 1074 + scaled t mod 2 ^ 1074 * 1000) by ring.
    rewrite Z.div_add_l by lia. reflexivity. }
  rewrite HE. lia.
Qed.

Lemma format_timestamp_denotes_time_witness :
  exists hours minutes seconds millis,
    (q <- float_floor_div (of_decimal 36615 1) (of_Z 3600) ;;
     int_of_float q)%py = Ok hours /\
    (r <- float_rem (of_decimal 36615 1) (of_Z 3600) ;;
     q <- float_floor_div r (of_Z 60) ;; int_of_float q)%py = Ok minutes /\
    (r <- float_rem (of_decimal 36615 1) (of_Z 60) ;; int_of_float r)%py
      = Ok seconds /\
    (r <- float_rem (of_decimal 36615 1) (of_Z 1) ;;
     int_of_float (fmul r (of_Z 1000)))%py = Ok millis /\
    hours * 3600 + minutes * 60 + seconds = 3661 /\
    scaled (of_decimal 36615 1) * 1000 / 2 ^ 1074 <=
      (hours * 3600 + minutes * 60 + seconds) * 1000 + millis /\
    (hours * 3600 + minutes * 60 + seconds) * 1000 + millis <=
      scaled (of_decimal 36615 1) * 1000 / 2 ^ 1074 + 1.
Proof.
  apply (format_timestamp_denotes_time (of_decimal 36615 1) 3661);
    vm_compute; reflexivity.
Defined.

(** X5.  A negative time never passes for a valid timestamp: above -2^53
    seconds the hours field is the floor of [t / 3600], which is -1 or
    less, so the string starts with a minus sign. *)
Theorem format_timestamp_negative_sign : forall t whole,
  valid t = true -> is_finite t = true -> fltb t zero = true ->
  int_of_float t = Ok whole -> - 2 ^ 53 < whole ->
  exists hours rest,
    (q <- float_floor_div t (of_Z 3600) ;; int_of_float q)%py = Ok hours /\
    hours = scaled t / (3600 * 2 ^ 1074) /\
    hours <= -1 /\
    _format_timestamp t = Ok (String "-" rest).
Proof.
  intros t whole Hv Hf Hneg Ew Hw.
  pose proof (valid_fbounded t Hv Hf) as Hb.
  destruct t as [s|s| |s m e]; try discriminate.
  destruct s; [|discriminate].
  pose proof (pow2_pos 1074 ltac:(lia)) as HU.
  assert (HN : Zpos m * 2 ^ (e + 1074) / 2 ^ 1074 < 2 ^ 53).
  { pose proof (int_of_float_scaled (S754_finite false m e) Hb eq_refl) as H.
    cbn [int_of_float scaled cond_Zopp] in H, Ew.
    assert (E1 : Z.shiftl (Zpos m) e = Zpos m * 2 ^ (e + 1074) / 2 ^ 1074)
      by congruence.
    assert (E2 : - Z.shiftl (Zpos m) e = whole) by congruence.
    lia. }
  destruct (float_floor_div_exact_negative 7916483719987200 (-41) 3600
              ltac:(simpl; lia) ltac:(lia) ltac:(lia) scaled_3600 m e Hb HN)
    as (q & Eq & Ei).
  destruct (format_timestamp_finite _ Hb)
    as (h & mi & se & ms & Eh & _ & _ & _ & E & _).
  rewrite of_Z_3600 in Eh |- *. rewrite Eq in Eh |- *. cbn [bind] in Eh |- *.
  assert (Hh : h = scaled (S754_finite true m e) / (3600 * 2 ^ 1074))
    by congruence.
  assert (Hlt : h < 0).
  { rewrite Hh. apply Z.div_lt_upper_bound; [lia|].
    destruct Hb as (_ & He & _).
    pose proof (pow2_pos (e + 1074) ltac:(lia)).
    cbn [scaled cond_Zopp]. nia. }
  exists h. eexists. split; [exact Eh|]. split; [exact Hh|].
  split; [lia|]. rewrite E. unfold format_0wd at 1.
  replace (h <? 0) with true by (symmetry; apply Z.ltb_lt; assumption).
  reflexivity.
Qed.

Lemma format_timestamp_negative_sign_witness :
  exists hours rest,
    (q <- float_floor_div (SFopp (of_decimal 5 1)) (of_Z 3600) ;;
     int_of_float q)%py = Ok hours /\
    hours = scaled (SFopp (of_decimal 5 1)) / (3600 * 2 ^ 1074) /\
    hours <= -1 /\
    _format_timestamp (SFopp (of_decimal 5 1)) = Ok (String "-" rest).
Proof.
  apply (format_timestamp_negative_sign (SFopp (of_decimal 5 1)) 0);
    vm_compute; reflexivity.
Defined.

(** ** The records of the loop *)

(** X6.  [to_srt_string] fails exactly when a time of the record is not
    finite: on well-formed binary64 times it returns the block (index
    line, the two timestamps around the arrow, text, each closed by a
    newline) when [start_time] and [end_time] are both finite, and raises
    the [ValueError] of [_format_timestamp] as soon as one of them is NaN
    or infinite. *)
Theorem to_srt_string_returns_iff_finite : forall r,
  valid (start_time r) = true -> valid (end_time r) = true ->
  (is_finite (start_time r) = true -> is_finite (end_time r) = true ->
   exists start_timestamp end_timestamp,
     _format_timestamp (start_time r) = Ok start_timestamp /\
     _format_timestamp (end_time r) = Ok end_timestamp /\
     to_srt_string r =
       Ok (str_of_int (index r) ++ nl ++
           start_timestamp ++ " --> " ++ end_timestamp ++ nl ++
           text r ++ nl)%string) /\
  (is_finite (start_time r) && is_finite (end_time r) = false ->
   to_srt_string r =
   Raise (ValueError "cannot convert float NaN to integer")).
Proof.
  intros r Hvs Hve. unfold to_srt_string. split.
  - intros Hfs Hfe.
    destruct (format_timestamp_returns _ Hvs Hfs) as [ts Ets].
    destruct (format_timestamp_returns _ Hve Hfe) as [te Ete].
    exists ts, te. rewrite Ets, Ete. auto.
  - intros Hn. destruct (is_finite (start_time r)) eqn:Efs.
    + destruct (format_timestamp_returns _ Hvs Efs) as [ts Ets]. rewrite Ets.
      cbn [bind]. cbn [andb] in Hn.
      now rewrite (format_timestamp_not_finite _ Hn).
    + now rewrite (format_timestamp_not_finite _ Efs).
Qed.

Lemma to_srt_string_returns_iff_finite_witness :
  (is_finite (start_time cue_two) = true ->
   is_finite (end_time cue_two) = true ->
   exists start_timestamp end_timestamp,
     _format_timestamp (start_time cue_two) = Ok start_timestamp /\
     _format_timestamp (end_time cue_two) = Ok end_timestamp /\
     to_srt_string cue_two =
       Ok (str_of_int (index cue_two) ++ nl ++
           start_timestamp ++ " --> " ++ end_timestamp ++ nl ++
           text cue_two ++ nl)%string) /\
  (is_finite (start_time cue_two) && is_finite (end_time cue_two) = false ->
   to_srt_string cue_two =
   Raise (ValueError "cannot convert float NaN to integer")).
Proof.
  apply (to_srt_string_returns_iff_finite cue_two); vm_compute; reflexivity.
Defined.

(** X7.  Every record carries the text of its segment unchanged, so the
    transcript [transcribe_audio] returns is the space-joined texts of the
    records it returns. *)
Theorem records_carry_segment_texts : forall P audio_file_path model_size w,
  exists transcript records,
    fst (transcribe_audio P audio_file_path model_size w) =
      Ok (transcript, records) /\
    map text records =
      map seg_text (fst (engine P audio_file_path model_size)) /\
    transcript = join " " (map text records).
Proof.
  intros P a m w. eexists _, _.
  split; [apply transcribe_audio_returns|].
  rewrite records_from_text. split; reflexivity.
Qed.

(** X8.  The order of the engine's segment ends carries over to the
    records: when the ends start at or above 0.0 and strictly increase,
    every record has [start_time <= end_time], strictly from the second
    record on. *)
Theorem records_ordered : forall P audio_file_path model_size w,
  nonneg_increasing (fst (engine P audio_file_path model_size)) = true ->
  exists transcript records,
    fst (transcribe_audio P audio_file_path model_size w) =
      Ok (transcript, records) /\
    Forall (fun r => fleb (start_time r) (end_time r) = true) records /\
    Forall (fun r => fltb (start_time r) (end_time r) = true) (tl records).
Proof.
  intros P a m w H. eexists _, _.
  split; [apply transcribe_audio_returns|].
  destruct (fst (engine P a m)) as [|x rest]; [split; constructor|].
  cbn [nonneg_increasing] in H. apply andb_prop in H. destruct H as [H0 Hi].
  pose proof (records_from_increasing rest (1 + 1) (seg_end x) Hi) as Hr.
  cbn [records_from tl]. split; [|exact Hr].
  constructor; [exact H0|].
  eapply Forall_impl; [|exact Hr]. intros r. apply fltb_fleb.
Qed.

Lemma records_ordered_witness :
  exists transcript records,
    fst (transcribe_audio (fixed_engine tenths_segments (of_decimal 9 1))
           "a.wav" "tiny.en" empty_world) = Ok (transcript, records) /\
    Forall (fun r => fleb (start_time r) (end_time r) = true) records /\
    Forall (fun r => fltb (start_time r) (end_time r) = true) (tl records).
Proof.
  apply (records_ordered (fixed_engine tenths_segments (of_decimal 9 1))
           "a.wav" "tiny.en" empty_world).
  vm_compute. reflexivity.
Defined.

(** X9.  When every segment end is a non-negative multiple of 2^-k
    seconds with fewer than 53 bits (whole seconds, halves, quarters, ...),
    no subtraction or addition of the loop rounds: the accumulated progress
    is finite and has the value of the last record's end time, in whatever
    order the ends come. *)
Theorem progress_exact_on_binary_grid : forall segments duration k,
  0 <= k <= 1074 ->
  forallb (fun x => on_grid k (seg_end x)) segments = true ->
  is_finite (n (pbar (transcribe_loop segments duration))) = true /\
  scaled (n (pbar (transcribe_loop segments duration))) =
  scaled (last (map end_time (srt_segments (transcribe_loop segments duration)))
               zero).
Proof.
  intros segments duration k Hk Hg.
  rewrite loop_n, loop_srt_segments, records_from_end.
  destruct (fold_deltas_exact k segments zero zero Hk Hg I I) as (Hb & Hs).
  - exists 0. split; [change (2 ^ 53) with 9007199254740992; lia|reflexivity].
  - reflexivity.
  - split; [exact (fbounded_is_finite _ _ _ Hb)|exact Hs].
Qed.

Lemma progress_exact_on_binary_grid_witness :
  is_finite (n (pbar (transcribe_loop
     [mkSegment (of_decimal 25 1) "Hi"; mkSegment (of_decimal 725 2) "there"]
     (of_Z 8)))) = true /\
  scaled (n (pbar (transcribe_loop
     [mkSegment (of_decimal 25 1) "Hi"; mkSegment (of_decimal 725 2) "there"]
     (of_Z 8)))) =
  scaled (last (map end_time (srt_segments (transcribe_loop
     [mkSegment (of_decimal 25 1) "Hi"; mkSegment (of_decimal 725 2) "there"]
     (of_Z 8)))) zero).
Proof.
  apply (progress_exact_on_binary_grid
     [mkSegment (of_decimal 25 1) "Hi"; mkSegment (of_decimal 725 2) "there"]
     (of_Z 8) 2); [lia|vm_compute; reflexivity].
Defined.

(** ** The files written *)


(** ** The entry point *)

(** X12.  No run of [main] transcribes or writes anything: either
    [parse_args] leaves with its exit status, or the arguments parse and
    the run ends in the [TypeError] of the call inside
    [process_audio_file]; in both cases the world is as it was. *)
Theorem main_never_transcribes : forall P parse_args argv w,
  snd (main P parse_args argv w) = w /\
  ((exists status,
      parse_args argv = SystemExit status /\
      fst (main P parse_args argv w) = Exited status) \/
   (exists args,
      parse_args argv = Parsed args /\
      fst (main P parse_args argv w) =
      Raised (TypeError
        "transcribe_audio() takes 2 positional arguments but 3 were given"))).
Proof.
  intros P parse_args argv w. unfold main.
  destruct (parse_args argv) as [args|status].
  - split; [reflexivity|]. right. exists args. split; reflexivity.
  - split; [reflexivity|]. left. exists status. split; reflexivity.
Qed.
